(** * Real-time AI call notes: extraction engine, session store, coaching gate
      and summary orchestrator

    A shallow embedding of
      - [src/hooks/useTextAnalysis.ts]   (keyword lexicon, [analyzeText]),
      - [src/store/callStore.ts]         (the zustand store and its actions),
      - [src/services/geminiService.ts]  (coaching cache, summary generation),
      - [src/components/AgentCoaching.tsx] ([fetchSuggestions]),
      - the handlers of [App] that feed the store (speech, typed text, audio
        transcripts) and the search of [CallHistory],
    followed by the properties the specification states about them and by
    further properties of the code.

    Conventions of the embedding.
    - A JavaScript string is a [string]; every [ascii] stands for one UTF-16
      code unit in the range 0..255, so [String.length] is [.length].
    - Lengths and counters are [nat]; quantities that the code subtracts
      (transcript growth, sentiment scores, clock readings) are [Z].
    - A JavaScript number that holds a money value is an IEEE 754 double,
      Rocq's primitive [float] ([number]): [+] is the rounded addition of
      doubles, and [NaN], the infinities and the signed zeros are there.
    - [uuidv4()], [Date.now()] and [new Date()] read a [World] that is threaded
      through the code with a small state monad.
    - The remote model (the [fetch] in [callGeminiAPI]) followed by
      [JSON.parse] is an oracle: each asynchronous function takes the outcome
      of the request as an argument and reports whether it issued the request. *)

From Stdlib Require Import List String Ascii ZArith NArith Arith Bool Lia.
From Stdlib Require Import DecimalString.
From Stdlib Require Import PrimFloat SpecFloat FloatOps.
Import ListNotations.
Open Scope string_scope.
Open Scope list_scope.

(** String concatenation, kept apart from list append. *)
Infix "+++" := String.append (right associativity, at level 60).

(* ================================================================== *)
(** * JavaScript strings *)

Module JsString.

Definition code (c : ascii) : N := N_of_ascii c.

Definition in_range (lo hi : N) (c : ascii) : bool :=
  (N.leb lo (code c) && N.leb (code c) hi)%bool.

(** [String.prototype.toLowerCase] on one code unit below 256: the letters
    A-Z and the Latin-1 capitals (0xC0-0xDE without the sign 0xD7). *)
Definition lower_char (c : ascii) : ascii :=
  if in_range 65 90 c then ascii_of_N (code c + 32)
  else if (in_range 192 222 c && negb (N.eqb (code c) 215))%bool
       then ascii_of_N (code c + 32)
  else c.

Fixpoint toLowerCase (s : string) : string :=
  match s with
  | EmptyString => EmptyString
  | String c s' => String (lower_char c) (toLowerCase s')
  end.

(** [s.includes(kw)] *)
Fixpoint includes (s kw : string) : bool :=
  if String.prefix kw s then true
  else match s with
       | EmptyString => false
       | String _ s' => includes s' kw
       end.

(** [s.slice(0, n)] *)
Fixpoint slice0 (n : nat) (s : string) : string :=
  match n, s with
  | S n', String c s' => String c (slice0 n' s')
  | _, _ => EmptyString
  end.

(** [parts.join(sep)] *)
Fixpoint join (sep : string) (parts : list string) : string :=
  match parts with
  | [] => EmptyString
  | [p] => p
  | p :: rest => p +++ sep +++ join sep rest
  end.

(** [s.slice(n)] *)
Fixpoint slice_from (n : nat) (s : string) : string :=
  match n, s with
  | S n', String _ s' => slice_from n' s'
  | _, _ => s
  end.

(** [s.replace(a, b)] with string arguments: the first occurrence only. *)
Fixpoint replace_first (a b s : string) : string :=
  if String.prefix a s then b +++ slice_from (String.length a) s
  else match s with
       | EmptyString => EmptyString
       | String c s' => String c (replace_first a b s')
       end.

(** Decimal rendering of an integer, as template literals do. *)
Definition of_Z (z : Z) : string := NilZero.string_of_int (Z.to_int z).
Definition of_nat (n : nat) : string := of_Z (Z.of_nat n).

Definition is_digit (c : ascii) : bool := in_range 48 57 c.

(** [\w]: letters, digits and the underscore. *)
Definition is_word (c : ascii) : bool :=
  (in_range 97 122 c || in_range 65 90 c || is_digit c
   || N.eqb (code c) 95)%bool.

(** [\s] below 256: TAB, LF, VT, FF, CR, SPACE and NBSP. *)
Definition is_space (c : ascii) : bool :=
  (in_range 9 13 c || N.eqb (code c) 32 || N.eqb (code c) 160)%bool.

Fixpoint filter_chars (keep : ascii -> bool) (s : string) : string :=
  match s with
  | EmptyString => EmptyString
  | String c s' =>
      if keep c then String c (filter_chars keep s')
      else filter_chars keep s'
  end.

End JsString.
Import JsString.

(* ================================================================== *)
(** * Regular expressions

    A backtracking matcher with the priority order of ECMAScript: alternatives
    are tried left to right, quantifiers are greedy, and an iteration of a
    star that consumes nothing is rejected. *)

Module Regex.

Inductive regex : Type :=
| Eps
| Chr (p : ascii -> bool)
| Seq (r1 r2 : regex)
| Alt (r1 r2 : regex)
| Star (r : regex)
| WordB.

Definition Plus (r : regex) : regex := Seq r (Star r).
Definition Opt (r : regex) : regex := Alt r Eps.

Definition seqs (rs : list regex) : regex := fold_right Seq Eps rs.

Fixpoint alts (rs : list regex) : regex :=
  match rs with
  | [] => Chr (fun _ => false)
  | [r] => r
  | r :: rest => Alt r (alts rest)
  end.

Definition chr (c : ascii) : regex := Chr (Ascii.eqb c).

(** A literal letter under the [i] flag. *)
Definition chr_ci (c : ascii) : regex :=
  Chr (fun x => Ascii.eqb (lower_char x) (lower_char c)).

Fixpoint lit (s : string) : regex :=
  match s with
  | EmptyString => Eps
  | String c s' => Seq (chr c) (lit s')
  end.

Fixpoint lit_ci (s : string) : regex :=
  match s with
  | EmptyString => Eps
  | String c s' => Seq (chr_ci c) (lit_ci s')
  end.

Definition digit : regex := Chr is_digit.
Definition word : regex := Chr is_word.
Definition space : regex := Chr is_space.

Definition is_word_opt (o : option ascii) : bool :=
  match o with Some c => is_word c | None => false end.

Definition head (s : string) : option ascii :=
  match s with String c _ => Some c | EmptyString => None end.

(** [run r prev s k]: match [r] at the front of [s] ([prev] is the code unit
    before it) and hand what is left to the continuation [k]; the first
    success in priority order wins. *)
Fixpoint run (r : regex) (prev : option ascii) (s : string)
         (k : option ascii -> string -> option string) : option string :=
  match r with
  | Eps => k prev s
  | Chr p =>
      match s with
      | String c s' => if p c then k (Some c) s' else None
      | EmptyString => None
      end
  | Seq r1 r2 => run r1 prev s (fun prev' s' => run r2 prev' s' k)
  | Alt r1 r2 =>
      match run r1 prev s k with
      | Some rest => Some rest
      | None => run r2 prev s k
      end
  | Star r1 =>
      (fix loop (fuel : nat) (prev : option ascii) (s : string)
         : option string :=
         match fuel with
         | O => k prev s
         | S fuel' =>
             match run r1 prev s
                     (fun prev' s' =>
                        if Nat.ltb (String.length s') (String.length s)
                        then loop fuel' prev' s' else None) with
             | Some rest => Some rest
             | None => k prev s
             end
         end) (String.length s) prev s
  | WordB =>
      if xorb (is_word_opt prev) (is_word_opt (head s))
      then k prev s else None
  end.

(** The text matched at the front of [s], if any. *)
Definition exec_at (r : regex) (prev : option ascii) (s : string)
  : option string :=
  match run r prev s (fun _ rest => Some rest) with
  | Some rest => Some (slice0 (String.length s - String.length rest) s)
  | None => None
  end.

(** All matches from left to right, as the [g] flag collects them; [skip]
    code units are still covered by the previous match. *)
Fixpoint scan (r : regex) (prev : option ascii) (s : string) (skip : nat)
  : list string :=
  match skip, s with
  | S skip', String c s' => scan r (Some c) s' skip'
  | S _, EmptyString => []
  | O, String c s' =>
      match exec_at r prev s with
      | Some m => m :: scan r (Some c) s' (String.length m - 1)
      | None => scan r (Some c) s' 0
      end
  | O, EmptyString =>
      match exec_at r prev s with
      | Some m => [m]
      | None => []
      end
  end.

(** [s.match(r)] for a regex with the [g] flag: [null] or the matches. *)
Definition match_g (r : regex) (s : string) : option (list string) :=
  match scan r None s 0 with
  | [] => None
  | ms => Some ms
  end.

(** [r.test(s)] *)
Definition test (r : regex) (s : string) : bool :=
  match scan r None s 0 with
  | [] => false
  | _ => true
  end.

End Regex.
Import Regex.

(* ================================================================== *)
(** * KeywordLexicon ([useTextAnalysis.ts], lines 5-39) *)

Definition PROMISE_KEYWORDS : list string :=
  [ "promise"; "will pay"; "commit"; "guarantee"; "agree to pay"; "i'll pay";
    "going to pay"; "can pay";
    "naahidi"; "nitakulipa"; "nitalipa"; "nitafanya"; "nakubali kulipa";
    "nitaweza kulipa"; "naweza kulipa" ].

Definition OBJECTION_KEYWORDS : list string :=
  [ "can't afford"; "don't have"; "lost job"; "unemployed"; "medical";
    "hospital"; "sick"; "hardship"; "difficult"; "dispute"; "not my debt";
    "wrong";
    "sina pesa"; "siwezi"; "nimefukuzwa kazi"; "sina kazi"; "mgonjwa";
    "hospitali"; "ugumu"; "siyo deni langu"; "si yangu"; "nimeshindwa" ].

Definition AGREEMENT_KEYWORDS : list string :=
  [ "agree"; "deal"; "accept"; "okay"; "fine"; "will do"; "sounds good";
    "let's do"; "payment plan";
    "sawa"; "nakubali"; "ndiyo"; "tutafanya"; "mpango wa malipo";
    "nimekubali"; "ni sawa" ].

Definition POSITIVE_KEYWORDS : list string :=
  [ "thank"; "appreciate"; "helpful"; "understand"; "great"; "good";
    "excellent"; "wonderful"; "happy";
    "asante"; "nashukuru"; "nzuri"; "vizuri"; "naelewa"; "furaha"; "bora" ].

Definition NEGATIVE_KEYWORDS : list string :=
  [ "angry"; "frustrated"; "upset"; "unfair"; "ridiculous"; "terrible";
    "hate"; "worst"; "awful";
    "hasira"; "sijaelewa"; "mbaya"; "dhuluma"; "sichuki"; "chuki";
    "vibaya sana" ].

(** [/(?:KES|Ksh|Kshs?)[\s]*[\d,]+(?:\.\d{2})?|\b\d+(?:,\d{3})*(?:\.\d{2})?\s*(?:shillings?|bob)/gi] *)
Definition AMOUNT_REGEX : regex :=
  Alt
    (seqs [ alts [ lit_ci "KES"; lit_ci "Ksh";
                   Seq (lit_ci "Ksh") (Opt (chr_ci "s")) ];
            Star space;
            Plus (Chr (fun c => (is_digit c || Ascii.eqb c ",")%bool));
            Opt (seqs [ chr "."; digit; digit ]) ])
    (seqs [ WordB;
            Plus digit;
            Star (seqs [ chr ","; digit; digit; digit ]);
            Opt (seqs [ chr "."; digit; digit ]);
            Star space;
            alts [ Seq (lit_ci "shilling") (Opt (chr_ci "s"));
                   lit_ci "bob" ] ]).

(** [/(?:by|on|before|after)\s+(?:the\s+)?(\d{1,2}(?:st|nd|rd|th)?|\w+)\s*(?:of\s+)?(\w+)?/gi] *)
Definition DATE_REGEX : regex :=
  seqs [ alts [ lit_ci "by"; lit_ci "on"; lit_ci "before"; lit_ci "after" ];
         Plus space;
         Opt (Seq (lit_ci "the") (Plus space));
         Alt (seqs [ digit; Opt digit;
                     Opt (alts [ lit_ci "st"; lit_ci "nd"; lit_ci "rd";
                                 lit_ci "th" ]) ])
             (Plus word);
         Star space;
         Opt (Seq (lit_ci "of") (Plus space));
         Opt (Plus word) ].

(** The class [[KES|Ksh|Kshs|,\s]] under the [i] flag, used to strip a match
    before [parseFloat]. *)
Definition in_strip_class (c : ascii) : bool :=
  (existsb (Ascii.eqb (lower_char c)) [ "k"; "e"; "s"; "h"; "|"; "," ]%char
   || is_space c)%bool.

(* ================================================================== *)
(** * Numbers, identifiers and the clock *)

(** A JavaScript number: an IEEE 754 double. *)
Definition number : Type := float.

Definition NaN : number := PrimFloat.nan.

(** [a + b] *)
Definition number_add (a b : number) : number := PrimFloat.add a b.

(** [n > 0] *)
Definition number_pos (n : number) : bool := PrimFloat.ltb 0%float n.

(** Truthiness of a number: [NaN], [0] and [-0] are falsy. *)
Definition number_truthy (n : number) : bool :=
  negb (PrimFloat.is_nan n || PrimFloat.eqb n 0%float).

(** [x || 0] for an optional number. *)
Definition or_zero (x : option number) : number :=
  match x with
  | Some n => if number_truthy n then n else 0%float
  | None => 0%float
  end.

Fixpoint span_digits (s : string) : list ascii * string :=
  match s with
  | String c s' =>
      if is_digit c
      then let (ds, rest) := span_digits s' in (c :: ds, rest)
      else ([], s)
  | EmptyString => ([], s)
  end.

Definition digit_value (c : ascii) : Z := (Z.of_N (code c) - 48)%Z.

Definition digits_value (ds : list ascii) : Z :=
  fold_left (fun acc c => 10 * acc + digit_value c)%Z ds 0%Z.

(** The double nearest to [numerator / 10 ^ fractionDigits] (ties to even):
    the value a decimal literal denotes. *)
Definition decimalToNumber (numerator : Z) (fractionDigits : nat) : number :=
  match numerator with
  | Zpos m =>
      SF2Prim (SFdiv prec emax
                 (S754_finite false m 0)
                 (S754_finite false (Z.to_pos (10 ^ Z.of_nat fractionDigits)) 0))
  | _ => 0%float
  end.

(** [parseFloat] on an unsigned decimal prefix (digits, then optionally a dot
    and digits); [NaN] when the prefix has no digit.  The strings it is given
    here are matches of [AMOUNT_REGEX] stripped of letters, commas and blanks,
    which carry neither sign nor exponent. *)
Definition parseFloat (s : string) : number :=
  let (ip, rest) := span_digits s in
  let fd := match rest with
            | String "." rest' => fst (span_digits rest')
            | _ => []
            end in
  match ip, fd with
  | [], [] => NaN
  | _, _ => decimalToNumber (digits_value (ip ++ fd)) (List.length fd)
  end.

Inductive uuid : Type := Uuid (n : nat).

(** What [uuidv4()] and the clock read. *)
Record World : Type := mkWorld { next_uuid : nat; clock : Z }.

Definition M (A : Type) : Type := World -> A * World.

Definition ret {A} (a : A) : M A := fun w => (a, w).

Definition bind {A B} (m : M A) (f : A -> M B) : M B :=
  fun w => let (a, w') := m w in f a w'.

Notation "x <- m ;; k" := (bind m (fun x => k))
  (at level 61, m at next level, right associativity).

Definition uuidv4 : M uuid :=
  fun w => (Uuid (next_uuid w), mkWorld (S (next_uuid w)) (clock w)).

(** [Date.now()] and [new Date()] *)
Definition Date_now : M Z := fun w => (clock w, w).

(* ================================================================== *)
(** * Data model ([types/index.ts]) *)

Inductive Sentiment : Type := positive | neutral | negative.

Inductive Speaker : Type := agent | customer_speaker | user.

Inductive ObjectionType : Type :=
| financial_hardship | job_loss | medical | dispute | other_objection.

Inductive Severity : Type := low | medium | high.

Inductive AgreementType : Type :=
| payment_plan | settlement | callback | documentation | other_agreement.

Inductive CallStatus : Type := active | completed | cancelled.

Module Customer.
Record t : Type := mk
  { name : string; phone : string; accountNumber : string;
    debtAmount : number }.
End Customer.

Module TranscriptEntry.
Record t : Type := mk
  { id : uuid; speaker : Speaker; text : string; timestamp : Z;
    isFinal : bool }.
End TranscriptEntry.

Module Promise.
Record t : Type := mk
  { id : uuid; amount : option number; dueDate : option string;
    description : string; timestamp : Z }.
End Promise.

Module Objection.
Record t : Type := mk
  { id : uuid; type : ObjectionType; description : string;
    severity : Severity; timestamp : Z }.
End Objection.

Module Agreement.
Record t : Type := mk
  { id : uuid; type : AgreementType; details : string; timestamp : Z }.
End Agreement.

Module CallExtraction.
Record t : Type := mk
  { promises : list Promise.t;
    objections : list Objection.t;
    agreements : list Agreement.t;
    sentiment : Sentiment;
    sentimentScore : Z;
    keyQuotes : list string;
    keywords : list string }.
End CallExtraction.

(** [Partial<CallExtraction>]: every field may be absent. *)
Module PartialExtraction.
Record t : Type := mk
  { promises : option (list Promise.t);
    objections : option (list Objection.t);
    agreements : option (list Agreement.t);
    sentiment : option Sentiment;
    sentimentScore : option Z;
    keyQuotes : option (list string);
    keywords : option (list string) }.
End PartialExtraction.

Module CallSummary.
Record t : Type := mk
  { id : uuid; callId : uuid; summaryText : string;
    nextActions : list string; createdAt : Z }.
End CallSummary.

Module Call.
Record t : Type := mk
  { id : uuid;
    customer : Customer.t;
    startedAt : Z;
    endedAt : option Z;
    duration : Z;
    status : CallStatus;
    transcript : list TranscriptEntry.t;
    extraction : CallExtraction.t;
    summary : option CallSummary.t;
    isMuted : bool }.
End Call.

Module CallHistoryItem.
Record t : Type := mk
  { id : uuid;
    customer : Customer.t;
    startedAt : Z;
    endedAt : Z;
    duration : Z;
    sentiment : Sentiment;
    promisesCount : nat;
    totalPromisedAmount : number;
    summary : option string;
    fullTranscript : option string }.
End CallHistoryItem.

(* ================================================================== *)
(** * ExtractionEngine ([useTextAnalysis.ts], [analyzeText]) *)

Record AnalysisResult : Type := mkAnalysisResult
  { extraction : PartialExtraction.t; hasSignificantContent : bool }.

Definition str_truthy (s : string) : bool :=
  match s with EmptyString => false | _ => true end.

(** [amounts?.[0] ? parseFloat(amounts[0].replace(/[KES|Ksh|Kshs|,\s]/gi, '')) : undefined] *)
Definition extractedAmount (amounts : option (list string)) : option number :=
  match amounts with
  | Some (a0 :: _) =>
      if str_truthy a0
      then Some (parseFloat (filter_chars (fun c => negb (in_strip_class c)) a0))
      else None
  | _ => None
  end.

Definition hasPromise (text : string) : bool :=
  existsb (includes (toLowerCase text)) PROMISE_KEYWORDS.

(** [OBJECTION_KEYWORDS.find(kw => lowerText.includes(kw))], tested for
    truthiness. *)
Definition objectionKeyword (text : string) : option string :=
  find (includes (toLowerCase text)) OBJECTION_KEYWORDS.

Definition hasObjection (text : string) : bool :=
  match objectionKeyword text with
  | Some kw => str_truthy kw
  | None => false
  end.

Definition hasAgreement (text : string) : bool :=
  existsb (includes (toLowerCase text)) AGREEMENT_KEYWORDS.

Definition objectionClass (lowerText : string) : ObjectionType * Severity :=
  if (includes lowerText "job" || includes lowerText "unemployed")%bool
  then (job_loss, high)
  else if (includes lowerText "medical" || includes lowerText "hospital"
           || includes lowerText "sick")%bool
  then (medical, high)
  else if (includes lowerText "afford" || includes lowerText "hardship")%bool
  then (financial_hardship, medium)
  else if (includes lowerText "dispute" || includes lowerText "not my"
           || includes lowerText "wrong")%bool
  then (dispute, high)
  else (other_objection, medium).

Definition agreementClass (lowerText : string) : AgreementType :=
  if (includes lowerText "payment plan" || includes lowerText "monthly")%bool
  then payment_plan
  else if (includes lowerText "settle" || includes lowerText "settlement")%bool
  then settlement
  else if (includes lowerText "call" || includes lowerText "callback")%bool
  then callback
  else other_agreement.

(** [KEYWORDS.filter(kw => lower.includes(kw)).length] *)
Definition hits (kws : list string) (lower : string) : Z :=
  Z.of_nat (List.length (filter (includes lower) kws)).

Definition totalPositive (text fullTranscript : string) : Z :=
  hits POSITIVE_KEYWORDS (toLowerCase text)
  + hits POSITIVE_KEYWORDS (toLowerCase fullTranscript).

Definition totalNegative (text fullTranscript : string) : Z :=
  hits NEGATIVE_KEYWORDS (toLowerCase text)
  + hits NEGATIVE_KEYWORDS (toLowerCase fullTranscript).

Definition sentimentOf (tp tn : Z) : Sentiment * Z :=
  if (tp >? tn + 1)%Z then (positive, Z.min 95 (50 + (tp - tn) * 15))
  else if (tn >? tp + 1)%Z then (negative, Z.max 5 (50 - (tn - tp) * 15))
  else if ((tp >? 0) || (tn >? 0))%bool%Z then (neutral, 50 + (tp - tn) * 10)%Z
  else (neutral, 50%Z).

Definition analyzeText (text fullTranscript : string) : M AnalysisResult :=
  let lowerText := toLowerCase text in
  let hasSignificantContent := false in
  let amounts := match_g AMOUNT_REGEX text in
  promises <-
    (if hasPromise text then
       id <- uuidv4 ;;
       now <- Date_now ;;
       let dueDate := match match_g DATE_REGEX text with
                      | Some (d :: _) => Some d
                      | _ => None
                      end in
       ret (Some [ Promise.mk id (extractedAmount amounts) dueDate
                              (slice0 100 text) now ])
     else ret None) ;;
  let hasSignificantContent :=
    if hasPromise text then true else hasSignificantContent in
  objections <-
    (if hasObjection text then
       let (type, severity) := objectionClass lowerText in
       id <- uuidv4 ;;
       now <- Date_now ;;
       ret (Some [ Objection.mk id type (slice0 100 text) severity now ])
     else ret None) ;;
  let hasSignificantContent :=
    if hasObjection text then true else hasSignificantContent in
  let agreed := (hasAgreement text && (20 <? String.length text)%nat)%bool in
  agreements <-
    (if agreed then
       id <- uuidv4 ;;
       now <- Date_now ;;
       ret (Some [ Agreement.mk id (agreementClass lowerText)
                                (slice0 100 text) now ])
     else ret None) ;;
  let hasSignificantContent :=
    if agreed then true else hasSignificantContent in
  let (sentiment, sentimentScore) :=
    sentimentOf (totalPositive text fullTranscript)
                (totalNegative text fullTranscript) in
  let keywords := match amounts with Some ms => ms | None => [] end in
  let keyQuotes :=
    if ((30 <? String.length text)%nat
        && (hasPromise text || hasAgreement text
            || hasSignificantContent))%bool
    then Some [ slice0 150 text ] else None in
  ret (mkAnalysisResult
         (PartialExtraction.mk promises objections agreements
            (Some sentiment) (Some sentimentScore) keyQuotes (Some keywords))
         hasSignificantContent).

(* ================================================================== *)
(** * Host formatting

    [Number.prototype.toLocaleString()] follows the locale of the browser and
    [Intl.NumberFormat('en-KE').format] the ICU tables; both are services of
    the host, used only to render summary sentences. *)

Class Host : Type :=
  { toLocaleString : number -> string;
    formatKE : number -> string }.

(** First occurrences in order, as [[...new Set(xs)]] lists them. *)
Definition uniq_step (acc : list string) (x : string) : list string :=
  if existsb (String.eqb x) acc then acc else acc ++ [x].

Definition uniq (xs : list string) : list string := fold_left uniq_step xs [].

Definition objectionTypeName (t : ObjectionType) : string :=
  match t with
  | financial_hardship => "financial_hardship"
  | job_loss => "job_loss"
  | medical => "medical"
  | dispute => "dispute"
  | other_objection => "other"
  end.

Definition agreementTypeName (t : AgreementType) : string :=
  match t with
  | payment_plan => "payment_plan"
  | settlement => "settlement"
  | callback => "callback"
  | documentation => "documentation"
  | other_agreement => "other"
  end.

Definition sentimentName (s : Sentiment) : string :=
  match s with
  | positive => "positive" | neutral => "neutral" | negative => "negative"
  end.

Definition objection_is (t : ObjectionType) (o : Objection.t) : bool :=
  String.eqb (objectionTypeName (Objection.type o)) (objectionTypeName t).

Definition agreement_is (t : AgreementType) (a : Agreement.t) : bool :=
  String.eqb (agreementTypeName (Agreement.type a)) (agreementTypeName t).

(** [promises.reduce((sum, p) => sum + (p.amount || 0), 0)] *)
Definition totalAmount (promises : list Promise.t) : number :=
  fold_left (fun sum p => number_add sum (or_zero (Promise.amount p)))
            promises 0%float.

(** [transcript.map(t => t.text).join(' ')] *)
Definition transcriptText (entries : list TranscriptEntry.t) : string :=
  join " " (map TranscriptEntry.text entries).

(* ================================================================== *)
(** * SessionState ([callStore.ts]) *)

Inductive Theme : Type := light | dark.

Record CallState : Type := mkCallState
  { currentCall : option Call.t;
    callHistory : list CallHistoryItem.t;
    theme : Theme }.

Definition initialExtraction : CallExtraction.t :=
  CallExtraction.mk [] [] [] neutral 50 [] [].

Definition initialState : CallState := mkCallState None [] light.

Definition set_currentCall (c : option Call.t) (s : CallState) : CallState :=
  mkCallState c (callHistory s) (theme s).

Definition startCall (customer : Customer.t) (s : CallState) : M CallState :=
  id <- uuidv4 ;;
  now <- Date_now ;;
  let newCall :=
    Call.mk id customer now None 0 active [] initialExtraction None false in
  ret (set_currentCall (Some newCall) s).

Definition formatDuration (seconds : Z) : string :=
  let mins := (seconds / 60)%Z in
  let secs := Z.rem seconds 60 in
  if (mins =? 0)%Z then of_Z secs +++ " seconds"
  else of_Z mins +++ " minute" +++ (if (mins >? 1)%Z then "s" else "") +++ " "
       +++ of_Z secs +++ " second" +++ (if (secs =? 1)%Z then "" else "s").

Definition opt_truthy (o : option string) : bool :=
  match o with Some x => str_truthy x | None => false end.

Section WithHost.
Context `{Host}.

Definition generateContextAwareNextActions (call : Call.t) : list string :=
  let extraction := Call.extraction call in
  let customer := Call.customer call in
  let fullTranscript := toLowerCase (transcriptText (Call.transcript call)) in
  let actions : list string := [] in
  let actions :=
    match CallExtraction.promises extraction with
    | [] => actions
    | promise :: _ =>
        let total := totalAmount (CallExtraction.promises extraction) in
        let actions :=
          if number_pos total
          then actions ++ [ "Monitor payment of KES " +++ formatKE total
                            +++ " from " +++ Customer.name customer ]
          else actions in
        match Promise.dueDate promise with
        | Some d =>
            if str_truthy d
            then actions ++ [ "Set reminder for payment due " +++ d ]
            else actions ++ [ "Confirm payment date with customer via SMS" ]
        | None => actions ++ [ "Confirm payment date with customer via SMS" ]
        end
    end in
  let actions :=
    if (includes fullTranscript "m-pesa" || includes fullTranscript "mpesa")%bool
    then actions ++ [ "Verify M-Pesa payment receipt upon receiving" ]
    else actions in
  let actions :=
    if (existsb (agreement_is payment_plan) (CallExtraction.agreements extraction)
        || includes fullTranscript "payment plan"
        || includes fullTranscript "installment")%bool
    then actions ++ [ "Prepare payment plan documentation and send to customer" ]
    else actions in
  let actions :=
    if (existsb (agreement_is callback) (CallExtraction.agreements extraction)
        || includes fullTranscript "call back"
        || includes fullTranscript "call me")%bool
    then actions ++ [ "Schedule follow-up call as agreed with customer" ]
    else actions in
  let actions :=
    if existsb (fun o => (objection_is job_loss o
                          || objection_is financial_hardship o)%bool)
               (CallExtraction.objections extraction)
    then actions ++ [ "Review account for hardship assistance options";
                      "Send information about flexible payment programs" ]
    else actions in
  let actions :=
    if existsb (objection_is medical) (CallExtraction.objections extraction)
    then actions ++ [ "Flag account for medical hardship review" ]
    else actions in
  let actions :=
    if existsb (objection_is dispute) (CallExtraction.objections extraction)
    then actions ++ [ "Escalate account dispute to supervisor for investigation";
                      "Send account statement and transaction history to customer" ]
    else actions in
  let actions :=
    if (includes fullTranscript "statement"
        || includes fullTranscript "document")%bool
    then actions ++ [ "Email account statement to customer" ]
    else actions in
  let actions :=
    match CallExtraction.sentiment extraction with
    | negative =>
        actions ++ [ "Consider supervisor follow-up call to address concerns" ]
    | _ => actions
    end in
  let actions :=
    match actions with
    | [] =>
        if (50 <? String.length fullTranscript)%nat
        then [ "Follow up with " +++ Customer.name customer +++ " within 7 days";
               "Send account reminder via SMS" ]
        else [ "Attempt callback - conversation was brief";
               "Review account for alternative contact methods" ]
    | _ => actions
    end in
  firstn 5 actions.

Definition generateBasicCallSummary (call : Call.t)
           (customSummary : option string) : M CallSummary.t :=
  let customer := Call.customer call in
  let extraction := Call.extraction call in
  let promises := CallExtraction.promises extraction in
  let objections := CallExtraction.objections extraction in
  let agreements := CallExtraction.agreements extraction in
  let defaultParts : list string :=
    let parts :=
      [ "Call with " +++ Customer.name customer +++ " (Account: "
        +++ Customer.accountNumber customer +++ ") lasted "
        +++ formatDuration (Call.duration call) +++ "." ] in
    let sentimentText :=
      match CallExtraction.sentiment extraction with
      | positive => "The conversation was cooperative and constructive"
      | neutral => "The conversation maintained a neutral tone"
      | negative => "The conversation included some concerns or resistance"
      end in
    let parts := parts ++ [ sentimentText +++ "." ] in
    let parts :=
      match objections with
      | [] => parts
      | _ =>
          let objectionTypes :=
            join ", " (uniq (map (fun o =>
                replace_first "_" " " (objectionTypeName (Objection.type o)))
              objections)) in
          parts ++ [ "Issues raised: " +++ objectionTypes +++ "." ]
      end in
    let parts :=
      match promises with
      | [] => parts
      | _ =>
          let total := totalAmount promises in
          if number_pos total
          then parts ++ [ "Payment commitment: KES " +++ formatKE total +++ "." ]
          else parts
      end in
    match agreements with
    | [] => parts
    | _ =>
        let agreementTypes :=
          join ", " (uniq (map (fun a =>
              replace_first "_" " " (agreementTypeName (Agreement.type a)))
            agreements)) in
        parts ++ [ "Agreements: " +++ agreementTypes +++ "." ]
    end in
  let summaryParts :=
    match customSummary with
    | Some custom => if str_truthy custom then [ custom ] else defaultParts
    | None => defaultParts
    end in
  let nextActions := generateContextAwareNextActions call in
  id <- uuidv4 ;;
  now <- Date_now ;;
  ret (CallSummary.mk id (Call.id call) (join " " summaryParts)
                      nextActions now).

Definition with_ended (c : Call.t) (now : Z) (summary : option CallSummary.t)
  : Call.t :=
  Call.mk (Call.id c) (Call.customer c) (Call.startedAt c) (Some now)
          (Call.duration c) completed (Call.transcript c)
          (Call.extraction c) summary (Call.isMuted c).

Definition historyItem (endedCall : Call.t) (endedAt : Z)
           (summaryText fullTranscript : string) : CallHistoryItem.t :=
  CallHistoryItem.mk
    (Call.id endedCall) (Call.customer endedCall)
    (Call.startedAt endedCall) endedAt (Call.duration endedCall)
    (CallExtraction.sentiment (Call.extraction endedCall))
    (List.length (CallExtraction.promises (Call.extraction endedCall)))
    (totalAmount (CallExtraction.promises (Call.extraction endedCall)))
    (Some summaryText) (Some fullTranscript).

(** [endCall(summaryText?)] *)
Definition endCall (summaryText : option string) (s : CallState)
  : M CallState :=
  match currentCall s with
  | None => ret s
  | Some currentCall =>
      now <- Date_now ;;
      let endedCall := with_ended currentCall now (Call.summary currentCall) in
      summary <- generateBasicCallSummary endedCall summaryText ;;
      let endedCall := with_ended currentCall now (Some summary) in
      let fullTranscript := transcriptText (Call.transcript endedCall) in
      let item := historyItem endedCall now
                    (CallSummary.summaryText summary) fullTranscript in
      ret (mkCallState (Some endedCall) (item :: callHistory s) (theme s))
  end.

(** [cancelCall()] *)
Definition cancelCall (s : CallState) : CallState :=
  set_currentCall None s.

(** [addTranscriptEntry(entry)], [entry] coming without its [id]. *)
Definition addTranscriptEntry (speaker : Speaker) (text : string)
           (timestamp : Z) (isFinal : bool) (s : CallState) : M CallState :=
  match currentCall s with
  | Some c =>
      id <- uuidv4 ;;
      let entry := TranscriptEntry.mk id speaker text timestamp isFinal in
      ret (set_currentCall
             (Some (Call.mk (Call.id c) (Call.customer c) (Call.startedAt c)
                      (Call.endedAt c) (Call.duration c) (Call.status c)
                      (Call.transcript c ++ [ entry ]) (Call.extraction c)
                      (Call.summary c) (Call.isMuted c))) s)
  | None => ret (set_currentCall None s)
  end.

Definition set_extraction (e : CallExtraction.t) (c : Call.t) : Call.t :=
  Call.mk (Call.id c) (Call.customer c) (Call.startedAt c) (Call.endedAt c)
          (Call.duration c) (Call.status c) (Call.transcript c) e
          (Call.summary c) (Call.isMuted c).

(** The merge inside [updateExtraction]. *)
Definition mergeExtraction (currentExtraction : CallExtraction.t)
           (extraction : PartialExtraction.t) : CallExtraction.t :=
  CallExtraction.mk
    (match PartialExtraction.promises extraction with
     | Some ps => CallExtraction.promises currentExtraction ++ ps
     | None => CallExtraction.promises currentExtraction
     end)
    (match PartialExtraction.objections extraction with
     | Some os => CallExtraction.objections currentExtraction ++ os
     | None => CallExtraction.objections currentExtraction
     end)
    (match PartialExtraction.agreements extraction with
     | Some ags => CallExtraction.agreements currentExtraction ++ ags
     | None => CallExtraction.agreements currentExtraction
     end)
    (match PartialExtraction.sentiment extraction with
     | Some x => x
     | None => CallExtraction.sentiment currentExtraction
     end)
    (match PartialExtraction.sentimentScore extraction with
     | Some x => x
     | None => CallExtraction.sentimentScore currentExtraction
     end)
    (match PartialExtraction.keyQuotes extraction with
     | Some qs => CallExtraction.keyQuotes currentExtraction ++ qs
     | None => CallExtraction.keyQuotes currentExtraction
     end)
    (match PartialExtraction.keywords extraction with
     | Some ks => uniq (CallExtraction.keywords currentExtraction ++ ks)
     | None => CallExtraction.keywords currentExtraction
     end).

(** [updateExtraction(extraction)] *)
Definition updateExtraction (extraction : PartialExtraction.t)
           (s : CallState) : CallState :=
  match currentCall s with
  | None => s
  | Some c =>
      set_currentCall
        (Some (set_extraction (mergeExtraction (Call.extraction c) extraction) c))
        s
  end.

(** [updateCallDuration(duration)] *)
Definition updateCallDuration (duration : Z) (s : CallState) : CallState :=
  match currentCall s with
  | Some c =>
      set_currentCall
        (Some (Call.mk (Call.id c) (Call.customer c) (Call.startedAt c)
                 (Call.endedAt c) duration (Call.status c)
                 (Call.transcript c) (Call.extraction c) (Call.summary c)
                 (Call.isMuted c))) s
  | None => set_currentCall None s
  end.

(** [clearHistory()] *)
Definition clearHistory (s : CallState) : CallState :=
  mkCallState (currentCall s) [] (theme s).

(* ---------------------------------------------------------------- *)
(** ** SummaryOrchestrator ([geminiService.ts], [generateAISummary]) *)

Record ExistingExtractions : Type := mkExisting
  { ex_promises : list Promise.t;
    ex_objections : list Objection.t;
    ex_agreements : list Agreement.t;
    ex_sentiment : Sentiment }.

Record SummaryResult : Type := mkSummaryResult
  { summary : string; nextActions : list string }.

(** What comes back from [callGeminiAPI] once [cleanJsonResponse], the
    search for a JSON object and [JSON.parse] have run: either that chain
    threw, or an object whose two fields may be missing. *)
Inductive SummaryReply : Type :=
| SummaryThrew
| SummaryParsed (summary : option string) (nextActions : option (list string)).

Definition generateFallbackNextActions (customerName : string)
           (debtAmount : number) (extractions : ExistingExtractions)
  : list string :=
  let actions : list string := [] in
  let actions :=
    match ex_promises extractions with
    | [] => actions
    | promise :: _ =>
        let actions :=
          match Promise.amount promise with
          | Some a =>
              if number_truthy a
              then actions ++ [ "Monitor KES " +++ toLocaleString a
                                +++ " payment from " +++ customerName ]
              else actions ++ [ "Follow up on payment commitment from "
                                +++ customerName ]
          | None => actions ++ [ "Follow up on payment commitment from "
                                 +++ customerName ]
          end in
        actions ++ [ "Send M-Pesa payment details via SMS" ]
    end in
  let actions :=
    if existsb (fun o => (objection_is financial_hardship o
                          || objection_is job_loss o)%bool)
               (ex_objections extractions)
    then actions ++ [ "Review account for hardship assistance program eligibility" ]
    else actions in
  let actions :=
    if existsb (objection_is dispute) (ex_objections extractions)
    then actions ++ [ "Escalate account dispute to supervisor for investigation" ]
    else actions in
  let actions :=
    if existsb (agreement_is payment_plan) (ex_agreements extractions)
    then actions ++ [ "Prepare payment plan documentation and send to customer" ]
    else actions in
  let actions :=
    if existsb (agreement_is callback) (ex_agreements extractions)
    then actions ++ [ "Schedule callback as agreed with customer" ]
    else actions in
  let actions :=
    match ex_sentiment extractions with
    | negative =>
        actions ++ [ "Consider assigning senior agent for follow-up due to customer concerns" ]
    | _ => actions
    end in
  let actions :=
    match actions with
    | [] =>
        [ "Schedule follow-up call with " +++ customerName
          +++ " within 5 business days";
          "Send account statement showing KES " +++ toLocaleString debtAmount
          +++ " balance" ]
    | _ => actions
    end in
  firstn 5 actions.

Definition generateFallbackSummary (customerName : string)
           (debtAmount : number) (_transcript : string)
           (extractions : ExistingExtractions) : SummaryResult :=
  let parts :=
    [ "Call with " +++ customerName
      +++ " regarding outstanding balance of KES "
      +++ toLocaleString debtAmount +++ "." ] in
  let parts :=
    match ex_promises extractions, ex_objections extractions with
    | _ :: _, _ =>
        let total := totalAmount (ex_promises extractions) in
        if number_pos total
        then parts ++ [ "Customer committed to pay KES "
                        +++ toLocaleString total +++ "." ]
        else parts ++ [ "Customer indicated willingness to make payment." ]
    | [], _ :: _ =>
        let types := filter str_truthy
                       (map (fun o => objectionTypeName (Objection.type o))
                            (ex_objections extractions)) in
        if existsb (String.eqb "financial_hardship") types
        then parts ++ [ "Customer expressed financial difficulties and may need flexible payment options." ]
        else if existsb (String.eqb "job_loss") types
        then parts ++ [ "Customer mentioned job loss situation." ]
        else if existsb (String.eqb "dispute") types
        then parts ++ [ "Customer disputed the debt and requested verification." ]
        else parts
    | [], [] =>
        parts ++ [ "Discussion focused on account status and payment options." ]
    end in
  let sentimentText :=
    match ex_sentiment extractions with
    | positive => "Call ended on a positive note with good cooperation."
    | neutral => "Customer remained neutral throughout the conversation."
    | negative => "Customer expressed concerns that may need follow-up."
    end in
  let parts := parts ++ [ sentimentText ] in
  mkSummaryResult (join " " (filter str_truthy parts))
    (generateFallbackNextActions customerName debtAmount extractions).

(** [generateAISummary]: the result, and whether the remote request was
    issued.  The prompt only travels to the remote model, whose answer is
    the argument [reply]. *)
Definition generateAISummary (transcript customerName : string)
           (debtAmount : number) (duration : Z)
           (existingExtractions : ExistingExtractions)
           (reply : SummaryReply) : SummaryResult * bool :=
  if (negb (str_truthy transcript) || (String.length transcript <? 10)%nat)%bool
  then (mkSummaryResult "Session completed with minimal conversation."
          [ "Schedule follow-up call"; "Review account status" ], false)
  else
    match reply with
    | SummaryParsed parsedSummary parsedActions =>
        (mkSummaryResult
           (match parsedSummary with
            | Some x => if str_truthy x then x else "Call completed."
            | None => "Call completed."
            end)
           (match parsedActions with
            | Some acts => acts
            | None => generateFallbackNextActions customerName debtAmount
                        existingExtractions
            end), true)
    | SummaryThrew =>
        (generateFallbackSummary customerName debtAmount transcript
           existingExtractions, true)
    end.

(** [endCallWithAI()].  The function suspends only while the remote request
    is outstanding; [meanwhile] is what other events did to the store and
    to the world in that time.  [generateAISummary] absorbs every failure of the request, so
    the [catch] of the source, which would call [endCall()], is never
    entered. *)
Definition endCallWithAI (reply : SummaryReply)
           (meanwhile : CallState -> M CallState) (s : CallState)
  : M (CallState * bool) :=
  match currentCall s with
  | None => ret (s, false)
  | Some currentCall =>
      now <- Date_now ;;
      let endedCall := with_ended currentCall now (Call.summary currentCall) in
      let fullTranscript := transcriptText (Call.transcript endedCall) in
      let (aiResult, requested) :=
        generateAISummary fullTranscript
          (Customer.name (Call.customer endedCall))
          (Customer.debtAmount (Call.customer endedCall))
          (Call.duration endedCall)
          (mkExisting
             (CallExtraction.promises (Call.extraction endedCall))
             (CallExtraction.objections (Call.extraction endedCall))
             (CallExtraction.agreements (Call.extraction endedCall))
             (CallExtraction.sentiment (Call.extraction endedCall)))
          reply in
      state <- (if requested then meanwhile s else ret s) ;;
      id <- uuidv4 ;;
      createdAt <- Date_now ;;
      let summary := CallSummary.mk id (Call.id endedCall) (summary aiResult)
                       (nextActions aiResult) createdAt in
      let endedCall := with_ended currentCall now (Some summary) in
      let item := historyItem endedCall now
                    (CallSummary.summaryText summary) fullTranscript in
      ret (mkCallState (Some endedCall) (item :: callHistory state)
                       (theme state), requested)
  end.

End WithHost.

(* ================================================================== *)
(** * CoachingGate ([geminiService.ts] and [AgentCoaching.tsx]) *)

Inductive Language : Type := en_KE | sw_KE.

Module CoachingSuggestion.
Record t : Type := mk
  { id : string;
    type : string;
    priority : string;
    title : string;
    titleSw : string;
    description : string;
    suggestedPhrases : list string;
    suggestedPhrasesSw : list string }.
End CoachingSuggestion.

(** One element of [parsed.suggestions], as the remote model wrote it. *)
Module RawSuggestion.
Record t : Type := mk
  { type : option string;
    priority : option string;
    title : option string;
    titleSw : option string;
    description : option string;
    suggestedPhrases : option (list string);
    suggestedPhrasesSw : option (list string) }.
End RawSuggestion.

Module ConversationContext.
Record t : Type := mk
  { customerName : string;
    debtAmount : number;
    transcript : string;
    lastStatement : string;
    detectedSentiment : Sentiment;
    language : Language }.
End ConversationContext.

(** The module-level cache of [geminiService.ts]. *)
Record Cache : Type := mkCache
  { lastAnalyzedLength : Z;
    lastSuggestions : list CoachingSuggestion.t;
    isProcessing : bool }.

Definition emptyCache : Cache := mkCache 0 [] false.

(** [resetCoachingCache()] *)
Definition resetCoachingCache (_ : Cache) : Cache := emptyCache.

(** The outcome of [callGeminiAPI] followed by the parsing steps: a throw
    anywhere in that chain, or the parsed object with its [suggestions]. *)
Inductive CoachingReply : Type :=
| CoachingThrew
| CoachingParsed (suggestions : option (list RawSuggestion.t)).

Definition len (s : string) : Z := Z.of_nat (String.length s).

(** [x || d] on an optional string. *)
Definition or_str (x : option string) (d : string) : string :=
  match x with
  | Some v => if str_truthy v then v else d
  | None => d
  end.

Definition or_list (x : option (list string)) (d : list string) : list string :=
  match x with Some v => v | None => d end.

Fixpoint mapi {A B} (f : A -> nat -> B) (i : nat) (l : list A) : list B :=
  match l with
  | [] => []
  | x :: rest => f x i :: mapi f (S i) rest
  end.

Definition fromRaw (now : Z) (s : RawSuggestion.t) (index : nat)
  : CoachingSuggestion.t :=
  CoachingSuggestion.mk
    ("ai-" +++ of_Z now +++ "-" +++ of_nat index)
    (or_str (RawSuggestion.type s) "general")
    (or_str (RawSuggestion.priority s) "normal")
    (or_str (RawSuggestion.title s) "Suggestion")
    (or_str (RawSuggestion.titleSw s)
            (or_str (RawSuggestion.title s) "Pendekezo"))
    (or_str (RawSuggestion.description s) "")
    (or_list (RawSuggestion.suggestedPhrases s) [])
    (match RawSuggestion.suggestedPhrasesSw s with
     | Some v => v
     | None => or_list (RawSuggestion.suggestedPhrases s) []
     end).

Definition any_of (words : list string) : regex := alts (map lit words).

Definition getFallbackSuggestions (context : ConversationContext.t)
  : list CoachingSuggestion.t :=
  let suggestions : list CoachingSuggestion.t := [] in
  let lowerTranscript := toLowerCase (ConversationContext.transcript context) in
  let suggestions :=
    if (match ConversationContext.detectedSentiment context with
        | negative => true | _ => false end
        || test (any_of [ "angry"; "frustrated"; "upset"; "ridiculous";
                          "terrible"; "hate"; "hasira"; "chuki" ])
                lowerTranscript)%bool
    then suggestions ++
      [ CoachingSuggestion.mk "fallback-deescalate" "de_escalation" "urgent"
          "🚨 Calm the Situation" "🚨 Tuliza Hali"
          "Customer seems upset. Use calming language and acknowledge their feelings."
          [ "I completely understand your frustration, and I apologize for any inconvenience.";
            "Let me see what I can do to help resolve this for you today.";
            "Your concerns are absolutely valid. Let's work through this together." ]
          [ "Naelewa kabisa wasiwasi wako, naomba msamaha kwa usumbufu wowote.";
            "Wacha nione ninachoweza kufanya kukusaidia leo.";
            "Wasiwasi wako ni halali. Tufanye kazi pamoja." ] ]
    else suggestions in
  let suggestions :=
    if test (any_of [ "no money"; "can't afford"; "struggling"; "broke";
                      "sina pesa"; "hali ngumu"; "shida" ]) lowerTranscript
    then suggestions ++
      [ CoachingSuggestion.mk "fallback-hardship" "empathy" "important"
          "💚 Show Empathy for Hardship" "💚 Onyesha Huruma"
          "Customer mentioned financial difficulties. Offer understanding and flexible options."
          [ "I understand times are tough. We have flexible payment plans available.";
            "Would a smaller monthly payment work better for your situation?";
            "We want to help you through this difficult time." ]
          [ "Naelewa wakati ni mgumu. Tuna mipango ya malipo inayonyumbulika.";
            "Je, malipo madogo ya kila mwezi yangekufaa zaidi?";
            "Tunataka kukusaidia kupitia wakati huu mgumu." ] ]
    else suggestions in
  let suggestions :=
    if test (any_of [ "lost job"; "no job"; "fired"; "unemployed";
                      "sina kazi"; "nimefukuzwa"; "kupoteza kazi" ])
            lowerTranscript
    then suggestions ++
      [ CoachingSuggestion.mk "fallback-jobloss" "empathy" "important"
          "💼 Acknowledge Job Loss" "💼 Kubali Kupoteza Kazi"
          "Customer mentioned unemployment. Show empathy and offer hardship programs."
          [ "I'm sorry to hear about your job situation. That must be really stressful.";
            "We have a hardship program that might help. Can I tell you about it?";
            "Let's find a solution that works while you get back on your feet." ]
          [ "Pole sana kusikia kuhusu hali yako ya kazi. Lazima ni vigumu.";
            "Tuna mpango wa msaada ambao unaweza kusaidia. Nikueleze?";
            "Tupate suluhisho linaloufaa wakati unajirekebisha." ] ]
    else suggestions in
  let suggestions :=
    if test (any_of [ "will pay"; "i'll pay"; "promise"; "nitalipa";
                      "nitakulipa"; "ahadi"; "nakubali" ]) lowerTranscript
    then suggestions ++
      [ CoachingSuggestion.mk "fallback-closing" "closing" "important"
          "✅ Confirm the Commitment" "✅ Thibitisha Ahadi"
          "Customer is willing to pay. Confirm the details and secure the commitment."
          [ "Great! Just to confirm, you'll pay the amount by what date?";
            "Shall I send you the M-Pesa Paybill details right now?";
            "I'll note this commitment in your account. Thank you!" ]
          [ "Vizuri! Kwa kuthibitisha, utalipa kiasi hicho tarehe gani?";
            "Nikutumie maelezo ya M-Pesa Paybill sasa hivi?";
            "Nitaandika ahadi hii kwenye akaunti yako. Asante!" ] ]
    else suggestions in
  let suggestions :=
    if test (any_of [ "m-pesa"; "mpesa"; "lipa"; "transfer"; "paybill" ])
            lowerTranscript
    then suggestions ++
      [ CoachingSuggestion.mk "fallback-mpesa" "verification" "normal"
          "📱 Verify M-Pesa Details" "📱 Thibitisha M-Pesa"
          "M-Pesa mentioned. Ensure payment details are clear."
          [ "Our M-Pesa Paybill number is XXXXXX. Account number is your phone number.";
            "Please send the confirmation message once you've made the payment.";
            "I can wait while you make the transfer if you'd like." ]
          [ "Nambari yetu ya M-Pesa Paybill ni XXXXXX. Nambari ya akaunti ni nambari yako ya simu.";
            "Tafadhali tuma ujumbe wa kuthibitisha ukimaliza kulipa.";
            "Ninaweza kusubiri unapo fanya uhamisho." ] ]
    else suggestions in
  match suggestions with
  | [] =>
      [ CoachingSuggestion.mk "fallback-default" "rapport" "normal"
          "🤝 Build Connection" "🤝 Jenga Uhusiano"
          "Start with empathy and understand the customer's situation."
          [ "How are you doing today? I hope I'm not catching you at a bad time.";
            "I'm here to help find a solution that works for both of us.";
            "Can you tell me a bit about what's been going on?" ]
          [ "Habari yako leo? Natumai sijakupata wakati mbaya.";
            "Niko hapa kusaidia kupata suluhisho linalofaa sisi sote.";
            "Unaweza kunieleza kidogo kuhusu kinachotokea?" ] ]
  | _ => suggestions
  end.

(** [getAICoachingSuggestions], up to its [await]: either it returns at once
    ([Some]), or it has set [isProcessing] and issued the remote request
    ([None]). *)
Definition getAICoachingSuggestions_begin (context : ConversationContext.t)
           (cache : Cache) : Cache * option (list CoachingSuggestion.t) :=
  let n := len (ConversationContext.transcript context) in
  if isProcessing cache then (cache, Some (lastSuggestions cache))
  else if (n <? 15)%Z then (cache, Some [])
  else if (n - lastAnalyzedLength cache <? 60)%Z
  then (cache, Some (lastSuggestions cache))
  else (mkCache (lastAnalyzedLength cache) (lastSuggestions cache) true, None).

(** [getAICoachingSuggestions], from the answer of the remote request on. *)
Definition getAICoachingSuggestions_resume (context : ConversationContext.t)
           (reply : CoachingReply) (cache : Cache)
  : M (Cache * list CoachingSuggestion.t) :=
  let n := len (ConversationContext.transcript context) in
  match reply with
  | CoachingParsed parsed =>
      now <- Date_now ;;
      let suggestions :=
        mapi (fromRaw now) 0 (match parsed with Some l => l | None => [] end) in
      ret (mkCache n suggestions false, suggestions)
  | CoachingThrew =>
      let fallback := getFallbackSuggestions context in
      ret (mkCache n fallback false, fallback)
  end.

(** ** The component [AgentCoaching] *)

Record CoachingProps : Type := mkProps
  { isActive : bool;
    transcript : string;
    sentiment : Z;
    customerName : string;
    debtAmount : number;
    language : Language }.

(** The React state the gate uses. *)
Record CoachingView : Type := mkView
  { suggestions : list CoachingSuggestion.t;
    lastProcessedLength : Z;
    isLoading : bool }.

Definition emptyView : CoachingView := mkView [] 0 false.

Fixpoint split_on (sep : ascii -> bool) (s : string) (cur : string)
  : list string :=
  match s with
  | EmptyString => [ cur ]
  | String c s' =>
      if sep c then cur :: split_on sep s' EmptyString
      else split_on sep s' (cur +++ String c EmptyString)
  end.

Fixpoint trim_start (s : string) : string :=
  match s with
  | String c s' => if is_space c then trim_start s' else s
  | EmptyString => s
  end.

Fixpoint rev_string (s : string) (acc : string) : string :=
  match s with
  | EmptyString => acc
  | String c s' => rev_string s' (String c acc)
  end.

Definition trim (s : string) : string :=
  trim_start (rev_string (trim_start (rev_string s EmptyString)) EmptyString).

(** [transcript.split(/[.!?]/).filter(Boolean).pop()?.trim() || ''] *)
Definition lastStatementOf (transcript : string) : string :=
  let pieces :=
    filter str_truthy
      (split_on (fun c => existsb (Ascii.eqb c) [ "."; "!"; "?" ]%char)
                transcript EmptyString) in
  match rev pieces with
  | p :: _ => trim p
  | [] => EmptyString
  end.

Definition contextOf (p : CoachingProps) : ConversationContext.t :=
  ConversationContext.mk (customerName p) (debtAmount p) (transcript p)
    (lastStatementOf (transcript p))
    (if (10 * sentiment p <? 4)%Z then negative
     else if (10 * sentiment p >? 6)%Z then positive else neutral)
    (language p).

(** The part of [fetchSuggestions] after the [await]. *)
Definition receive (context : ConversationContext.t)
           (aiSuggestions : list CoachingSuggestion.t) (v : CoachingView)
  : CoachingView :=
  match aiSuggestions with
  | [] => mkView (suggestions v) (lastProcessedLength v) false
  | _ => mkView aiSuggestions (len (ConversationContext.transcript context)) false
  end.

(** The cache, the view and the requests that are still outstanding, each
    with the context it was issued for. *)
Record Gate : Type := mkGate
  { view : CoachingView;
    cache : Cache;
    outstanding : list ConversationContext.t }.

Definition initialGate : Gate := mkGate emptyView emptyCache [].

(** [fetchSuggestions()] up to the point where it either is finished or waits
    for the remote request; the flag tells whether a request went out. *)
Definition fetchSuggestions (p : CoachingProps) (g : Gate) : Gate * bool :=
  let n := len (transcript p) in
  if (negb (isActive p) || (n <? 20)%Z)%bool then (g, false)
  else if (n - lastProcessedLength (view g) <? 50)%Z then (g, false)
  else
    let loading := mkView (suggestions (view g))
                          (lastProcessedLength (view g)) true in
    let context := contextOf p in
    match getAICoachingSuggestions_begin context (cache g) with
    | (cache', Some aiSuggestions) =>
        (mkGate (receive context aiSuggestions loading) cache' (outstanding g),
         false)
    | (cache', None) =>
        (mkGate loading cache' (outstanding g ++ [ context ]), true)
    end.

Fixpoint remove_nth {A} (i : nat) (l : list A) : list A :=
  match i, l with
  | O, _ :: rest => rest
  | S i', x :: rest => x :: remove_nth i' rest
  | _, [] => []
  end.

(** The answer to the [i]-th outstanding request arrives. *)
Definition completeRequest (i : nat) (reply : CoachingReply) (g : Gate)
  : M Gate :=
  match nth_error (outstanding g) i with
  | None => ret g
  | Some context =>
      r <- getAICoachingSuggestions_resume context reply (cache g) ;;
      let (cache', aiSuggestions) := r in
      ret (mkGate (receive context aiSuggestions (view g)) cache'
                  (remove_nth i (outstanding g)))
  end.

(** The effect that runs when [isActive] turns false. *)
Definition sessionEnded (g : Gate) : Gate :=
  mkGate (mkView [] 0 (isLoading (view g))) (resetCoachingCache (cache g))
         (outstanding g).

Inductive GateEvent : Type :=
| Trigger (p : CoachingProps)
| Answer (i : nat) (reply : CoachingReply)
| SessionEnd.

Definition gateStep (e : GateEvent) (g : Gate) : M Gate :=
  match e with
  | Trigger p => ret (fst (fetchSuggestions p g))
  | Answer i reply => completeRequest i reply g
  | SessionEnd => ret (sessionEnded g)
  end.

Fixpoint gateRun (es : list GateEvent) (g : Gate) : M Gate :=
  match es with
  | [] => ret g
  | e :: rest => g' <- gateStep e g ;; gateRun rest g'
  end.

(* ================================================================== *)
(** * Reference definitions and sample data *)

(** The total the specification describes: the sum of the [amount] fields,
    a missing amount counting as 0, added up in the order of the list. *)
Definition spec_totalPromisedAmount (promises : list Promise.t) : number :=
  fold_left number_add
            (map (fun p => match Promise.amount p with
                           | Some a => a
                           | None => 0%float
                           end) promises)
            0%float.

(** An amount that [p.amount || 0] leaves as it is: a number that is truthy,
    or 0 itself.  ([NaN] and [-0] are turned into 0.) *)
Definition keptByOrZero (a : number) : Prop :=
  number_truthy a = true \/ a = 0%float.

Definition given {A} (o : option (list A)) : list A :=
  match o with Some l => l | None => [] end.

(** A sequence of [updateExtraction] calls, in arrival order. *)
Definition applyExtractions (partials : list PartialExtraction.t)
           (s : CallState) : CallState :=
  fold_left (fun s partial => updateExtraction partial s) partials s.

(** A regex that cannot match the empty string, by its syntax. *)
Fixpoint consumes (r : regex) : bool :=
  match r with
  | Eps | Star _ | WordB => false
  | Chr _ => true
  | Seq r1 r2 => (consumes r1 || consumes r2)%bool
  | Alt r1 r2 => (consumes r1 && consumes r2)%bool
  end.

Definition toll (r : regex) : nat := if consumes r then 1 else 0.

(** The result of [analyzeText], the world left aside. *)
Definition analysis (text fullTranscript : string) (w : World)
  : AnalysisResult := fst (analyzeText text fullTranscript w).

Definition firstDate (text : string) : option string :=
  match match_g DATE_REGEX text with
  | Some (d :: _) => Some d
  | _ => None
  end.

(** The extraction after a sequence of merges. *)
Definition mergeAll (e : CallExtraction.t) (partials : list PartialExtraction.t)
  : CallExtraction.t := fold_left mergeExtraction partials e.

(** A world to run examples in. *)
Definition sampleWorld : World := mkWorld 0 1700000000000.

Fixpoint group_rev (s : string) (k : nat) : string :=
  match s with
  | EmptyString => EmptyString
  | String c s' =>
      match k with
      | 3 => String "," (String c (group_rev s' 1))
      | _ => String c (group_rev s' (S k))
      end
  end.

(** A host to run examples in.  A finite number is rounded to thousandths
    (half away from zero) and written with groups of three digits and
    without trailing zeros in the fraction, which is what the en-KE locale
    shows for the amounts of the examples. *)
Definition thousandths (m : BinNums.positive) (e : Z) : Z :=
  if (0 <=? e)%Z
  then (Zpos m * 1000 * 2 ^ e)%Z
  else ((2 * (Zpos m * 1000) + 2 ^ (- e)) / (2 * 2 ^ (- e)))%Z.

Definition padded (width : nat) (n : Z) : string :=
  let digits := of_Z n in
  rev_string (slice0 width (rev_string digits "" +++ "000")) "".

Definition fractionOf (f : Z) : string :=
  if (f =? 0)%Z then ""
  else if (f mod 100 =? 0)%Z then "." +++ of_Z (f / 100)
  else if (f mod 10 =? 0)%Z then "." +++ padded 2 (f / 10)
  else "." +++ padded 3 f.

Definition formatGrouped (n : number) : string :=
  match Prim2SF n with
  | S754_nan => "NaN"
  | S754_infinity sign => (if sign then "-" else "") +++ "Infinity"
  | S754_zero sign => if sign then "-0" else "0"
  | S754_finite sign m e =>
      let t := thousandths m e in
      let whole := rev_string (group_rev (rev_string (of_Z (t / 1000)) "") 0) "" in
      (if sign then "-" else "") +++ whole +++ fractionOf (t mod 1000)
  end.

Definition sampleHost : Host :=
  {| toLocaleString := formatGrouped; formatKE := formatGrouped |}.

Definition alice : Customer.t :=
  Customer.mk "Alice Wanjiru" "+254700000001" "ACC-1001" 25000%float.

Definition bob : Customer.t :=
  Customer.mk "Bob Otieno" "+254700000002" "ACC-1002" 9000%float.

(** A store in which Alice's call is active and nothing was said yet. *)
Definition sampleCall : Call.t :=
  Call.mk (Uuid 0) alice 1700000000000 None 0 active [] initialExtraction
          None false.

Definition sampleActive : CallState := mkCallState (Some sampleCall) [] light.

(** The partial extractions of two chunks, analysed one after the other. *)
Definition samplePartials : list PartialExtraction.t :=
  let (r1, w1) :=
    analyzeText "I promise I will pay KES 5,000 by Friday"
                "I promise I will pay KES 5,000 by Friday" sampleWorld in
  let (r2, _) :=
    analyzeText "I can pay 2,000 bob on Monday, thank you"
                "I promise I will pay KES 5,000 by Friday I can pay 2,000 bob on Monday, thank you"
                w1 in
  [ extraction r1; extraction r2 ].

(** The list on screen is the cached one whenever the cache holds one.  The
    events of a mounted component keep this true ([coherent_gateRun]); a
    component that is mounted afresh starts from [emptyView] over whatever
    the cache holds. *)
Definition coherent (g : Gate) : Prop :=
  lastSuggestions (cache g) = [] \/
  suggestions (view g) = lastSuggestions (cache g).

Definition transcript80 : string :=
  "Hello, I am calling about your loan balance. I will pay next week, I promise you".

Definition transcript100 : string :=
  "Hello, I am calling about your loan balance. I will pay next week, I promise you. Thank you so much!".

Definition propsAt (transcript : string) : CoachingProps :=
  mkProps true transcript 50 "Alice Wanjiru" 25000%float en_KE.

(** The gate after a first fetch at 80 characters that the remote model
    failed to answer, so that the fallback list was cached and shown. *)
Definition gateAfterFirstFetch : Gate :=
  fst (gateRun [ Trigger (propsAt transcript80); Answer 0 CoachingThrew ]
               initialGate sampleWorld).

(** The partial extractions of two chunks that promise ten and twenty
    cents. *)
Definition centPartials : list PartialExtraction.t :=
  let (r1, w1) :=
    analyzeText "I will pay 0.10 bob" "I will pay 0.10 bob" sampleWorld in
  let (r2, _) :=
    analyzeText "I will pay 0.20 bob"
                "I will pay 0.10 bob I will pay 0.20 bob" w1 in
  [ extraction r1; extraction r2 ].

(** A chunk in which the amount regex matches the text [KES,] only. *)
Definition commaChunk : string := "I will pay KES, 5000 tomorrow".

(** Alice's call after [commaChunk] was said, analysed and merged. *)
Definition commaSession : CallState * World :=
  let (s1, w1) := startCall alice initialState sampleWorld in
  let (s2, w2) := addTranscriptEntry user commaChunk (clock w1) true s1 w1 in
  let (r, w3) := analyzeText commaChunk commaChunk w2 in
  (updateExtraction (extraction r) s2, w3).

(* ================================================================== *)
(** * The remaining store actions ([callStore.ts]) *)

Definition uuid_eqb (a b : uuid) : bool :=
  match a, b with Uuid x, Uuid y => Nat.eqb x y end.

(** [toggleMute()] *)
Definition toggleMute (s : CallState) : CallState :=
  match currentCall s with
  | Some c =>
      set_currentCall
        (Some (Call.mk (Call.id c) (Call.customer c) (Call.startedAt c)
                 (Call.endedAt c) (Call.duration c) (Call.status c)
                 (Call.transcript c) (Call.extraction c) (Call.summary c)
                 (negb (Call.isMuted c)))) s
  | None => set_currentCall None s
  end.

(** [updateTranscriptEntry(id, text, isFinal)] *)
Definition updateTranscriptEntry (id : uuid) (text : string) (isFinal : bool)
           (s : CallState) : CallState :=
  match currentCall s with
  | None => s
  | Some c =>
      let transcript :=
        map (fun t =>
               if uuid_eqb (TranscriptEntry.id t) id
               then TranscriptEntry.mk (TranscriptEntry.id t)
                      (TranscriptEntry.speaker t) text
                      (TranscriptEntry.timestamp t) isFinal
               else t)
            (Call.transcript c) in
      set_currentCall
        (Some (Call.mk (Call.id c) (Call.customer c) (Call.startedAt c)
                 (Call.endedAt c) (Call.duration c) (Call.status c)
                 transcript (Call.extraction c) (Call.summary c)
                 (Call.isMuted c))) s
  end.

(** [setSummary(summaryData)], the data being [callId], [summaryText] and
    [nextActions]. *)
Definition setSummary (callId : uuid) (summaryText : string)
           (nextActions : list string) (s : CallState) : M CallState :=
  match currentCall s with
  | Some c =>
      id <- uuidv4 ;;
      now <- Date_now ;;
      ret (set_currentCall
             (Some (Call.mk (Call.id c) (Call.customer c) (Call.startedAt c)
                      (Call.endedAt c) (Call.duration c) (Call.status c)
                      (Call.transcript c) (Call.extraction c)
                      (Some (CallSummary.mk id callId summaryText nextActions
                                            now))
                      (Call.isMuted c))) s)
  | None => ret (set_currentCall None s)
  end.

(** [toggleTheme()] *)
Definition toggleTheme (s : CallState) : CallState :=
  mkCallState (currentCall s) (callHistory s)
    (match theme s with light => dark | dark => light end).

(** [getCallById(id)] *)
Definition getCallById (id : uuid) (s : CallState)
  : option CallHistoryItem.t :=
  find (fun call => uuid_eqb (CallHistoryItem.id call) id) (callHistory s).

(** The actions of the store, and a store driven by a sequence of them.
    [endCallWithAI] is run here without other actions arriving while it
    waits. *)
Inductive StoreAction : Type :=
| DoStartCall (customer : Customer.t)
| DoEndCall (summaryText : option string)
| DoEndCallWithAI (reply : SummaryReply)
| DoCancelCall
| DoToggleMute
| DoAddTranscriptEntry (speaker : Speaker) (text : string) (timestamp : Z)
                       (isFinal : bool)
| DoUpdateTranscriptEntry (id : uuid) (text : string) (isFinal : bool)
| DoUpdateExtraction (extraction : PartialExtraction.t)
| DoSetSummary (callId : uuid) (summaryText : string)
               (nextActions : list string)
| DoUpdateCallDuration (duration : Z)
| DoToggleTheme
| DoClearHistory.

Definition dispatch `{Host} (a : StoreAction) (s : CallState) : M CallState :=
  match a with
  | DoStartCall customer => startCall customer s
  | DoEndCall summaryText => endCall summaryText s
  | DoEndCallWithAI reply =>
      r <- endCallWithAI reply (fun s' => ret s') s ;; ret (fst r)
  | DoCancelCall => ret (cancelCall s)
  | DoToggleMute => ret (toggleMute s)
  | DoAddTranscriptEntry speaker text timestamp isFinal =>
      addTranscriptEntry speaker text timestamp isFinal s
  | DoUpdateTranscriptEntry id text isFinal =>
      ret (updateTranscriptEntry id text isFinal s)
  | DoUpdateExtraction extraction => ret (updateExtraction extraction s)
  | DoSetSummary callId summaryText nextActions =>
      setSummary callId summaryText nextActions s
  | DoUpdateCallDuration duration => ret (updateCallDuration duration s)
  | DoToggleTheme => ret (toggleTheme s)
  | DoClearHistory => ret (clearHistory s)
  end.

Fixpoint dispatchAll `{Host} (actions : list StoreAction) (s : CallState)
  : M CallState :=
  match actions with
  | [] => ret s
  | a :: rest => s' <- dispatch a s ;; dispatchAll rest s'
  end.

Definition isEnding (a : StoreAction) : bool :=
  match a with DoEndCall _ | DoEndCallWithAI _ => true | _ => false end.

Definition isStartCall (a : StoreAction) : bool :=
  match a with DoStartCall _ => true | _ => false end.

(* ================================================================== *)
(** * The response cleaner ([geminiService.ts], [cleanJsonResponse]) *)

(** [s.endsWith(p)] *)
Definition endsWith (s p : string) : bool :=
  String.prefix (rev_string p EmptyString) (rev_string s EmptyString).

Definition fence : string := "```".

Definition cleanJsonResponse (text : string) : string :=
  let cleanText := trim text in
  let cleanText :=
    if String.prefix "```json" cleanText then slice_from 7 cleanText
    else if String.prefix fence cleanText then slice_from 3 cleanText
    else cleanText in
  let cleanText :=
    if endsWith cleanText fence
    then slice0 (String.length cleanText - 3) cleanText
    else cleanText in
  trim cleanText.

(* ================================================================== *)
(** * The handlers of [App] that feed the store

    Each handler closes over the [currentCall] of the render it was created
    in; that snapshot is the argument [rendered]. *)

Record AppView : Type := mkAppView
  { interimText : string; textInput : string }.

Definition isActiveCall (c : Call.t) : bool :=
  match Call.status c with active => true | _ => false end.

(** [extraction.sentiment], tested for truthiness. *)
Definition sentimentTruthy (e : PartialExtraction.t) : bool :=
  match PartialExtraction.sentiment e with
  | Some x => str_truthy (sentimentName x)
  | None => false
  end.

(** [handleSpeechResult(transcript, isFinal)] *)
Definition handleSpeechResult (rendered : option Call.t) (transcript : string)
           (isFinal : bool) (st : CallState * AppView)
  : M (CallState * AppView) :=
  match rendered with
  | None => ret st
  | Some currentCall =>
      if negb (isActiveCall currentCall) then ret st
      else if isFinal then
        now <- Date_now ;;
        s1 <- addTranscriptEntry user transcript now true (fst st) ;;
        let fullTranscript :=
          transcriptText (Call.transcript currentCall) +++ " " +++ transcript in
        r <- analyzeText transcript fullTranscript ;;
        let s2 :=
          if (hasSignificantContent r || sentimentTruthy (extraction r))%bool
          then updateExtraction (extraction r) s1 else s1 in
        ret (s2, mkAppView "" (textInput (snd st)))
      else ret (fst st, mkAppView transcript (textInput (snd st)))
  end.


(** The pieces [handleAudioTranscription] works through:
    [text.split(/[.!?]/).filter(line => line.trim())]. *)
Definition audioLines (text : string) : list string :=
  filter (fun line => str_truthy (trim line))
    (split_on (fun c => existsb (Ascii.eqb c) [ "."; "!"; "?" ]%char)
              text EmptyString).

(** What one timer of [handleAudioTranscription] does with its line. *)
Definition audioLineStep (text line : string) (s : CallState) : M CallState :=
  now <- Date_now ;;
  s1 <- addTranscriptEntry user (trim line) now true s ;;
  r <- analyzeText line text ;;
  ret (updateExtraction (extraction r) s1).

Fixpoint audioLineSteps (text : string) (lines : list string) (s : CallState)
  : M CallState :=
  match lines with
  | [] => ret s
  | line :: rest =>
      s' <- audioLineStep text line s ;; audioLineSteps text rest s'
  end.

(** [handleAudioTranscription(text)], its timers firing in order with
    nothing else in between. *)
Definition handleAudioTranscription (rendered : option Call.t) (text : string)
           (s : CallState) : M CallState :=
  match rendered with
  | None => ret s
  | Some _ => audioLineSteps text (audioLines text) s
  end.

(** Final speech results arriving one by one, each handled by a handler
    created in a render that has seen the store as it then is. *)
Fixpoint speechSession (chunks : list string) (st : CallState * AppView)
  : M (CallState * AppView) :=
  match chunks with
  | [] => ret st
  | chunk :: rest =>
      st' <- handleSpeechResult (currentCall (fst st)) chunk true st ;;
      speechSession rest st'
  end.



(** Single flight: the in-flight flag is set and one request is outstanding,
    or the flag is clear and none is. *)
Definition singleFlight (g : Gate) : Prop :=
  (isProcessing (cache g) = true /\ List.length (outstanding g) = 1%nat) \/
  (isProcessing (cache g) = false /\ outstanding g = []).

(** What the store keeps true of the current call and of the history: a call
    is active and not yet ended, or completed with its end time and summary;
    every archived item carries a summary text and the full transcript. *)
Definition wellFormedCall (c : Call.t) : Prop :=
  (Call.status c = active /\ Call.endedAt c = None) \/
  (Call.status c = completed /\ Call.endedAt c <> None /\
   Call.summary c <> None).

Definition wellFormedStore (s : CallState) : Prop :=
  (forall c, currentCall s = Some c -> wellFormedCall c) /\
  Forall (fun item => CallHistoryItem.summary item <> None /\
                      CallHistoryItem.fullTranscript item <> None)
         (callHistory s).

(** Trimming seen on lists of code units. *)
Fixpoint dropSpaces (l : list ascii) : list ascii :=
  match l with
  | c :: l' => if is_space c then dropSpaces l' else l
  | [] => []
  end.

Definition trimList (l : list ascii) : list ascii :=
  dropSpaces (rev (dropSpaces (rev l))).

(** The first code unit, if any, is not white space. *)
Definition headOK (l : list ascii) : Prop :=
  match l with
  | c :: _ => is_space c = false
  | [] => True
  end.

(** A string without white space at either end. *)
Definition isTrimmed (s : string) : Prop :=
  headOK (list_ascii_of_string s) /\ headOK (rev (list_ascii_of_string s)).

Definition isBlank (s : string) : Prop :=
  Forall (fun c => is_space c = true) (list_ascii_of_string s).

(** The call after one entry was appended to its transcript by the user and
    the analysis of [analysed] against [fullTranscript] was merged into its
    extraction. *)
Definition callWithEntry (c : Call.t) (entryText analysed fullTranscript : string)
           (w : World) : Call.t :=
  Call.mk (Call.id c) (Call.customer c) (Call.startedAt c)
          (Call.endedAt c) (Call.duration c) (Call.status c)
          (Call.transcript c
           ++ [ TranscriptEntry.mk (Uuid (next_uuid w)) user entryText
                                   (clock w) true ])
          (mergeExtraction (Call.extraction c)
             (extraction (analysis analysed fullTranscript
                                   (mkWorld (S (next_uuid w)) (clock w)))))
          (Call.summary c) (Call.isMuted c).

(* ================================================================== *)
(** * Properties *)

(** ** Strings and the matcher *)

Lemma slice0_length (n : nat) (s : string) :
  String.length (slice0 n s) = Nat.min n (String.length s).
Proof.
  revert s; induction n as [|n IH]; intros [|c s]; simpl; auto.
Qed.

Lemma slice0_nonempty (n : nat) (s : string) :
  (0 < n)%nat -> (0 < String.length s)%nat -> slice0 n s <> EmptyString.
Proof.
  destruct n, s; simpl; intros; try lia; discriminate.
Qed.

(** Whatever [run] answers was answered by the continuation, on a suffix that
    is shorter by at least the toll of the regex. *)
Lemma run_progress (r : regex) :
  forall prev s k out,
    run r prev s k = Some out ->
    exists prev' s',
      k prev' s' = Some out /\
      (String.length s' + toll r <= String.length s)%nat.
Proof.
  unfold toll.
  induction r as [ | p | r1 IH1 r2 IH2 | r1 IH1 r2 IH2 | r1 IH1 | ];
    intros prev s k out Hrun; simpl in Hrun.
  - exists prev, s; simpl; split; [assumption | lia].
  - destruct s as [|c s']; [discriminate|].
    destruct (p c); [|discriminate].
    exists (Some c), s'; simpl; split; [assumption | lia].
  - apply IH1 in Hrun as (p1 & s1 & Hrun & Hlen1).
    apply IH2 in Hrun as (p2 & s2 & Hk & Hlen2).
    exists p2, s2; split; [assumption|].
    simpl; destruct (consumes r1), (consumes r2); simpl in *; lia.
  - destruct (run r1 prev s k) eqn:E1.
    + injection Hrun as <-.
      apply IH1 in E1 as (p1 & s1 & Hk & Hlen).
      exists p1, s1; split; [assumption|].
      simpl; destruct (consumes r1), (consumes r2); simpl in *; lia.
    + apply IH2 in Hrun as (p2 & s2 & Hk & Hlen).
      exists p2, s2; split; [assumption|].
      simpl; destruct (consumes r1), (consumes r2); simpl in *; lia.
  - revert Hrun.
    generalize (String.length s) at 1 as fuel.
    intros fuel; revert prev s.
    induction fuel as [|fuel IHf]; intros prev s Hrun.
    + exists prev, s; simpl; split; [assumption | lia].
    + match type of Hrun with
      | match ?scrut with _ => _ end = _ => destruct scrut eqn:E1
      end.
      * injection Hrun as <-.
        apply IH1 in E1 as (p1 & s1 & Hk & Hlen).
        destruct (Nat.ltb (String.length s1) (String.length s)) eqn:Hlt;
          [|discriminate].
        apply IHf in Hk as (p2 & s2 & Hk & Hlen2).
        apply Nat.ltb_lt in Hlt.
        exists p2, s2; simpl in *; split; [assumption | lia].
      * exists prev, s; simpl; split; [assumption | lia].
  - destruct (xorb _ _); [|discriminate].
    exists prev, s; simpl; split; [assumption | lia].
Qed.

Lemma exec_at_nonempty (r : regex) (prev : option ascii) (s m : string) :
  consumes r = true -> exec_at r prev s = Some m -> m <> EmptyString.
Proof.
  unfold exec_at; intros Hc Hm.
  destruct (run r prev s _) as [rest|] eqn:Hrun; [|discriminate].
  injection Hm as <-.
  apply run_progress in Hrun as (p' & s' & Hk & Hlen).
  injection Hk as ->.
  unfold toll in Hlen; rewrite Hc in Hlen.
  apply slice0_nonempty; lia.
Qed.

Lemma scan_nonempty (r : regex) :
  consumes r = true ->
  forall s prev skip m, In m (scan r prev s skip) -> m <> EmptyString.
Proof.
  intros Hc; induction s as [|c s IH]; intros prev skip m Hin.
  - destruct skip; simpl in Hin; [|contradiction].
    destruct (exec_at r prev EmptyString) eqn:E; simpl in Hin;
      [|contradiction].
    destruct Hin as [<-|[]]; eauto using exec_at_nonempty.
  - destruct skip; simpl in Hin; [|eauto].
    destruct (exec_at r prev (String c s)) eqn:E.
    + destruct Hin as [<-|Hin]; eauto using exec_at_nonempty.
    + eauto.
Qed.

Lemma match_g_first_nonempty (r : regex) (s m : string) (ms : list string) :
  consumes r = true -> match_g r s = Some (m :: ms) -> str_truthy m = true.
Proof.
  unfold match_g; intros Hc Hm.
  assert (Hin : In m (scan r None s 0)).
  { destruct (scan r None s 0); [discriminate|].
    injection Hm as -> ->; left; reflexivity. }
  apply (scan_nonempty r Hc) in Hin.
  destruct m; [contradiction | reflexivity].
Qed.

Lemma analyzeText_promises (text fullTranscript : string) (w : World) :
  PartialExtraction.promises (extraction (analysis text fullTranscript w)) =
  if hasPromise text
  then Some [ Promise.mk (Uuid (next_uuid w))
                (extractedAmount (match_g AMOUNT_REGEX text))
                (firstDate text) (slice0 100 text) (clock w) ]
  else None.
Proof.
  unfold analysis, analyzeText, bind, ret, uuidv4, Date_now, firstDate.
  destruct (hasPromise text), (hasObjection text),
    (objectionClass (toLowerCase text)),
    (hasAgreement text && (20 <? String.length text)%nat)%bool,
    (sentimentOf _ _); reflexivity.
Qed.

Lemma analyzeText_objections (text fullTranscript : string) (w : World) :
  PartialExtraction.objections (extraction (analysis text fullTranscript w)) =
  if hasObjection text
  then Some [ Objection.mk
                (Uuid (if hasPromise text then S (next_uuid w) else next_uuid w))
                (fst (objectionClass (toLowerCase text)))
                (slice0 100 text)
                (snd (objectionClass (toLowerCase text))) (clock w) ]
  else None.
Proof.
  unfold analysis, analyzeText, bind, ret, uuidv4, Date_now.
  destruct (hasPromise text), (hasObjection text),
    (objectionClass (toLowerCase text)),
    (hasAgreement text && (20 <? String.length text)%nat)%bool,
    (sentimentOf _ _); reflexivity.
Qed.

Lemma analyzeText_significant (text fullTranscript : string) (w : World) :
  hasSignificantContent (analysis text fullTranscript w) =
  (hasPromise text || hasObjection text
   || (hasAgreement text && (20 <? String.length text)%nat))%bool.
Proof.
  unfold analysis, analyzeText, bind, ret, uuidv4, Date_now.
  destruct (hasPromise text), (hasObjection text),
    (objectionClass (toLowerCase text)),
    (hasAgreement text && (20 <? String.length text)%nat)%bool,
    (sentimentOf _ _); reflexivity.
Qed.

Lemma analyzeText_sentiment (text fullTranscript : string) (w : World) :
  let r := sentimentOf (totalPositive text fullTranscript)
                       (totalNegative text fullTranscript) in
  PartialExtraction.sentiment (extraction (analysis text fullTranscript w))
    = Some (fst r) /\
  PartialExtraction.sentimentScore (extraction (analysis text fullTranscript w))
    = Some (snd r).
Proof.
  unfold analysis, analyzeText, bind, ret, uuidv4, Date_now.
  destruct (hasPromise text), (hasObjection text),
    (objectionClass (toLowerCase text)),
    (hasAgreement text && (20 <? String.length text)%nat)%bool,
    (sentimentOf _ _); simpl; auto.
Qed.

Lemma sentimentOf_bounds (tp tn : Z) :
  (5 <= snd (sentimentOf tp tn) <= 95)%Z.
Proof.
  unfold sentimentOf.
  destruct (Z.gtb_spec tp (tn + 1)); cbn [snd]; [lia|].
  destruct (Z.gtb_spec tn (tp + 1)); cbn [snd]; [lia|].
  destruct ((tp >? 0) || (tn >? 0))%bool%Z; cbn [snd]; lia.
Qed.

Lemma hits_none (kws : list string) (lower : string) :
  (forall kw, In kw kws -> includes lower kw = false) -> hits kws lower = 0%Z.
Proof.
  unfold hits; intros Hno.
  induction kws as [|kw kws IH]; simpl; [reflexivity|].
  rewrite (Hno kw) by (left; reflexivity).
  apply IH; intros; apply Hno; right; assumption.
Qed.

Lemma slice0_prefix (n : nat) (s : string) :
  s = slice0 n s +++ slice_from n s.
Proof.
  revert s; induction n as [|n IH]; intros [|c s]; simpl; auto.
  f_equal; apply IH.
Qed.

Lemma hasPromise_iff (text : string) :
  hasPromise text = true <->
  exists kw, In kw PROMISE_KEYWORDS /\ includes (toLowerCase text) kw = true.
Proof.
  unfold hasPromise; apply existsb_exists.
Qed.

Lemma lexicon_keywords_nonempty :
  forallb str_truthy
    (PROMISE_KEYWORDS ++ OBJECTION_KEYWORDS ++ AGREEMENT_KEYWORDS
     ++ POSITIVE_KEYWORDS ++ NEGATIVE_KEYWORDS) = true.
Proof. reflexivity. Qed.

Lemma hasObjection_iff (text : string) :
  hasObjection text = true <->
  exists kw, In kw OBJECTION_KEYWORDS /\ includes (toLowerCase text) kw = true.
Proof.
  unfold hasObjection, objectionKeyword; split.
  - destruct (find _ _) as [kw|] eqn:E; [|discriminate].
    intros _; apply find_some in E; eauto.
  - intros (kw & Hin & Hinc).
    destruct (find _ _) as [kw'|] eqn:E.
    + apply find_some in E as [Hin' _].
      pose proof lexicon_keywords_nonempty as Hall.
      rewrite forallb_forall in Hall; apply Hall.
      apply in_or_app; right; apply in_or_app; left; assumption.
    + apply (find_none _ _ E) in Hin; congruence.
Qed.

(** C4. For every chunk and every full transcript, [analyzeText] returns a
    sentiment label and a score; the score lies in [5,95] (or is 50); and when
    no positive and no negative keyword occurs in the lower-cased chunk or in
    the lower-cased transcript, the score is 50 and the label is neutral. *)
Theorem C4_sentiment_score_range :
  forall (text fullTranscript : string) (w : World),
  exists (label : Sentiment) (score : Z),
    PartialExtraction.sentiment
      (extraction (analysis text fullTranscript w)) = Some label /\
    PartialExtraction.sentimentScore
      (extraction (analysis text fullTranscript w)) = Some score /\
    ((5 <= score <= 95)%Z \/ score = 50%Z) /\
    ((forall kw, In kw (POSITIVE_KEYWORDS ++ NEGATIVE_KEYWORDS) ->
        includes (toLowerCase text) kw = false /\
        includes (toLowerCase fullTranscript) kw = false) ->
     score = 50%Z /\ label = neutral).
Proof.
  intros text fullTranscript w.
  destruct (analyzeText_sentiment text fullTranscript w) as [Hl Hs].
  eexists; eexists; split; [exact Hl|]; split; [exact Hs|]; split.
  - left; apply sentimentOf_bounds.
  - intros Hzero.
    assert (Hp : totalPositive text fullTranscript = 0%Z).
    { unfold totalPositive; rewrite !hits_none; [reflexivity| |];
        intros kw Hin; apply Hzero; apply in_or_app; left; assumption. }
    assert (Hn : totalNegative text fullTranscript = 0%Z).
    { unfold totalNegative; rewrite !hits_none; [reflexivity| |];
        intros kw Hin; apply Hzero; apply in_or_app; right; assumption. }
    rewrite Hp, Hn; split; reflexivity.
Qed.

Lemma C4_sentiment_score_range_witness :
  PartialExtraction.sentimentScore
    (extraction (analysis "hello" "good morning hello" sampleWorld))
    = Some 60%Z /\
  PartialExtraction.sentimentScore
    (extraction (analysis "hello" "hello there" sampleWorld)) = Some 50%Z /\
  PartialExtraction.sentiment
    (extraction (analysis "hello" "hello there" sampleWorld)) = Some neutral.
Proof.
  split; [reflexivity|].
  destruct (C4_sentiment_score_range "hello" "hello there" sampleWorld)
    as (label & score & Hl & Hs & _ & Hzero).
  destruct Hzero as [-> ->]; [|split; assumption].
  intros kw Hin; simpl in Hin.
  repeat (destruct Hin as [<-|Hin]; [split; reflexivity|]).
  contradiction.
Defined.

(** C6. For every chunk whose lower-cased form contains a promise keyword,
    [analyzeText] returns exactly one Promise; its description is the first
    100 characters of the chunk (so at most 100 long); it carries the amount
    parsed from the first match of the amount regex when that regex matches
    (and none otherwise), the first match of the date regex as due date when
    that regex matches (and none otherwise); [hasSignificantContent] is
    true. *)
Theorem C6_promise_detection :
  forall (text fullTranscript : string) (w : World),
    (exists kw, In kw PROMISE_KEYWORDS /\
                includes (toLowerCase text) kw = true) ->
    exists p : Promise.t,
      PartialExtraction.promises
        (extraction (analysis text fullTranscript w)) = Some [ p ] /\
      Promise.description p = slice0 100 text /\
      text = Promise.description p +++ slice_from 100 text /\
      String.length (Promise.description p)
        = Nat.min 100 (String.length text) /\
      (String.length (Promise.description p) <= 100)%nat /\
      (forall m ms,
          match_g AMOUNT_REGEX text = Some (m :: ms) ->
          Promise.amount p =
          Some (parseFloat (filter_chars (fun c => negb (in_strip_class c)) m))) /\
      (match_g AMOUNT_REGEX text = None -> Promise.amount p = None) /\
      (forall d ds,
          match_g DATE_REGEX text = Some (d :: ds) ->
          Promise.dueDate p = Some d) /\
      (match_g DATE_REGEX text = None -> Promise.dueDate p = None) /\
      hasSignificantContent (analysis text fullTranscript w) = true.
Proof.
  intros text fullTranscript w Hkw.
  apply hasPromise_iff in Hkw.
  pose proof (analyzeText_promises text fullTranscript w) as Hp.
  rewrite Hkw in Hp.
  eexists; split; [exact Hp|]; cbn [Promise.description Promise.amount
                                     Promise.dueDate].
  split; [reflexivity|].
  split; [apply slice0_prefix|].
  split; [apply slice0_length|].
  split; [rewrite slice0_length; lia|].
  split.
  { intros m ms Hm; unfold extractedAmount; rewrite Hm.
    rewrite (match_g_first_nonempty AMOUNT_REGEX text m ms eq_refl Hm).
    reflexivity. }
  split; [intros Hm; unfold extractedAmount; rewrite Hm; reflexivity|].
  split; [intros d ds Hd; unfold firstDate; rewrite Hd; reflexivity|].
  split; [intros Hd; unfold firstDate; rewrite Hd; reflexivity|].
  rewrite analyzeText_significant, Hkw; reflexivity.
Qed.

Lemma C6_promise_detection_witness :
  exists p : Promise.t,
    PartialExtraction.promises
      (extraction (analysis "I promise I will pay KES 5,000 by Friday"
                            "I promise I will pay KES 5,000 by Friday"
                            sampleWorld)) = Some [ p ] /\
    Promise.description p = "I promise I will pay KES 5,000 by Friday" /\
    Promise.amount p = Some 5000%float /\
    Promise.dueDate p = Some "by Friday".
Proof.
  destruct (C6_promise_detection
              "I promise I will pay KES 5,000 by Friday"
              "I promise I will pay KES 5,000 by Friday" sampleWorld)
    as (p & Hp & Hdesc & _ & _ & _ & Hamount & _ & Hdate & _).
  - exists "promise"; split; [simpl; tauto | reflexivity].
  - exists p; split; [exact Hp|].
    split; [exact Hdesc|].
    split; [exact (Hamount "KES 5,000" [] eq_refl)|].
    exact (Hdate "by Friday" [] eq_refl).
Defined.

(** C7. For every chunk whose lower-cased form contains an objection keyword,
    [analyzeText] emits exactly one Objection, classified by the first rule
    that applies in the order job loss, medical, financial hardship, dispute,
    other; and the chunk "I lost my job and can't afford this" yields type
    job_loss with severity high. *)
Theorem C7_objection_priority :
  (forall (text fullTranscript : string) (w : World),
      (exists kw, In kw OBJECTION_KEYWORDS /\
                  includes (toLowerCase text) kw = true) ->
      let lower := toLowerCase text in
      let jobTerms :=
        (includes lower "job" || includes lower "unemployed")%bool in
      let medicalTerms :=
        (includes lower "medical" || includes lower "hospital"
         || includes lower "sick")%bool in
      let hardshipTerms :=
        (includes lower "afford" || includes lower "hardship")%bool in
      let disputeTerms :=
        (includes lower "dispute" || includes lower "not my"
         || includes lower "wrong")%bool in
      exists o : Objection.t,
        PartialExtraction.objections
          (extraction (analysis text fullTranscript w)) = Some [ o ] /\
        Objection.description o = slice0 100 text /\
        (jobTerms = true ->
         Objection.type o = job_loss /\ Objection.severity o = high) /\
        (jobTerms = false -> medicalTerms = true ->
         Objection.type o = medical /\ Objection.severity o = high) /\
        (jobTerms = false -> medicalTerms = false -> hardshipTerms = true ->
         Objection.type o = financial_hardship /\
         Objection.severity o = medium) /\
        (jobTerms = false -> medicalTerms = false -> hardshipTerms = false ->
         disputeTerms = true ->
         Objection.type o = dispute /\ Objection.severity o = high) /\
        (jobTerms = false -> medicalTerms = false -> hardshipTerms = false ->
         disputeTerms = false ->
         Objection.type o = other_objection /\
         Objection.severity o = medium) /\
        hasSignificantContent (analysis text fullTranscript w) = true)
  /\
  (forall (fullTranscript : string) (w : World),
      exists o : Objection.t,
        PartialExtraction.objections
          (extraction (analysis "I lost my job and can't afford this"
                                fullTranscript w)) = Some [ o ] /\
        Objection.type o = job_loss /\ Objection.severity o = high).
Proof.
  split.
  - intros text fullTranscript w Hkw lower jobTerms medicalTerms
           hardshipTerms disputeTerms.
    apply hasObjection_iff in Hkw.
    pose proof (analyzeText_objections text fullTranscript w) as Ho.
    rewrite Hkw in Ho.
    eexists; split; [exact Ho|].
    cbn [Objection.description Objection.type Objection.severity].
    split; [reflexivity|].
    unfold objectionClass; fold lower.
    fold jobTerms medicalTerms hardshipTerms disputeTerms.
    repeat split; intros;
      repeat match goal with H : _ = _ :> bool |- _ => rewrite H end;
      try reflexivity.
    rewrite analyzeText_significant, Hkw.
    destruct (hasPromise text); reflexivity.
  - intros fullTranscript w.
    pose proof (analyzeText_objections
                  "I lost my job and can't afford this" fullTranscript w) as Ho.
    eexists; split; [exact Ho|]; split; reflexivity.
Qed.

Lemma C7_objection_priority_witness :
  exists o : Objection.t,
    PartialExtraction.objections
      (extraction (analysis "That amount is wrong, nimefukuzwa kazi" ""
                            sampleWorld)) = Some [ o ] /\
    Objection.type o = dispute /\ Objection.severity o = high.
Proof.
  destruct (proj1 C7_objection_priority
              "That amount is wrong, nimefukuzwa kazi" "" sampleWorld)
    as (o & Ho & _ & _ & _ & _ & Hdispute & _).
  - exists "wrong"; split; [simpl; tauto | reflexivity].
  - exists o; split; [exact Ho|].
    apply Hdispute; reflexivity.
Defined.

(** ** The session store *)

(** C1 as stated fails: with Alice's call active, [startCall] for Bob does not
    fail and leaves Bob's call, not Alice's, as the current call. *)
Lemma C1_startCall_replaces_active_call :
  let (s1, w1) := startCall alice initialState sampleWorld in
  let (s2, _) := startCall bob s1 w1 in
  exists c1 c2 : Call.t,
    currentCall s1 = Some c1 /\ Call.status c1 = active /\
    currentCall s2 = Some c2 /\ Call.customer c2 = bob /\
    currentCall s2 <> currentCall s1.
Proof.
  simpl. eexists; eexists.
  repeat split; try reflexivity.
  discriminate.
Qed.

(** C1, amended. [startCall] never fails: from every store state, with or
    without an active call, it makes a fresh Call the current one, for the
    given customer, with empty extraction lists, neutral sentiment at score
    50, status active, duration 0 and an empty transcript; the history and
    the theme are untouched. *)
Theorem C1_startCall_always_starts_fresh :
  forall (customer : Customer.t) (s : CallState) (w : World),
  exists c : Call.t,
    currentCall (fst (startCall customer s w)) = Some c /\
    Call.id c = Uuid (next_uuid w) /\
    Call.customer c = customer /\
    Call.status c = active /\
    Call.duration c = 0%Z /\
    Call.transcript c = [] /\
    Call.endedAt c = None /\
    Call.summary c = None /\
    Call.extraction c = initialExtraction /\
    CallExtraction.promises (Call.extraction c) = [] /\
    CallExtraction.objections (Call.extraction c) = [] /\
    CallExtraction.agreements (Call.extraction c) = [] /\
    CallExtraction.keyQuotes (Call.extraction c) = [] /\
    CallExtraction.keywords (Call.extraction c) = [] /\
    callHistory (fst (startCall customer s w)) = callHistory s /\
    theme (fst (startCall customer s w)) = theme s.
Proof.
  intros customer s w.
  unfold startCall, bind, ret, uuidv4, Date_now; simpl.
  eexists; repeat split; reflexivity.
Qed.

(** *** Merging partial extractions *)

Lemma existsb_eqb_In (x : string) (l : list string) :
  existsb (String.eqb x) l = true <-> In x l.
Proof.
  rewrite existsb_exists; split.
  - intros (y & Hin & Heq); apply String.eqb_eq in Heq; subst; assumption.
  - intros Hin; exists x; split; [assumption | apply String.eqb_refl].
Qed.

Lemma uniq_fold_In (xs acc : list string) (x : string) :
  In x (fold_left uniq_step xs acc) <-> In x acc \/ In x xs.
Proof.
  revert acc; induction xs as [|y xs IH]; intros acc; simpl.
  - tauto.
  - rewrite IH; unfold uniq_step.
    destruct (existsb (String.eqb y) acc) eqn:E.
    + apply existsb_eqb_In in E.
      split; [tauto|]; intros [H|[<-|H]]; tauto.
    + rewrite in_app_iff; simpl; tauto.
Qed.

Lemma uniq_fold_NoDup (xs acc : list string) :
  NoDup acc -> NoDup (fold_left uniq_step xs acc).
Proof.
  revert acc; induction xs as [|y xs IH]; intros acc Hnd; simpl;
    [assumption|].
  apply IH; unfold uniq_step.
  destruct (existsb (String.eqb y) acc) eqn:E; [assumption|].
  assert (Hnot : ~ In y acc).
  { intros Hin; apply existsb_eqb_In in Hin; congruence. }
  clear E; induction acc as [|a acc IHa]; simpl.
  - constructor; [intros [] | constructor].
  - inversion Hnd as [|? ? Ha Hacc]; subst.
    constructor.
    + rewrite in_app_iff; simpl; intros [H|[H|[]]];
        [contradiction | subst; apply Hnot; left; reflexivity].
    + apply IHa; [assumption | intros H; apply Hnot; right; assumption].
Qed.

Lemma uniq_In (xs : list string) (x : string) : In x (uniq xs) <-> In x xs.
Proof.
  unfold uniq.
  rewrite uniq_fold_In; simpl; tauto.
Qed.

Lemma uniq_NoDup (xs : list string) : NoDup (uniq xs).
Proof.
  unfold uniq.
  apply uniq_fold_NoDup; constructor.
Qed.

Lemma applyExtractions_current (partials : list PartialExtraction.t) :
  forall (s : CallState) (c : Call.t),
    currentCall s = Some c ->
    applyExtractions partials s =
    set_currentCall
      (Some (set_extraction (mergeAll (Call.extraction c) partials) c)) s.
Proof.
  unfold applyExtractions, mergeAll.
  induction partials as [|p ps IH]; intros s c Hc; simpl.
  - destruct s as [cur hist th], c; simpl in *; subst; reflexivity.
  - unfold updateExtraction at 2; rewrite Hc.
    erewrite IH by reflexivity.
    destruct c; reflexivity.
Qed.

Section MergedLists.
Variable A : Type.
Variable field : CallExtraction.t -> list A.
Variable partialField : PartialExtraction.t -> option (list A).
Hypothesis merge_field :
  forall e p, field (mergeExtraction e p) = field e ++ given (partialField p).

Lemma mergeAll_concat (ps : list PartialExtraction.t) :
  forall e,
    field (mergeAll e ps) =
    field e ++ List.concat (map (fun p => given (partialField p)) ps).
Proof.
  unfold mergeAll; induction ps as [|p ps IH]; intros e; simpl.
  - rewrite app_nil_r; reflexivity.
  - rewrite IH, merge_field, app_assoc; reflexivity.
Qed.
End MergedLists.

Section LastWrite.
Variable A : Type.
Variable field : CallExtraction.t -> A.
Variable partialField : PartialExtraction.t -> option A.
Hypothesis merge_field :
  forall e p, field (mergeExtraction e p) =
              match partialField p with Some x => x | None => field e end.

Lemma mergeAll_untouched (ps : list PartialExtraction.t) :
  forall e,
    (forall q, In q ps -> partialField q = None) ->
    field (mergeAll e ps) = field e.
Proof.
  unfold mergeAll; induction ps as [|p ps IH]; intros e Hnone; simpl;
    [reflexivity|].
  rewrite IH by (intros; apply Hnone; right; assumption).
  rewrite merge_field, (Hnone p) by (left; reflexivity); reflexivity.
Qed.

Lemma mergeAll_last_write (before after : list PartialExtraction.t)
      (p : PartialExtraction.t) (x : A) (e : CallExtraction.t) :
  partialField p = Some x ->
  (forall q, In q after -> partialField q = None) ->
  field (mergeAll e (before ++ p :: after)) = x.
Proof.
  intros Hp Hnone.
  unfold mergeAll; rewrite fold_left_app; simpl.
  fold (mergeAll (mergeExtraction (fold_left mergeExtraction before e) p)
                 after).
  rewrite mergeAll_untouched by assumption.
  rewrite merge_field, Hp; reflexivity.
Qed.
End LastWrite.

Lemma mergeExtraction_keywords_In (e : CallExtraction.t)
      (p : PartialExtraction.t) (k : string) :
  In k (CallExtraction.keywords (mergeExtraction e p)) <->
  In k (CallExtraction.keywords e) \/ In k (given (PartialExtraction.keywords p)).
Proof.
  unfold mergeExtraction; simpl.
  destruct (PartialExtraction.keywords p) as [ks|]; simpl.
  - rewrite uniq_In, in_app_iff; tauto.
  - tauto.
Qed.

Lemma mergeAll_keywords_In (ps : list PartialExtraction.t) :
  forall (e : CallExtraction.t) (k : string),
    In k (CallExtraction.keywords (mergeAll e ps)) <->
    In k (CallExtraction.keywords e) \/
    exists p, In p ps /\ In k (given (PartialExtraction.keywords p)).
Proof.
  unfold mergeAll; induction ps as [|p ps IH]; intros e k; simpl.
  - split; [tauto | intros [H|(p & [] & _)]; assumption].
  - rewrite IH, mergeExtraction_keywords_In; split.
    + intros [[H|H]|(q & Hq & Hk)];
        [tauto | right; exists p; tauto | right; exists q; tauto].
    + intros [H|(q & [<-|Hq] & Hk)];
        [tauto | tauto | right; exists q; tauto].
Qed.

Lemma mergeAll_keywords_NoDup (ps : list PartialExtraction.t) :
  forall e : CallExtraction.t,
    NoDup (CallExtraction.keywords e) ->
    NoDup (CallExtraction.keywords (mergeAll e ps)).
Proof.
  unfold mergeAll; induction ps as [|p ps IH]; intros e Hnd; simpl;
    [assumption|].
  apply IH; unfold mergeExtraction; simpl.
  destruct (PartialExtraction.keywords p); [apply uniq_NoDup | assumption].
Qed.

Lemma length_concat_sum {A} (ls : list (list A)) :
  List.length (List.concat ls) = list_sum (map (@List.length A) ls).
Proof.
  induction ls as [|l ls IH]; simpl; [reflexivity|].
  rewrite length_app, IH; reflexivity.
Qed.

(** C5. For every store state with a current call and every sequence of
    partial extractions applied by [updateExtraction] in order: promises,
    objections, agreements and key quotes are the old lists followed by the
    lists of the partials, in order; the keywords are the union of the old
    keywords and those of the partials, without duplicates when the old ones
    had none; sentiment and score are those of the last partial that carries
    them (the old ones if none does); and the number of promises grows by the
    sum of the promise counts of the partials, so that it equals that sum in a
    session that started without promises. *)
Theorem C5_updateExtraction_merge :
  forall (s : CallState) (c : Call.t) (partials : list PartialExtraction.t),
    currentCall s = Some c ->
    exists c' : Call.t,
      let e := Call.extraction c in
      let e' := Call.extraction c' in
      currentCall (applyExtractions partials s) = Some c' /\
      CallExtraction.promises e' =
        CallExtraction.promises e
        ++ List.concat (map (fun p => given (PartialExtraction.promises p)) partials) /\
      CallExtraction.objections e' =
        CallExtraction.objections e
        ++ List.concat (map (fun p => given (PartialExtraction.objections p)) partials) /\
      CallExtraction.agreements e' =
        CallExtraction.agreements e
        ++ List.concat (map (fun p => given (PartialExtraction.agreements p)) partials) /\
      CallExtraction.keyQuotes e' =
        CallExtraction.keyQuotes e
        ++ List.concat (map (fun p => given (PartialExtraction.keyQuotes p)) partials) /\
      (forall k,
          In k (CallExtraction.keywords e') <->
          In k (CallExtraction.keywords e) \/
          exists p, In p partials /\
                    In k (given (PartialExtraction.keywords p))) /\
      (NoDup (CallExtraction.keywords e) ->
       NoDup (CallExtraction.keywords e')) /\
      (forall before p after x,
          partials = before ++ p :: after ->
          PartialExtraction.sentiment p = Some x ->
          (forall q, In q after -> PartialExtraction.sentiment q = None) ->
          CallExtraction.sentiment e' = x) /\
      ((forall q, In q partials -> PartialExtraction.sentiment q = None) ->
       CallExtraction.sentiment e' = CallExtraction.sentiment e) /\
      (forall before p after x,
          partials = before ++ p :: after ->
          PartialExtraction.sentimentScore p = Some x ->
          (forall q, In q after -> PartialExtraction.sentimentScore q = None) ->
          CallExtraction.sentimentScore e' = x) /\
      ((forall q, In q partials -> PartialExtraction.sentimentScore q = None) ->
       CallExtraction.sentimentScore e' = CallExtraction.sentimentScore e) /\
      List.length (CallExtraction.promises e') =
        (List.length (CallExtraction.promises e)
         + list_sum (map (fun p => List.length
                                     (given (PartialExtraction.promises p)))
                         partials))%nat /\
      (CallExtraction.promises e = [] ->
       List.length (CallExtraction.promises e') =
         list_sum (map (fun p => List.length
                                   (given (PartialExtraction.promises p)))
                       partials)).
Proof.
  intros s c partials Hc.
  exists (set_extraction (mergeAll (Call.extraction c) partials) c).
  assert (Hlists :
    forall A (field : CallExtraction.t -> list A)
           (pf : PartialExtraction.t -> option (list A)),
      (forall e p, field (mergeExtraction e p) = field e ++ given (pf p)) ->
      field (mergeAll (Call.extraction c) partials) =
      field (Call.extraction c)
      ++ List.concat (map (fun p => given (pf p)) partials)).
  { intros; apply mergeAll_concat; assumption. }
  assert (Hmerge : forall A (o : option (list A)) (l : list A),
             match o with Some x => l ++ x | None => l end = l ++ given o).
  { intros A [x|] l; simpl; [reflexivity | rewrite app_nil_r; reflexivity]. }
  cbv zeta.
  replace (Call.extraction
             (set_extraction (mergeAll (Call.extraction c) partials) c))
    with (mergeAll (Call.extraction c) partials) by (destruct c; reflexivity).
  split; [rewrite (applyExtractions_current partials s c Hc); reflexivity|].
  split; [apply Hlists; intros; apply Hmerge|].
  split; [apply Hlists; intros; apply Hmerge|].
  split; [apply Hlists; intros; apply Hmerge|].
  split; [apply Hlists; intros; apply Hmerge|].
  split; [apply mergeAll_keywords_In|].
  split; [apply mergeAll_keywords_NoDup|].
  split.
  { intros before p after x -> Hp Hafter.
    apply (mergeAll_last_write _ CallExtraction.sentiment
             PartialExtraction.sentiment); auto. }
  split.
  { apply (mergeAll_untouched _ CallExtraction.sentiment
             PartialExtraction.sentiment); auto. }
  split.
  { intros before p after x -> Hp Hafter.
    apply (mergeAll_last_write _ CallExtraction.sentimentScore
             PartialExtraction.sentimentScore); auto. }
  split.
  { apply (mergeAll_untouched _ CallExtraction.sentimentScore
             PartialExtraction.sentimentScore); auto. }
  rewrite (Hlists _ CallExtraction.promises PartialExtraction.promises)
    by (intros; apply Hmerge).
  rewrite length_app, length_concat_sum, map_map.
  split; [reflexivity|].
  intros ->; reflexivity.
Qed.

Lemma C5_updateExtraction_merge_witness :
  exists c' : Call.t,
    currentCall (applyExtractions samplePartials sampleActive) = Some c' /\
    List.length (CallExtraction.promises (Call.extraction c')) = 2%nat /\
    (forall k, In k (CallExtraction.keywords (Call.extraction c')) <->
               k = "KES 5,000" \/ k = "2,000 bob").
Proof.
  destruct (C5_updateExtraction_merge sampleActive sampleCall samplePartials
              eq_refl)
    as (c' & Hcur & _ & _ & _ & _ & Hkw & _ & _ & _ & _ & _ & _ & Hlen).
  exists c'; split; [exact Hcur|].
  split; [rewrite Hlen; reflexivity|].
  intros k; rewrite Hkw; simpl; split.
  - intros [[]|(p & [<-|[<-|[]]] & [<-|[]])]; auto.
  - intros [->| ->]; right; eexists; split;
      [left; reflexivity | left; reflexivity
       | right; left; reflexivity | left; reflexivity].
Defined.

(** *** Ending a call *)

Lemma or_zero_kept (a : number) : keptByOrZero a -> or_zero (Some a) = a.
Proof.
  unfold keptByOrZero, or_zero; intros [Htruthy | ->].
  - rewrite Htruthy; reflexivity.
  - reflexivity.
Qed.

Lemma totalAmount_fold (promises : list Promise.t) :
  forall start : number,
    fold_left (fun sum p => number_add sum (or_zero (Promise.amount p)))
              promises start
    = fold_left number_add
                (map (fun p => or_zero (Promise.amount p)) promises) start.
Proof.
  induction promises as [|p ps IH]; intros start; cbn [fold_left map];
    [reflexivity | apply IH].
Qed.

Lemma counted_amounts_kept (promises : list Promise.t) :
  (forall p a, In p promises -> Promise.amount p = Some a -> keptByOrZero a) ->
  map (fun p => or_zero (Promise.amount p)) promises
  = map (fun p => match Promise.amount p with
                  | Some a => a
                  | None => 0%float
                  end) promises.
Proof.
  intros Hkept; apply map_ext_in; intros p Hin.
  destruct (Promise.amount p) as [a|] eqn:E; [|reflexivity].
  apply or_zero_kept, (Hkept p a Hin E).
Qed.

Lemma totalAmount_spec (promises : list Promise.t) :
  (forall p a, In p promises -> Promise.amount p = Some a -> keptByOrZero a) ->
  totalAmount promises = spec_totalPromisedAmount promises.
Proof.
  intros Hkept; unfold totalAmount, spec_totalPromisedAmount.
  rewrite totalAmount_fold, (counted_amounts_kept promises Hkept).
  reflexivity.
Qed.

(** C9 as stated fails: after the chunk "I will pay KES, 5000 tomorrow" the
    one accumulated promise has the amount [NaN]; the sum of the amount
    fields is [NaN], and the history item of the ended call says 0. *)
Lemma C9_total_skips_NaN_amount :
  let H := sampleHost in
  let (s, w) := commaSession in
  exists (c : Call.t) (item : CallHistoryItem.t) (rest : list CallHistoryItem.t),
    currentCall s = Some c /\
    map Promise.amount (CallExtraction.promises (Call.extraction c))
      = [ Some NaN ] /\
    callHistory (fst (endCall None s w)) = item :: rest /\
    CallHistoryItem.totalPromisedAmount item = 0%float /\
    spec_totalPromisedAmount (CallExtraction.promises (Call.extraction c))
      = NaN /\
    CallHistoryItem.totalPromisedAmount item
      <> spec_totalPromisedAmount (CallExtraction.promises (Call.extraction c)).
Proof.
  vm_compute.
  do 3 eexists; repeat split; try reflexivity.
  intros E; apply (f_equal PrimFloat.is_nan) in E; vm_compute in E.
  discriminate.
Qed.

Section EndingACall.
Context `{Host}.

(** C9, amended. For every store state with a current call, [endCall] and
    [endCallWithAI] (whatever the remote model answers and whatever happens
    to the store while it is asked) put a new item at the head of the
    history whose [totalPromisedAmount] is the sum, added up as doubles from
    0 in the order of the list, of [amount || 0] over the accumulated
    promises: an amount that is missing, [NaN] or a zero counts as 0.  When
    every amount that is present is a truthy number or 0, this is the sum of
    the amount fields with a missing amount counting as 0. *)
Theorem C9_totalPromisedAmount_is_sum :
  forall (s : CallState) (c : Call.t) (summaryText : option string)
         (reply : SummaryReply) (meanwhile : CallState -> M CallState)
         (w : World),
    currentCall s = Some c ->
    let promises := CallExtraction.promises (Call.extraction c) in
    (exists item : CallHistoryItem.t,
        callHistory (fst (endCall summaryText s w)) = item :: callHistory s /\
        CallHistoryItem.id item = Call.id c /\
        CallHistoryItem.promisesCount item = List.length promises /\
        CallHistoryItem.totalPromisedAmount item
          = fold_left number_add
                      (map (fun p => or_zero (Promise.amount p)) promises)
                      0%float /\
        ((forall p a, In p promises -> Promise.amount p = Some a ->
                      keptByOrZero a) ->
         CallHistoryItem.totalPromisedAmount item
           = spec_totalPromisedAmount promises)) /\
    (exists (item : CallHistoryItem.t) (rest : list CallHistoryItem.t),
        callHistory (fst (fst (endCallWithAI reply meanwhile s w)))
          = item :: rest /\
        CallHistoryItem.id item = Call.id c /\
        CallHistoryItem.promisesCount item = List.length promises /\
        CallHistoryItem.totalPromisedAmount item
          = fold_left number_add
                      (map (fun p => or_zero (Promise.amount p)) promises)
                      0%float /\
        ((forall p a, In p promises -> Promise.amount p = Some a ->
                      keptByOrZero a) ->
         CallHistoryItem.totalPromisedAmount item
           = spec_totalPromisedAmount promises)).
Proof.
  intros s c summaryText reply meanwhile w Hc promises.
  split.
  - unfold endCall; rewrite Hc.
    unfold bind, ret, Date_now, generateBasicCallSummary, uuidv4; simpl.
    eexists; split; [reflexivity|]; simpl.
    fold promises.
    repeat split; try reflexivity.
    + apply totalAmount_fold.
    + apply totalAmount_spec.
  - unfold endCallWithAI; rewrite Hc.
    unfold bind, ret, Date_now, uuidv4; simpl.
    destruct (generateAISummary _ _ _ _ _ _) as [aiResult requested].
    destruct (if requested then _ else _) as [state w'].
    simpl.
    eexists; eexists; split; [reflexivity|]; simpl.
    fold promises.
    repeat split; try reflexivity.
    + apply totalAmount_fold.
    + apply totalAmount_spec.
Qed.

(** C10. For every store state without a current call, [endCall] and
    [endCallWithAI] return the state as it is: nothing is added to the
    history, no identifier is drawn, no summary is built and the remote
    model is not asked. *)
Theorem C10_ending_without_call_is_noop :
  forall (s : CallState) (summaryText : option string)
         (reply : SummaryReply) (meanwhile : CallState -> M CallState)
         (w : World),
    currentCall s = None ->
    endCall summaryText s w = (s, w) /\
    endCallWithAI reply meanwhile s w = ((s, false), w) /\
    callHistory (fst (endCall summaryText s w)) = callHistory s /\
    callHistory (fst (fst (endCallWithAI reply meanwhile s w)))
      = callHistory s.
Proof.
  intros s summaryText reply meanwhile w Hnone.
  unfold endCall, endCallWithAI; rewrite Hnone.
  repeat split; reflexivity.
Qed.

(** C8. For every transcript shorter than 10 characters,
    [generateAISummary] does not ask the remote model and returns the fixed
    minimal-session summary with exactly two next actions, the two generic
    ones. *)
Theorem C8_short_transcript_skips_AI :
  forall (transcript customerName : string) (debtAmount : number)
         (duration : Z) (existing : ExistingExtractions)
         (reply : SummaryReply),
    (String.length transcript < 10)%nat ->
    let result := generateAISummary transcript customerName debtAmount
                    duration existing reply in
    snd result = false /\
    summary (fst result) = "Session completed with minimal conversation." /\
    nextActions (fst result)
      = [ "Schedule follow-up call"; "Review account status" ] /\
    List.length (nextActions (fst result)) = 2%nat.
Proof.
  intros transcript customerName debtAmount duration existing reply Hshort.
  unfold generateAISummary.
  apply Nat.ltb_lt in Hshort; rewrite Hshort, orb_true_r.
  repeat split; reflexivity.
Qed.

End EndingACall.

Lemma C9_totalPromisedAmount_is_sum_witness :
  let H := sampleHost in
  exists (c : Call.t) (item : CallHistoryItem.t),
    currentCall (applyExtractions samplePartials sampleActive) = Some c /\
    callHistory (fst (endCall None
                        (applyExtractions samplePartials sampleActive)
                        sampleWorld)) = [ item ] /\
    CallHistoryItem.totalPromisedAmount item = 7000%float /\
    CallHistoryItem.totalPromisedAmount item
      = spec_totalPromisedAmount (CallExtraction.promises (Call.extraction c)).
Proof.
  intros H.
  destruct (applyExtractions samplePartials sampleActive) as [cur hist th] eqn:E.
  vm_compute in E; injection E as <- <- <-.
  match goal with
  | |- context [ mkCallState (Some ?c) _ _ ] =>
      exists c;
      destruct (C9_totalPromisedAmount_is_sum
                  (mkCallState (Some c) [] light) c None SummaryThrew
                  (fun s => ret s) sampleWorld eq_refl)
        as [(item & Hhist & _ & _ & Htotal & Hspec) _]
  end.
  exists item; split; [reflexivity|]; split; [exact Hhist|].
  split; [rewrite Htotal; reflexivity|].
  apply Hspec.
  intros p a [<-|[<-|[]]] Ha; injection Ha as <-; left; reflexivity.
Defined.

(** Totals are sums of doubles: promises of 0.10 and of 0.20 add up to
    0.30000000000000004, which is not the double that 0.30 denotes. *)
Lemma endCall_total_rounds_as_doubles :
  let H := sampleHost in
  exists item : CallHistoryItem.t,
    callHistory (fst (endCall None
                        (applyExtractions centPartials sampleActive)
                        sampleWorld)) = [ item ] /\
    Prim2SF (CallHistoryItem.totalPromisedAmount item)
      = S754_finite false 5404319552844596 (-54) /\
    Prim2SF (parseFloat "0.30") = S754_finite false 5404319552844595 (-54) /\
    parseFloat "5000" = 5000%float /\
    parseFloat "2500.50" = 2500.5%float /\
    parseFloat ".50" = 0.5%float /\
    parseFloat "7." = 7%float /\
    PrimFloat.is_nan (parseFloat "") = true.
Proof. vm_compute; eexists; repeat split. Qed.

Lemma C10_ending_without_call_is_noop_witness :
  let H := sampleHost in
  endCall None initialState sampleWorld = (initialState, sampleWorld) /\
  endCallWithAI SummaryThrew (fun s => ret s) initialState sampleWorld
    = ((initialState, false), sampleWorld).
Proof.
  intros H.
  destruct (C10_ending_without_call_is_noop initialState None SummaryThrew
              (fun s => ret s) sampleWorld eq_refl) as (He & Hai & _).
  split; assumption.
Defined.

Lemma C8_short_transcript_skips_AI_witness :
  let H := sampleHost in
  generateAISummary "hello" "Alice Wanjiru" 25000%float 12
    (mkExisting [] [] [] neutral) (SummaryParsed (Some "ignored") None)
  = (mkSummaryResult "Session completed with minimal conversation."
       [ "Schedule follow-up call"; "Review account status" ], false).
Proof.
  intros H.
  destruct (C8_short_transcript_skips_AI "hello" "Alice Wanjiru" 25000%float
              12 (mkExisting [] [] [] neutral)
              (SummaryParsed (Some "ignored") None))
    as (Hreq & Hsum & Hact & _); [simpl; lia|].
  destruct (generateAISummary _ _ _ _ _ _) as [[sm acts] req].
  simpl in *; subst; reflexivity.
Defined.

(** ** The coaching gate *)

Lemma receive_suggestions (context : ConversationContext.t)
      (l : list CoachingSuggestion.t) (v : CoachingView) :
  suggestions (receive context l v) = match l with [] => suggestions v | _ => l end.
Proof. destruct l; reflexivity. Qed.





(** C2. In every gate state, a trigger whose transcript is fewer than 50
    characters longer than at the last fetch (the length the service
    recorded, or the one the component recorded) issues no remote request
    and leaves the cache and the outstanding requests as they are; the list
    shown afterwards is the one shown before or the cached one, hence the one
    shown before whenever that was the cached one; and the service itself,
    asked with such a transcript of at least 15 characters, hands back the
    cached list without a request. *)
Theorem C2_small_growth_returns_cached :
  (forall (g : Gate) (p : CoachingProps),
      (len (transcript p) - lastAnalyzedLength (cache g) < 50 \/
       len (transcript p) - lastProcessedLength (view g) < 50)%Z ->
      snd (fetchSuggestions p g) = false /\
      cache (fst (fetchSuggestions p g)) = cache g /\
      outstanding (fst (fetchSuggestions p g)) = outstanding g /\
      (suggestions (view (fst (fetchSuggestions p g))) = suggestions (view g) \/
       suggestions (view (fst (fetchSuggestions p g)))
         = lastSuggestions (cache g)) /\
      (coherent g ->
       suggestions (view (fst (fetchSuggestions p g)))
         = suggestions (view g)))
  /\
  (forall (context : ConversationContext.t) (c : Cache),
      (15 <= len (ConversationContext.transcript context))%Z ->
      (len (ConversationContext.transcript context)
       - lastAnalyzedLength c < 50)%Z ->
      getAICoachingSuggestions_begin context c
      = (c, Some (lastSuggestions c))).
Proof.
  split.
  - intros g p Hgrowth.
    unfold fetchSuggestions, getAICoachingSuggestions_begin.
    destruct (negb (isActive p)); simpl; [auto 6|].
    destruct (Z.ltb_spec (len (transcript p)) 20); [auto 6|].
    destruct (Z.ltb_spec (len (transcript p) - lastProcessedLength (view g)) 50);
      [auto 6|].
    destruct Hgrowth as [Hgrowth|Hgrowth]; [|lia].
    assert (Hcached :
      let shown :=
        suggestions
          (receive (contextOf p) (lastSuggestions (cache g))
             (mkView (suggestions (view g)) (lastProcessedLength (view g))
                     true)) in
      (shown = suggestions (view g) \/ shown = lastSuggestions (cache g)) /\
      (coherent g -> shown = suggestions (view g))).
    { cbv zeta; rewrite receive_suggestions; simpl; unfold coherent.
      destruct (lastSuggestions (cache g)) as [|x l]; split; auto.
      intros [Hnil|Hsame]; [discriminate | congruence]. }
    destruct Hcached as [Hshown Hsame].
    destruct (isProcessing (cache g)); simpl; [auto 6|].
    destruct (Z.ltb_spec (len (transcript p)) 15); [lia|].
    destruct (Z.ltb_spec (len (transcript p) - lastAnalyzedLength (cache g)) 60);
      [|lia].
    simpl; auto 6.
  - intros context c Hfloor Hgrowth.
    unfold getAICoachingSuggestions_begin.
    destruct (isProcessing c); [reflexivity|].
    destruct (Z.ltb_spec (len (ConversationContext.transcript context)) 15);
      [lia|].
    destruct (Z.ltb_spec (len (ConversationContext.transcript context)
                          - lastAnalyzedLength c) 60); [reflexivity | lia].
Qed.

Lemma C2_small_growth_returns_cached_witness :
  List.length (suggestions (view gateAfterFirstFetch)) = 1%nat /\
  lastAnalyzedLength (cache gateAfterFirstFetch) = 80%Z /\
  snd (fetchSuggestions (propsAt transcript100) gateAfterFirstFetch) = false /\
  suggestions (view (fst (fetchSuggestions (propsAt transcript100)
                            gateAfterFirstFetch)))
  = suggestions (view gateAfterFirstFetch).
Proof.
  split; [reflexivity|]; split; [reflexivity|].
  destruct (proj1 C2_small_growth_returns_cached gateAfterFirstFetch
              (propsAt transcript100))
    as (Hreq & _ & _ & _ & Hshown).
  - left; vm_compute; reflexivity.
  - split; [exact Hreq|].
    apply Hshown; right; reflexivity.
Defined.

(** C3. For every transcript shorter than 20 characters, a trigger does
    nothing at all: no remote request, and the gate (shown list, cache,
    outstanding requests) stays as it is; the service itself, asked with such
    a transcript, never issues a request either. *)
Theorem C3_short_transcript_suppressed :
  (forall (p : CoachingProps) (g : Gate),
      (String.length (transcript p) < 20)%nat ->
      fetchSuggestions p g = (g, false))
  /\
  (forall (context : ConversationContext.t) (c : Cache),
      (String.length (ConversationContext.transcript context) < 20)%nat ->
      (0 <= lastAnalyzedLength c)%Z ->
      exists cached : list CoachingSuggestion.t,
        getAICoachingSuggestions_begin context c = (c, Some cached) /\
        (cached = [] \/ cached = lastSuggestions c)).
Proof.
  split.
  - intros p g Hshort.
    unfold fetchSuggestions, len.
    destruct (Z.ltb_spec (Z.of_nat (String.length (transcript p))) 20);
      [|lia].
    rewrite orb_true_r; reflexivity.
  - intros context c Hshort Hpos.
    unfold getAICoachingSuggestions_begin, len.
    destruct (isProcessing c); [eauto|].
    destruct (Z.ltb_spec
                (Z.of_nat (String.length
                             (ConversationContext.transcript context))) 15);
      [eauto|].
    destruct (Z.ltb_spec
                (Z.of_nat (String.length
                             (ConversationContext.transcript context))
                 - lastAnalyzedLength c) 60); [eauto | lia].
Qed.

Lemma C3_short_transcript_suppressed_witness :
  fetchSuggestions (propsAt "Hello, who is this?") initialGate
  = (initialGate, false).
Proof.
  apply (proj1 C3_short_transcript_suppressed); simpl; lia.
Defined.

(* ================================================================== *)
(** * Further properties of the code *)

(** ** Strings *)

Lemma append_assoc_s (a b c : string) : (a +++ b) +++ c = a +++ b +++ c.
Proof. induction a as [|x a IH]; simpl; [reflexivity | rewrite IH; reflexivity]. Qed.

Lemma append_nil_r_s (a : string) : a +++ EmptyString = a.
Proof. induction a as [|x a IH]; simpl; [reflexivity | rewrite IH; reflexivity]. Qed.

Lemma length_append_s (a b : string) :
  String.length (a +++ b) = (String.length a + String.length b)%nat.
Proof. induction a as [|x a IH]; simpl; [reflexivity | rewrite IH; reflexivity]. Qed.

Lemma prefix_append (m post : string) : String.prefix m (m +++ post) = true.
Proof.
  induction m as [|x m IH]; simpl; [destruct post; reflexivity|].
  destruct (ascii_dec x x); [assumption | contradiction].
Qed.

Lemma includes_unfold (s kw : string) :
  includes s kw =
  if String.prefix kw s then true
  else match s with
       | EmptyString => false
       | String _ s' => includes s' kw
       end.
Proof. destruct s; reflexivity. Qed.

Lemma includes_append (pre m post : string) :
  includes (pre +++ m +++ post) m = true.
Proof.
  induction pre as [|x pre IH].
  - simpl; rewrite includes_unfold, prefix_append; reflexivity.
  - change (includes (String x (pre +++ m +++ post)) m = true).
    rewrite includes_unfold, IH.
    destruct (String.prefix m (String x (pre +++ m +++ post))); reflexivity.
Qed.

Lemma prefix_split (kw t : string) :
  String.prefix kw t = true -> t = kw +++ slice_from (String.length kw) t.
Proof.
  revert t; induction kw as [|k kw IH]; intros t Hp; [destruct t; reflexivity|].
  destruct t as [|y t]; simpl in Hp; [discriminate|].
  destruct (ascii_dec k y) as [->|]; [|discriminate].
  simpl; f_equal; apply IH; assumption.
Qed.

Lemma includes_substring (s kw : string) :
  includes s kw = true <-> exists pre post, s = pre +++ kw +++ post.
Proof.
  split.
  - induction s as [|x s IH]; rewrite includes_unfold.
    + destruct (String.prefix kw EmptyString) eqn:E; [|discriminate].
      intros _; apply prefix_split in E.
      exists EmptyString; eexists; exact E.
    + destruct (String.prefix kw (String x s)) eqn:E.
      * intros _; apply prefix_split in E.
        exists EmptyString; eexists; exact E.
      * intros Hin; destruct (IH Hin) as (pre & post & ->).
        exists (String x pre), post; reflexivity.
  - intros (pre & post & ->); apply includes_append.
Qed.

Lemma slice0_append (pre rest : string) :
  slice0 (String.length pre) (pre +++ rest) = pre.
Proof. induction pre as [|x pre IH]; simpl; [destruct rest; reflexivity | rewrite IH; reflexivity]. Qed.

(** ** The matcher returns text of its input *)




(** ** More on the extraction engine *)



Lemma hits_nonneg (kws : list string) (lower : string) : (0 <= hits kws lower)%Z.
Proof. unfold hits; lia. Qed.

Lemma sentimentOf_label_score (tp tn : Z) :
  (0 <= tp)%Z -> (0 <= tn)%Z ->
  let label := fst (sentimentOf tp tn) in
  let score := snd (sentimentOf tp tn) in
  (label = positive <-> (80 <= score)%Z) /\
  (label = negative <-> (score <= 20)%Z) /\
  (label = neutral <-> score = 40%Z \/ score = 50%Z \/ score = 60%Z).
Proof.
  intros Htp Htn; unfold sentimentOf.
  destruct (Z.gtb_spec tp (tn + 1)); cbn [fst snd].
  { repeat split; intros; try discriminate; try lia. }
  destruct (Z.gtb_spec tn (tp + 1)); cbn [fst snd].
  { repeat split; intros; try discriminate; try lia. }
  destruct (Z.gtb_spec tp 0); destruct (Z.gtb_spec tn 0); cbn [orb fst snd];
    repeat split; intros; try discriminate; try reflexivity; try lia.
Qed.

(** X3. The sentiment label and score that [analyzeText] returns always
    agree: the label is positive exactly when the score is at least 80,
    negative exactly when it is at most 20, and neutral exactly when the
    score is 40, 50 or 60; no other score occurs. *)
Theorem X3_sentiment_label_matches_score :
  forall (text fullTranscript : string) (w : World),
  exists (label : Sentiment) (score : Z),
    PartialExtraction.sentiment
      (extraction (analysis text fullTranscript w)) = Some label /\
    PartialExtraction.sentimentScore
      (extraction (analysis text fullTranscript w)) = Some score /\
    (label = positive <-> (80 <= score <= 95)%Z) /\
    (label = negative <-> (5 <= score <= 20)%Z) /\
    (label = neutral <-> score = 40%Z \/ score = 50%Z \/ score = 60%Z).
Proof.
  intros text fullTranscript w.
  destruct (analyzeText_sentiment text fullTranscript w) as [Hl Hs].
  eexists; eexists; split; [exact Hl|]; split; [exact Hs|].
  pose proof (sentimentOf_bounds (totalPositive text fullTranscript)
                (totalNegative text fullTranscript)) as Hb.
  destruct (sentimentOf_label_score (totalPositive text fullTranscript)
              (totalNegative text fullTranscript)) as (Hp & Hn & Hz).
  { unfold totalPositive; pose proof (hits_nonneg POSITIVE_KEYWORDS (toLowerCase text));
      pose proof (hits_nonneg POSITIVE_KEYWORDS (toLowerCase fullTranscript)); lia. }
  { unfold totalNegative; pose proof (hits_nonneg NEGATIVE_KEYWORDS (toLowerCase text));
      pose proof (hits_nonneg NEGATIVE_KEYWORDS (toLowerCase fullTranscript)); lia. }
  split; [rewrite Hp; lia|]; split; [rewrite Hn; lia | exact Hz].
Qed.

Lemma analyzeText_agreements (text fullTranscript : string) (w : World) :
  PartialExtraction.agreements (extraction (analysis text fullTranscript w)) =
  if (hasAgreement text && (20 <? String.length text)%nat)%bool
  then Some [ Agreement.mk
                (Uuid (next_uuid w
                       + (if hasPromise text then 1 else 0)
                       + (if hasObjection text then 1 else 0)))
                (agreementClass (toLowerCase text)) (slice0 100 text)
                (clock w) ]
  else None.
Proof.
  unfold analysis, analyzeText, bind, ret, uuidv4, Date_now.
  destruct (hasPromise text), (hasObjection text),
    (objectionClass (toLowerCase text)),
    (hasAgreement text && (20 <? String.length text)%nat)%bool,
    (sentimentOf _ _); cbn [next_uuid clock];
    rewrite ?Nat.add_0_r, ?Nat.add_1_r; reflexivity.
Qed.

Lemma analyzeText_keyQuotes (text fullTranscript : string) (w : World) :
  PartialExtraction.keyQuotes (extraction (analysis text fullTranscript w)) =
  if ((30 <? String.length text)%nat
      && hasSignificantContent (analysis text fullTranscript w))%bool
  then Some [ slice0 150 text ] else None.
Proof.
  rewrite analyzeText_significant.
  unfold analysis, analyzeText, bind, ret, uuidv4, Date_now.
  destruct (Nat.ltb_spec 30 (String.length text)) as [Hlong|Hshort].
  - assert (H20 : (20 <? String.length text)%nat = true)
      by (apply Nat.ltb_lt; lia).
    rewrite H20.
    destruct (hasPromise text), (hasObjection text),
      (objectionClass (toLowerCase text)), (hasAgreement text),
      (sentimentOf _ _); reflexivity.
  - destruct (hasPromise text), (hasObjection text),
      (objectionClass (toLowerCase text)),
      (hasAgreement text && (20 <? String.length text)%nat)%bool,
      (sentimentOf _ _); reflexivity.
Qed.


(** X4. A chunk is significant exactly when [analyzeText] emitted a promise,
    an objection or an agreement for it; and a key quote is recorded exactly
    when the chunk is significant and longer than 30 characters, the quote
    being the first 150 characters of the chunk. *)
Theorem X4_significance_and_key_quote :
  forall (text fullTranscript : string) (w : World),
    let r := analysis text fullTranscript w in
    (hasSignificantContent r = true <->
     PartialExtraction.promises (extraction r) <> None \/
     PartialExtraction.objections (extraction r) <> None \/
     PartialExtraction.agreements (extraction r) <> None) /\
    (PartialExtraction.keyQuotes (extraction r) <> None <->
     hasSignificantContent r = true /\ (30 < String.length text)%nat) /\
    (forall quotes,
        PartialExtraction.keyQuotes (extraction r) = Some quotes ->
        quotes = [ slice0 150 text ] /\
        Forall (fun q => (String.length q <= 150)%nat) quotes).
Proof.
  intros text fullTranscript w r; unfold r.
  rewrite analyzeText_keyQuotes, analyzeText_significant,
    analyzeText_promises, analyzeText_objections, analyzeText_agreements.
  split; [|split].
  - destruct (hasPromise text), (hasObjection text),
      (hasAgreement text && (20 <? String.length text)%nat)%bool;
      cbn [orb]; intuition congruence.
  - destruct (Nat.ltb_spec 30 (String.length text));
      destruct (hasPromise text || hasObjection text
                || hasAgreement text && (20 <? String.length text)%nat)%bool;
      cbn [andb]; intuition (try congruence; try lia).
  - intros quotes Hq.
    destruct (_ && _)%bool; [|discriminate].
    assert (Hquotes : quotes = [ slice0 150 text ]) by congruence.
    subst quotes; split; [reflexivity|].
    constructor; [rewrite slice0_length; lia | constructor].
Qed.


Lemma includes_shorter (l a b : string) :
  includes l a = false -> includes l (a +++ b) = false.
Proof.
  intros Hno; destruct (includes l (a +++ b)) eqn:E; [|reflexivity].
  apply includes_substring in E as (pre & post & E).
  assert (Hyes : includes l a = true).
  { apply includes_substring; exists pre, (b +++ post).
    rewrite E, append_assoc_s; reflexivity. }
  congruence.
Qed.

(** X6. A chunk yields an agreement only when it contains an agreement
    keyword and is longer than 20 characters, so a bare "okay" or "sawa"
    yields none; when it does, there is exactly one, its details are the
    first 100 characters, and its type is the first that applies of payment
    plan, settlement, callback, other. *)
Theorem X6_agreement_detection :
  forall (text fullTranscript : string) (w : World),
    let lower := toLowerCase text in
    let found :=
      PartialExtraction.agreements
        (extraction (analysis text fullTranscript w)) in
    ((String.length text <= 20)%nat -> found = None) /\
    ((forall kw, In kw AGREEMENT_KEYWORDS -> includes lower kw = false) ->
     found = None) /\
    ((exists kw, In kw AGREEMENT_KEYWORDS /\ includes lower kw = true) ->
     (20 < String.length text)%nat ->
     exists a : Agreement.t,
       found = Some [ a ] /\
       Agreement.details a = slice0 100 text /\
       ((includes lower "payment plan" || includes lower "monthly")%bool = true ->
        Agreement.type a = payment_plan) /\
       ((includes lower "payment plan" || includes lower "monthly")%bool = false ->
        includes lower "settle" = true -> Agreement.type a = settlement) /\
       ((includes lower "payment plan" || includes lower "monthly")%bool = false ->
        includes lower "settle" = false -> includes lower "call" = true ->
        Agreement.type a = callback) /\
       ((includes lower "payment plan" || includes lower "monthly")%bool = false ->
        includes lower "settle" = false -> includes lower "call" = false ->
        Agreement.type a = other_agreement)).
Proof.
  intros text fullTranscript w lower found; unfold found.
  rewrite analyzeText_agreements.
  split; [|split].
  - intros Hshort.
    destruct (Nat.ltb_spec 20 (String.length text)); [lia|].
    rewrite andb_false_r; reflexivity.
  - intros Hnone.
    assert (Hno : hasAgreement text = false).
    { unfold hasAgreement.
      destruct (existsb _ _) eqn:E; [|reflexivity].
      apply existsb_exists in E as (kw & Hin & Hinc).
      specialize (Hnone kw Hin); unfold lower in Hnone; congruence. }
    rewrite Hno; reflexivity.
  - intros Hkw Hlong.
    assert (Hyes : hasAgreement text = true)
      by (unfold hasAgreement; apply existsb_exists; exact Hkw).
    apply Nat.ltb_lt in Hlong; rewrite Hyes, Hlong; cbn [andb].
    eexists; split; [reflexivity|].
    cbn [Agreement.details Agreement.type].
    split; [reflexivity|].
    unfold agreementClass; fold lower.
    pose proof (includes_shorter lower "settle" "ment") as Hs.
    pose proof (includes_shorter lower "call" "back") as Hc.
    cbn [append] in Hs, Hc.
    destruct (includes lower "payment plan" || includes lower "monthly")%bool,
      (includes lower "settle"), (includes lower "settlement"),
      (includes lower "call"), (includes lower "callback");
      cbn [orb]; repeat split; intros; try reflexivity; try discriminate;
      try (specialize (Hs eq_refl); discriminate);
      try (specialize (Hc eq_refl); discriminate).
Qed.

Lemma X6_agreement_detection_witness :
  PartialExtraction.agreements
    (extraction (analysis "okay" "okay" sampleWorld)) = None /\
  exists a : Agreement.t,
    PartialExtraction.agreements
      (extraction (analysis "Okay, please call me back on Monday" ""
                            sampleWorld)) = Some [ a ] /\
    Agreement.type a = callback.
Proof.
  split.
  - apply (proj1 (X6_agreement_detection "okay" "okay" sampleWorld)).
    simpl; lia.
  - destruct (proj2 (proj2 (X6_agreement_detection
                              "Okay, please call me back on Monday" ""
                              sampleWorld)))
      as (a & Ha & _ & _ & _ & Hcall & _).
    + exists "okay"; split; [simpl; tauto | reflexivity].
    + simpl; lia.
    + exists a; split; [exact Ha|].
      apply Hcall; reflexivity.
Defined.

(** ** The fallbacks of the remote model *)

(** The assembly of the rule-based suggestions, whatever the suggestions
    are. *)
Lemma fallback_shape {A : Type} (id priority : A -> string)
      (sentiment : Sentiment) (r1 r2 r3 r4 r5 : regex) (transcript : string)
      (s1 s2 s3 s4 s5 s6 : A) :
  id s1 = "fallback-deescalate" -> priority s1 = "urgent" ->
  id s2 = "fallback-hardship" -> id s3 = "fallback-jobloss" ->
  id s4 = "fallback-closing" -> id s5 = "fallback-mpesa" ->
  id s6 = "fallback-default" ->
  let l :=
    let suggestions : list A := [] in
    let lowerTranscript := toLowerCase transcript in
    let suggestions :=
      if (match sentiment with negative => true | _ => false end
          || test r1 lowerTranscript)%bool
      then suggestions ++ [ s1 ] else suggestions in
    let suggestions :=
      if test r2 lowerTranscript then suggestions ++ [ s2 ] else suggestions in
    let suggestions :=
      if test r3 lowerTranscript then suggestions ++ [ s3 ] else suggestions in
    let suggestions :=
      if test r4 lowerTranscript then suggestions ++ [ s4 ] else suggestions in
    let suggestions :=
      if test r5 lowerTranscript then suggestions ++ [ s5 ] else suggestions in
    match suggestions with
    | [] => [ s6 ]
    | _ => suggestions
    end in
  (1 <= List.length l <= 5)%nat /\
  NoDup (map id l) /\
  (sentiment = negative ->
   exists first rest,
     l = first :: rest /\ id first = "fallback-deescalate" /\
     priority first = "urgent") /\
  (In "fallback-default" (map id l) -> List.length l = 1%nat).
Proof.
  intros H1 Hp H2 H3 H4 H5 H6; cbv zeta.
  destruct sentiment;
    destruct (test r1 _); destruct (test r2 _); destruct (test r3 _);
    destruct (test r4 _); destruct (test r5 _);
    cbn [orb app List.length map];
    rewrite ?H1, ?H2, ?H3, ?H4, ?H5, ?H6;
    (split; [lia|]);
    (split; [repeat (constructor; cbn [In]); intuition discriminate|]);
    (split; [intros Hneg; first [discriminate
                                | do 2 eexists; repeat split;
                                  first [assumption | reflexivity]]|]);
    cbn [In]; intuition (try discriminate; try reflexivity).
Qed.

(** X7. The rule-based suggestions are never empty and never more than five;
    their identifiers are pairwise different; with a negative sentiment the
    first one is the urgent de-escalation; and the generic rapport suggestion
    is given exactly when it is the only one. *)
Theorem X7_fallback_suggestions_shape :
  forall context : ConversationContext.t,
    let l := getFallbackSuggestions context in
    (1 <= List.length l <= 5)%nat /\
    NoDup (map CoachingSuggestion.id l) /\
    (ConversationContext.detectedSentiment context = negative ->
     exists first rest,
       l = first :: rest /\
       CoachingSuggestion.id first = "fallback-deescalate" /\
       CoachingSuggestion.priority first = "urgent") /\
    (In "fallback-default" (map CoachingSuggestion.id l) ->
     List.length l = 1%nat).
Proof.
  intros context.
  eapply (fallback_shape CoachingSuggestion.id CoachingSuggestion.priority);
    reflexivity.
Qed.

Lemma capped_nonempty (a d : list string) :
  d <> [] ->
  (1 <= List.length (firstn 5 match a with [] => d | _ :: _ => a end) <= 5)%nat.
Proof.
  intros Hd.
  assert (Hne : match a with [] => d | _ :: _ => a end <> []).
  { destruct a; [assumption | discriminate]. }
  destruct (match a with [] => d | _ :: _ => a end) as [|x l];
    [contradiction|].
  split; [simpl; lia|].
  rewrite length_firstn; lia.
Qed.

Lemma contextAwareNextActions_bounds `{Host} (call : Call.t) :
  (1 <= List.length (generateContextAwareNextActions call) <= 5)%nat.
Proof.
  unfold generateContextAwareNextActions; cbv zeta.
  apply capped_nonempty.
  destruct (50 <? _)%nat; discriminate.
Qed.

Lemma fallbackNextActions_bounds `{Host} (customerName : string)
      (debtAmount : number) (extractions : ExistingExtractions) :
  (1 <= List.length (generateFallbackNextActions customerName debtAmount
                       extractions) <= 5)%nat.
Proof.
  unfold generateFallbackNextActions; cbv zeta.
  apply capped_nonempty; discriminate.
Qed.

(** X8. The rule-based lists of next actions, the one of the store
    ([generateContextAwareNextActions]) and the one of the service
    ([generateFallbackNextActions]), always hold at least one action and at
    most five. *)
Theorem X8_next_actions_between_one_and_five :
  forall `{Host},
    (forall call : Call.t,
        (1 <= List.length (generateContextAwareNextActions call) <= 5)%nat) /\
    (forall (customerName : string) (debtAmount : number)
            (extractions : ExistingExtractions),
        (1 <= List.length (generateFallbackNextActions customerName debtAmount
                             extractions) <= 5)%nat).
Proof.
  intros H; split.
  - apply contextAwareNextActions_bounds.
  - apply fallbackNextActions_bounds.
Qed.




(** ** More on the coaching gate *)

Lemma fetchSuggestions_request :
  forall (p : CoachingProps) (g : Gate),
    let n := len (transcript p) in
    (snd (fetchSuggestions p g) = true <->
     isActive p = true /\ (20 <= n)%Z /\
     (50 <= n - lastProcessedLength (view g))%Z /\
     isProcessing (cache g) = false /\
     (60 <= n - lastAnalyzedLength (cache g))%Z) /\
    (snd (fetchSuggestions p g) = true ->
     outstanding (fst (fetchSuggestions p g))
       = outstanding g ++ [ contextOf p ] /\
     isProcessing (cache (fst (fetchSuggestions p g))) = true /\
     isLoading (view (fst (fetchSuggestions p g))) = true /\
     suggestions (view (fst (fetchSuggestions p g))) = suggestions (view g) /\
     lastSuggestions (cache (fst (fetchSuggestions p g)))
       = lastSuggestions (cache g)).
Proof.
  intros p g n; unfold n, fetchSuggestions, getAICoachingSuggestions_begin.
  assert (Hlen : len (ConversationContext.transcript (contextOf p))
                 = len (transcript p)) by reflexivity.
  rewrite Hlen.
  destruct (isActive p); cbn [negb orb].
  2: { split; [split; [discriminate | intros (H & _); discriminate]
              | discriminate]. }
  destruct (Z.ltb_spec (len (transcript p)) 20).
  { split; [split; [discriminate | lia] | discriminate]. }
  destruct (Z.ltb_spec (len (transcript p) - lastProcessedLength (view g)) 50).
  { split; [split; [discriminate | lia] | discriminate]. }
  destruct (isProcessing (cache g)); cbn [fst snd].
  { split; [split; [discriminate | intros (_ & _ & _ & H' & _); discriminate]
           | discriminate]. }
  destruct (Z.ltb_spec (len (transcript p)) 15); [lia|].
  destruct (Z.ltb_spec (len (transcript p) - lastAnalyzedLength (cache g)) 60);
    cbn [fst snd].
  { split; [split; [discriminate | lia] | discriminate]. }
  split; [split; [intros _; repeat split; lia | reflexivity]|].
  intros _; repeat split; reflexivity.
Qed.

(** X10. A trigger sends a request to the remote model exactly when the
    component is active, the transcript has at least 20 characters, it grew by
    at least 50 since the component last took a list, no request is in
    flight, and it grew by at least 60 since the service last asked; the
    request then joins the outstanding ones, the in-flight flag and the
    loading flag are set, and the shown list stays. *)
Theorem X10_when_a_request_goes_out :
  forall (p : CoachingProps) (g : Gate),
    let n := len (transcript p) in
    (snd (fetchSuggestions p g) = true <->
     isActive p = true /\ (20 <= n)%Z /\
     (50 <= n - lastProcessedLength (view g))%Z /\
     isProcessing (cache g) = false /\
     (60 <= n - lastAnalyzedLength (cache g))%Z) /\
    (snd (fetchSuggestions p g) = true ->
     outstanding (fst (fetchSuggestions p g))
       = outstanding g ++ [ contextOf p ] /\
     isProcessing (cache (fst (fetchSuggestions p g))) = true /\
     isLoading (view (fst (fetchSuggestions p g))) = true /\
     suggestions (view (fst (fetchSuggestions p g))) = suggestions (view g) /\
     lastSuggestions (cache (fst (fetchSuggestions p g)))
       = lastSuggestions (cache g)).
Proof. exact fetchSuggestions_request. Qed.

Lemma singleFlight_step (e : GateEvent) (g : Gate) (w : World) :
  e <> SessionEnd -> singleFlight g -> singleFlight (fst (gateStep e g w)).
Proof.
  intros Hne Hsf; destruct e as [p | i reply | ]; [| |contradiction].
  - cbn [gateStep ret fst].
    unfold fetchSuggestions, getAICoachingSuggestions_begin.
    destruct (negb (isActive p) || _)%bool; [assumption|].
    destruct (_ <? 50)%Z; [assumption|].
    destruct Hsf as [[Hp Hout]|[Hp Hout]]; rewrite Hp; cbn [fst].
    + left; auto.
    + destruct (_ <? 15)%Z; cbn [fst]; [right; auto|].
      destruct (_ <? 60)%Z; cbn [fst]; [right; auto|].
      left; rewrite Hout; auto.
  - cbn [gateStep]; unfold completeRequest.
    destruct (nth_error (outstanding g) i) as [context|] eqn:E;
      [|assumption].
    unfold getAICoachingSuggestions_resume, bind, ret, Date_now.
    destruct Hsf as [[Hp Hout]|[Hp Hout]].
    + destruct (outstanding g) as [|c [|c' l]]; try discriminate.
      destruct i as [|i]; [|destruct i; discriminate].
      destruct reply; cbn; right; auto.
    + rewrite Hout in E; destruct i; discriminate.
Qed.

Lemma inFlight_has_request_step (e : GateEvent) (g : Gate) (w : World) :
  (isProcessing (cache g) = true -> outstanding g <> []) ->
  isProcessing (cache (fst (gateStep e g w))) = true ->
  outstanding (fst (gateStep e g w)) <> [].
Proof.
  intros Hinv; destruct e as [p | i reply | ].
  - cbn [gateStep ret fst].
    unfold fetchSuggestions, getAICoachingSuggestions_begin.
    destruct (negb (isActive p) || _)%bool; [assumption|].
    destruct (_ <? 50)%Z; [assumption|].
    destruct (isProcessing (cache g)) eqn:Hp; cbn [fst cache outstanding].
    + intros _; apply Hinv; reflexivity.
    + destruct (_ <? 15)%Z; cbn [fst cache outstanding];
        [rewrite Hp; discriminate|].
      destruct (_ <? 60)%Z; cbn [fst cache outstanding];
        [rewrite Hp; discriminate|].
      intros _ Hnil; apply app_eq_nil in Hnil as [_ Hnil]; discriminate.
  - cbn [gateStep]; unfold completeRequest.
    destruct (nth_error (outstanding g) i) as [context|]; [|assumption].
    unfold getAICoachingSuggestions_resume, bind, ret, Date_now.
    destruct reply; cbn; discriminate.
  - cbn; discriminate.
Qed.

(** X11. Single flight.  Along every run of the gate from its initial state,
    the in-flight flag is set only while some request is outstanding; and as
    long as no session-end reset occurs, at most one request is outstanding,
    exactly when the flag is set. *)
Theorem X11_single_flight :
  forall (events : list GateEvent) (w : World),
    let g := fst (gateRun events initialGate w) in
    (isProcessing (cache g) = true -> outstanding g <> []) /\
    ((forall e, In e events -> e <> SessionEnd) ->
     (List.length (outstanding g) <= 1)%nat /\
     (isProcessing (cache g) = true <-> List.length (outstanding g) = 1%nat)).
Proof.
  intros events w.
  assert (Hgen : forall g0 w0,
     ((isProcessing (cache g0) = true -> outstanding g0 <> []) ->
      let g := fst (gateRun events g0 w0) in
      isProcessing (cache g) = true -> outstanding g <> []) /\
     ((forall e, In e events -> e <> SessionEnd) ->
      singleFlight g0 -> singleFlight (fst (gateRun events g0 w0)))).
  { induction events as [|e events IH]; intros g0 w0.
    - split; cbn; auto.
    - cbn [gateRun]; unfold bind.
      destruct (gateStep e g0 w0) as [g1 w1] eqn:E.
      split.
      + intros Hinv.
        apply (proj1 (IH g1 w1)).
        pose proof (inFlight_has_request_step e g0 w0 Hinv) as Hstep.
        rewrite E in Hstep; exact Hstep.
      + intros Hno Hsf.
        apply (proj2 (IH g1 w1)).
        * intros e' Hin; apply Hno; right; assumption.
        * pose proof (singleFlight_step e g0 w0
                        (Hno e (or_introl eq_refl)) Hsf) as Hstep.
          rewrite E in Hstep; exact Hstep. }
  cbv zeta; split.
  - apply (proj1 (Hgen initialGate w)); cbn; discriminate.
  - intros Hno.
    assert (Hsf : singleFlight (fst (gateRun events initialGate w))).
    { apply (proj2 (Hgen initialGate w)); [assumption|].
      right; split; reflexivity. }
    destruct Hsf as [[Hp Hout]|[Hp Hout]]; rewrite Hp, Hout;
      cbn; split; try lia; split; intros; try reflexivity; discriminate.
Qed.



Lemma fallback_nonempty (context : ConversationContext.t) :
  getFallbackSuggestions context <> [].
Proof.
  unfold getFallbackSuggestions; cbv zeta.
  match goal with
  | |- match ?l with [] => _ | _ :: _ => _ end <> [] =>
      destruct l; discriminate
  end.
Qed.

(** X13. Once the answer to a request has arrived, whatever it was, the
    in-flight flag is cleared and the service has recorded the length of the
    transcript it asked about, so a trigger with fewer than 60 further
    characters sends no new request (no retry after a failure); and when the
    request failed, the list on screen is the non-empty rule-based list. *)
Theorem X13_answer_settles_the_request :
  forall (p : CoachingProps) (g : Gate) (reply : CoachingReply) (w : World),
    snd (fetchSuggestions p g) = true ->
    let asked := fst (fetchSuggestions p g) in
    let settled :=
      fst (completeRequest (List.length (outstanding g)) reply asked w) in
    isProcessing (cache settled) = false /\
    lastAnalyzedLength (cache settled) = len (transcript p) /\
    outstanding settled = outstanding g /\
    isLoading (view settled) = false /\
    (reply = CoachingThrew ->
     suggestions (view settled) = getFallbackSuggestions (contextOf p) /\
     suggestions (view settled) <> [] /\
     lastProcessedLength (view settled) = len (transcript p)) /\
    (forall p' : CoachingProps,
        (len (transcript p') - len (transcript p) < 60)%Z ->
        snd (fetchSuggestions p' settled) = false).
Proof.
  intros p g reply w Hsent asked settled.
  destruct (fetchSuggestions_request p g) as [_ Hafter].
  destruct (Hafter Hsent) as (Hout & _ & _ & _ & _).
  fold asked in Hout.
  assert (Hnth : nth_error (outstanding asked) (List.length (outstanding g))
                 = Some (contextOf p)).
  { rewrite Hout, nth_error_app2, Nat.sub_diag by lia; reflexivity. }
  assert (Hrem : remove_nth (List.length (outstanding g)) (outstanding asked)
                 = outstanding g).
  { rewrite Hout; clear; induction (outstanding g) as [|x l IH]; simpl;
      [reflexivity | rewrite IH; reflexivity]. }
  unfold settled, completeRequest; rewrite Hnth, Hrem.
  unfold getAICoachingSuggestions_resume, bind, ret, Date_now.
  assert (Hlen : len (ConversationContext.transcript (contextOf p))
                 = len (transcript p)) by reflexivity.
  assert (Hsuppressed :
    forall v l out p',
      (len (transcript p') - len (transcript p) < 60)%Z ->
      snd (fetchSuggestions p'
             (mkGate v (mkCache (len (transcript p)) l false) out)) = false).
  { intros v l out p' Hgrowth.
    unfold fetchSuggestions, getAICoachingSuggestions_begin;
      cbn [cache view outstanding isProcessing lastAnalyzedLength
           lastSuggestions].
    destruct (negb (isActive p') || _)%bool; [reflexivity|].
    destruct (_ <? 50)%Z; [reflexivity|].
    destruct (_ <? 15)%Z; [reflexivity|].
    assert (Hlen' : len (ConversationContext.transcript (contextOf p'))
                    = len (transcript p')) by reflexivity.
    rewrite Hlen'.
    destruct (Z.ltb_spec (len (transcript p') - len (transcript p)) 60);
      [reflexivity | lia]. }
  destruct reply as [|parsed]; cbn [fst snd cache view outstanding
    isProcessing lastAnalyzedLength lastSuggestions]; rewrite Hlen.
  - pose proof (fallback_nonempty (contextOf p)) as Hne.
    unfold receive.
    destruct (getFallbackSuggestions (contextOf p)) as [|x l] eqn:E;
      [contradiction|].
    cbn [suggestions lastProcessedLength isLoading]; rewrite Hlen.
    repeat split; try reflexivity; try discriminate.
    apply Hsuppressed.
  - unfold receive.
    destruct (mapi _ _ _);
      cbn [suggestions lastProcessedLength isLoading];
      repeat split; try reflexivity; try discriminate;
      apply Hsuppressed.
Qed.

Lemma X13_answer_settles_the_request_witness :
  snd (fetchSuggestions (propsAt transcript80) initialGate) = true /\
  isProcessing (cache gateAfterFirstFetch) = false /\
  lastAnalyzedLength (cache gateAfterFirstFetch) = 80%Z /\
  snd (fetchSuggestions (propsAt transcript100) gateAfterFirstFetch) = false.
Proof.
  split; [reflexivity|].
  destruct (X13_answer_settles_the_request (propsAt transcript80) initialGate
              CoachingThrew sampleWorld eq_refl)
    as (Hflag & Hlength & _ & _ & _ & Hnext).
  split; [exact Hflag|]; split; [exact Hlength|].
  apply (Hnext (propsAt transcript100)); vm_compute; reflexivity.
Defined.

(** ** More on the session store *)

Lemma set_currentCall_same (s : CallState) :
  set_currentCall (currentCall s) s = s.
Proof. destruct s; reflexivity. Qed.

Lemma uuid_eqb_eq (a b : uuid) : uuid_eqb a b = true <-> a = b.
Proof.
  destruct a as [x], b as [y]; simpl; rewrite Nat.eqb_eq.
  split; [intros ->; reflexivity | intros H; injection H; auto].
Qed.

Section StoreRuns.
Context `{Host}.

Lemma endCall_some (text : option string) (s : CallState)
      (c : Call.t) (w : World) :
  currentCall s = Some c ->
  exists (summary : CallSummary.t) (w' : World),
    endCall text s w
    = (mkCallState
         (Some (with_ended c (clock w) (Some summary)))
         (historyItem (with_ended c (clock w) (Some summary)) (clock w)
                      (CallSummary.summaryText summary)
                      (transcriptText (Call.transcript c))
          :: callHistory s)
         (theme s), w').
Proof.
  intros Hc; unfold endCall; rewrite Hc.
  unfold bind, ret, Date_now.
  destruct (generateBasicCallSummary _ _ w) as [summary w'].
  exists summary, w'; reflexivity.
Qed.

Lemma dispatch_history (a : StoreAction) (s : CallState) (w : World) :
  a <> DoClearHistory ->
  exists newer,
    callHistory (fst (dispatch a s w)) = newer ++ callHistory s /\
    (List.length newer <= if isEnding a then 1 else 0)%nat.
Proof.
  intros Hne; destruct a; try contradiction; cbn [dispatch isEnding].
  - exists []; split; [reflexivity | simpl; lia].
  - unfold endCall; destruct (currentCall s) as [c|].
    + unfold bind, ret, Date_now, generateBasicCallSummary, uuidv4;
        cbn [fst callHistory].
      eexists [ _ ]; split; [reflexivity | simpl; lia].
    + exists []; split; [reflexivity | simpl; lia].
  - unfold endCallWithAI, bind; destruct (currentCall s) as [c|].
    + unfold ret, Date_now, uuidv4.
      destruct (generateAISummary _ _ _ _ _ _) as [aiResult requested].
      destruct requested; cbn [fst callHistory];
        (eexists [ _ ]; split; [reflexivity | simpl; lia]).
    + exists []; split; [reflexivity | simpl; lia].
  - exists []; split; [reflexivity | simpl; lia].
  - exists []; split; [|simpl; lia].
    unfold toggleMute; destruct (currentCall s); reflexivity.
  - exists []; split; [|simpl; lia].
    unfold addTranscriptEntry, bind, ret, uuidv4;
      destruct (currentCall s); reflexivity.
  - exists []; split; [|simpl; lia].
    unfold updateTranscriptEntry; destruct (currentCall s); reflexivity.
  - exists []; split; [|simpl; lia].
    unfold updateExtraction; destruct (currentCall s); reflexivity.
  - exists []; split; [|simpl; lia].
    unfold setSummary, bind, ret, uuidv4, Date_now;
      destruct (currentCall s); reflexivity.
  - exists []; split; [|simpl; lia].
    unfold updateCallDuration; destruct (currentCall s); reflexivity.
  - exists []; split; [reflexivity | simpl; lia].
Qed.

(** X14. The history is append-only.  Along every sequence of store actions
    that does not clear the history, the history afterwards is the history
    before with new items in front, and there are at most as many new items
    as there were end-of-call actions. *)
Theorem X14_history_is_append_only :
  forall (actions : list StoreAction) (s : CallState) (w : World),
    (forall a, In a actions -> a <> DoClearHistory) ->
    exists newer : list CallHistoryItem.t,
      callHistory (fst (dispatchAll actions s w)) = newer ++ callHistory s /\
      (List.length newer <= List.length (filter isEnding actions))%nat.
Proof.
  induction actions as [|a actions IH]; intros s w Hno.
  - exists []; split; [reflexivity | simpl; lia].
  - cbn [dispatchAll]; unfold bind.
    destruct (dispatch_history a s w (Hno a (or_introl eq_refl)))
      as (n1 & Hh1 & Hl1).
    destruct (dispatch a s w) as [s1 w1]; cbn [fst] in Hh1.
    destruct (IH s1 w1) as (n2 & Hh2 & Hl2).
    { intros a' Hin; apply Hno; right; assumption. }
    exists (n2 ++ n1); split.
    + rewrite Hh2, Hh1, app_assoc; reflexivity.
    + rewrite length_app; cbn [filter].
      destruct (isEnding a); simpl in *; lia.
Qed.

(** X15. Without a current call nothing happens: every store action other
    than starting a call, switching the theme and clearing the history
    returns the state as it is and draws no identifier; so cancelling twice,
    or ending, muting, appending, merging or ticking after a cancel, changes
    nothing and does not fail. *)
Theorem X15_no_call_no_effect :
  forall (a : StoreAction) (s : CallState) (w : World),
    currentCall s = None ->
    isStartCall a = false ->
    a <> DoToggleTheme ->
    a <> DoClearHistory ->
    dispatch a s w = (s, w).
Proof.
  intros a s w Hnone Hstart Htheme Hclear.
  pose proof (set_currentCall_same s) as Hsame; rewrite Hnone in Hsame.
  destruct a; try discriminate; try contradiction; cbn [dispatch];
    unfold endCall, endCallWithAI, cancelCall, toggleMute, addTranscriptEntry,
      updateTranscriptEntry, updateExtraction, setSummary, updateCallDuration,
      bind, ret;
    rewrite ?Hnone; cbn [fst]; rewrite ?Hsame; reflexivity.
Qed.

Lemma dispatch_wellFormed (a : StoreAction) (s : CallState) (w : World) :
  wellFormedStore s -> wellFormedStore (fst (dispatch a s w)).
Proof.
  intros Hwf; pose proof Hwf as [Hcur Hhist].
  assert (Hkeep : forall c c',
             currentCall s = Some c ->
             Call.status c' = Call.status c ->
             Call.endedAt c' = Call.endedAt c ->
             (Call.summary c <> None -> Call.summary c' <> None) ->
             wellFormedStore (set_currentCall (Some c') s)).
  { intros c c' Hc Hst Hend Hsum; split; [|assumption].
    intros x Hx; injection Hx as <-.
    unfold wellFormedCall; rewrite Hst, Hend.
    destruct (Hcur c Hc) as [?|(? & ? & ?)]; [left | right]; auto. }
  assert (Hnone : wellFormedStore (set_currentCall None s))
    by (split; [discriminate | assumption]).
  destruct a; cbn [dispatch].
  - unfold startCall, bind, ret, uuidv4, Date_now; cbn; split; [|assumption].
    intros c Hc; injection Hc as <-; left; split; reflexivity.
  - destruct (currentCall s) as [c|] eqn:E;
      [|unfold endCall; rewrite E; exact Hwf].
    destruct (endCall_some summaryText s c w E) as (summary & w' & ->).
    cbn [fst]; split; cbn [currentCall callHistory].
    + intros c' Hc; injection Hc as <-; right.
      unfold with_ended; cbn [Call.status Call.endedAt Call.summary].
      repeat split; discriminate.
    + constructor; [|assumption].
      unfold historyItem;
        cbn [CallHistoryItem.summary CallHistoryItem.fullTranscript].
      split; discriminate.
  - unfold endCallWithAI, bind; destruct (currentCall s) as [c|] eqn:E;
      [|exact Hwf].
    unfold ret, Date_now, uuidv4.
    destruct (generateAISummary _ _ _ _ _ _) as [aiResult requested].
    destruct requested; cbn; (split;
      [intros c' Hc; injection Hc as <-; right; cbn;
       repeat split; discriminate
      | constructor; [cbn; split; discriminate | assumption]]).
  - exact Hnone.
  - unfold toggleMute; destruct (currentCall s) as [c|] eqn:E;
      [|exact Hnone].
    apply (Hkeep c); auto.
  - unfold addTranscriptEntry, bind, ret, uuidv4;
      destruct (currentCall s) as [c|] eqn:E; [|exact Hnone].
    apply (Hkeep c); auto.
  - unfold updateTranscriptEntry; destruct (currentCall s) as [c|] eqn:E;
      [|exact Hwf].
    apply (Hkeep c); auto.
  - unfold updateExtraction; destruct (currentCall s) as [c|] eqn:E;
      [|exact Hwf].
    apply (Hkeep c); auto; destruct c; reflexivity.
  - unfold setSummary, bind, ret, uuidv4, Date_now;
      destruct (currentCall s) as [c|] eqn:E; [|exact Hnone].
    apply (Hkeep c); auto; intros; discriminate.
  - unfold updateCallDuration; destruct (currentCall s) as [c|] eqn:E;
      [|exact Hnone].
    apply (Hkeep c); auto.
  - split; assumption.
  - split; [assumption | constructor].
Qed.

(** X16. Whatever sequence of actions the store is driven by from its
    initial state, the current call, if any, is active and not yet ended, or
    completed with its end time and a summary; the status cancelled never
    occurs (a cancelled call is dropped); and every item archived in the
    history carries a summary text and the full transcript. *)
Theorem X16_store_invariant :
  forall (actions : list StoreAction) (w : World),
    let s := fst (dispatchAll actions initialState w) in
    (forall c, currentCall s = Some c ->
       Call.status c <> cancelled /\
       (Call.status c = active <-> Call.endedAt c = None) /\
       (Call.status c = completed -> Call.summary c <> None)) /\
    (forall item, In item (callHistory s) ->
       CallHistoryItem.summary item <> None /\
       CallHistoryItem.fullTranscript item <> None).
Proof.
  intros actions w s.
  assert (Hwf : wellFormedStore s).
  { unfold s.
    assert (Hgen : forall s0 w0, wellFormedStore s0 ->
               wellFormedStore (fst (dispatchAll actions s0 w0))).
    { induction actions as [|a actions IH]; intros s0 w0 Hs0;
        [assumption|].
      cbn [dispatchAll]; unfold bind.
      pose proof (dispatch_wellFormed a s0 w0 Hs0) as Hstep.
      destruct (dispatch a s0 w0) as [s1 w1]; apply IH; assumption. }
    apply Hgen; split; [discriminate | constructor]. }
  destruct Hwf as [Hcall Hhist]; split.
  - intros c Hc.
    destruct (Hcall c Hc) as [[Hst Hend]|(Hst & Hend & Hsum)];
      rewrite Hst; repeat split; try discriminate; try assumption;
      try (intros; assumption); try reflexivity.
    intros Hnone; contradiction.
  - intros item Hin.
    rewrite Forall_forall in Hhist.
    exact (Hhist item Hin).
Qed.

(** X17. Ending is not guarded by the status: after [endCall] the ended call
    is still the current one, so ending it again archives it a second time,
    and the history then starts with two items that carry the same call
    identifier. *)
Theorem X17_ending_twice_archives_twice :
  forall (s : CallState) (c : Call.t) (text1 text2 : option string)
         (w : World),
    currentCall s = Some c ->
    let once := endCall text1 s w in
    let twice := endCall text2 (fst once) (snd once) in
    (exists ended,
        currentCall (fst once) = Some ended /\
        Call.id ended = Call.id c /\ Call.status ended = completed) /\
    exists item2 item1,
      callHistory (fst twice) = item2 :: item1 :: callHistory s /\
      CallHistoryItem.id item1 = Call.id c /\
      CallHistoryItem.id item2 = Call.id c.
Proof.
  intros s c text1 text2 w Hc once twice.
  destruct (endCall_some text1 s c w Hc) as (summary1 & w1 & E1).
  unfold twice, once; rewrite E1; cbn [fst snd].
  match goal with
  | |- context [ endCall text2 (mkCallState (Some ?ended) ?hist ?th) w1 ] =>
      destruct (endCall_some text2 (mkCallState (Some ended) hist th) ended w1
                             eq_refl) as (summary2 & w2 & ->)
  end.
  cbn [fst currentCall callHistory].
  split; [eexists; repeat split; reflexivity|].
  do 2 eexists; repeat split; reflexivity.
Qed.

Lemma find_uuid_none (id : uuid) (items : list CallHistoryItem.t) :
  find (fun call => uuid_eqb (CallHistoryItem.id call) id) items = None <->
  forall item, In item items -> CallHistoryItem.id item <> id.
Proof.
  split.
  - intros Hnone item Hin Heq.
    apply (find_none _ _ Hnone) in Hin.
    apply uuid_eqb_eq in Heq; congruence.
  - intros Hno; induction items as [|x l IH]; [reflexivity|]; simpl.
    destruct (uuid_eqb (CallHistoryItem.id x) id) eqn:E.
    + apply uuid_eqb_eq in E; exfalso; apply (Hno x); [left; reflexivity | assumption].
    + apply IH; intros; apply Hno; right; assumption.
Qed.

(** X18. Looking up an archived call.  [getCallById] answers with an item of
    the history that carries the identifier asked for, the most recent one
    when several do; it answers nothing exactly when no item carries it; right
    after [endCall] the identifier of the ended call finds the item just
    archived; and after [clearHistory] nothing is found. *)
Theorem X18_getCallById_finds_archived_call :
  (forall (id : uuid) (s : CallState) (item : CallHistoryItem.t),
      getCallById id s = Some item ->
      CallHistoryItem.id item = id /\
      exists newer older,
        callHistory s = newer ++ item :: older /\
        forall x, In x newer -> CallHistoryItem.id x <> id) /\
  (forall (id : uuid) (s : CallState),
      getCallById id s = None <->
      forall item, In item (callHistory s) -> CallHistoryItem.id item <> id) /\
  (forall (s : CallState) (c : Call.t) (text : option string) (w : World),
      currentCall s = Some c ->
      exists item,
        callHistory (fst (endCall text s w)) = item :: callHistory s /\
        getCallById (Call.id c) (fst (endCall text s w)) = Some item) /\
  (forall (id : uuid) (s : CallState),
      getCallById id (clearHistory s) = None).
Proof.
  split; [|split; [|split]].
  - intros id s item; unfold getCallById.
    induction (callHistory s) as [|x l IH]; simpl; [discriminate|].
    destruct (uuid_eqb (CallHistoryItem.id x) id) eqn:E.
    + intros Hx; injection Hx as <-.
      split; [apply uuid_eqb_eq; assumption|].
      exists [], l; split; [reflexivity | intros ? []].
    + intros Hfind; destruct (IH Hfind) as (Hid & newer & older & -> & Hnew).
      split; [assumption|].
      exists (x :: newer), older; split; [reflexivity|].
      intros y [<-|Hy]; [|auto].
      intros Heq; apply uuid_eqb_eq in Heq; congruence.
  - intros id s; apply find_uuid_none.
  - intros s c text w Hc.
    destruct (endCall_some text s c w Hc) as (summary & w' & ->).
    unfold getCallById; cbn [fst callHistory find historyItem with_ended
                             CallHistoryItem.id Call.id].
    eexists; split; [reflexivity|].
    assert (Hrefl : uuid_eqb (Call.id c) (Call.id c) = true)
      by (apply uuid_eqb_eq; reflexivity).
    rewrite Hrefl; reflexivity.
  - reflexivity.
Qed.

Lemma join_snoc (sep : string) (parts : list string) (p : string) :
  join sep (parts ++ [ p ]) =
  match parts with
  | [] => p
  | _ => join sep parts +++ sep +++ p
  end.
Proof.
  induction parts as [|x l IH]; [reflexivity|].
  destruct l as [|y l']; [reflexivity|].
  change (join sep ((x :: y :: l') ++ [p]))
    with (x +++ sep +++ join sep ((y :: l') ++ [p])).
  rewrite IH.
  change (join sep (x :: y :: l')) with (x +++ sep +++ join sep (y :: l')).
  rewrite !append_assoc_s; reflexivity.
Qed.

(** X19. [addTranscriptEntry] puts exactly one entry, with a fresh
    identifier, at the end of the transcript of the current call, whatever
    the status of that call; the earlier entries, the extraction and the
    history stay; and the transcript text grows by a space and the new text
    (by the new text alone when the transcript was empty). *)
Theorem X19_addTranscriptEntry_appends :
  forall (speaker : Speaker) (text : string) (timestamp : Z) (isFinal : bool)
         (s : CallState) (c : Call.t) (w : World),
    currentCall s = Some c ->
    let s' := fst (addTranscriptEntry speaker text timestamp isFinal s w) in
    exists c',
      currentCall s' = Some c' /\
      Call.transcript c' =
        Call.transcript c
        ++ [ TranscriptEntry.mk (Uuid (next_uuid w)) speaker text timestamp
                                isFinal ] /\
      transcriptText (Call.transcript c') =
        match Call.transcript c with
        | [] => text
        | _ => transcriptText (Call.transcript c) +++ " " +++ text
        end /\
      Call.id c' = Call.id c /\ Call.status c' = Call.status c /\
      Call.extraction c' = Call.extraction c /\
      callHistory s' = callHistory s /\
      next_uuid (snd (addTranscriptEntry speaker text timestamp isFinal s w))
        = S (next_uuid w).
Proof.
  intros speaker text timestamp isFinal s c w Hc s'.
  unfold s', addTranscriptEntry; rewrite Hc.
  unfold bind, ret, uuidv4; cbn.
  eexists; split; [reflexivity|]; cbn.
  split; [reflexivity|].
  split.
  { unfold transcriptText; rewrite map_app; cbn [map].
    rewrite join_snoc.
    destruct (Call.transcript c); reflexivity. }
  repeat split; reflexivity.
Qed.

(** X20. [updateTranscriptEntry] rewrites the text and the final flag of the
    entries that carry the given identifier and of no other: the transcript
    keeps its length, its identifiers, speakers and timestamps in order;
    when no entry carries the identifier the store stays as it is. *)
Theorem X20_updateTranscriptEntry_touches_only_its_entry :
  forall (id : uuid) (text : string) (isFinal : bool) (s : CallState)
         (c : Call.t),
    currentCall s = Some c ->
    let s' := updateTranscriptEntry id text isFinal s in
    exists c',
      currentCall s' = Some c' /\
      map TranscriptEntry.id (Call.transcript c')
        = map TranscriptEntry.id (Call.transcript c) /\
      map TranscriptEntry.speaker (Call.transcript c')
        = map TranscriptEntry.speaker (Call.transcript c) /\
      map TranscriptEntry.timestamp (Call.transcript c')
        = map TranscriptEntry.timestamp (Call.transcript c) /\
      (forall i old,
          nth_error (Call.transcript c) i = Some old ->
          exists new,
            nth_error (Call.transcript c') i = Some new /\
            (TranscriptEntry.id old = id ->
             TranscriptEntry.text new = text /\
             TranscriptEntry.isFinal new = isFinal) /\
            (TranscriptEntry.id old <> id -> new = old)) /\
      Call.extraction c' = Call.extraction c /\
      callHistory s' = callHistory s /\
      ((forall t, In t (Call.transcript c) -> TranscriptEntry.id t <> id) ->
       s' = s).
Proof.
  intros id text isFinal s c Hc s'.
  unfold s', updateTranscriptEntry; rewrite Hc; cbn.
  eexists; split; [reflexivity|]; cbn.
  set (f := fun t : TranscriptEntry.t =>
              if uuid_eqb (TranscriptEntry.id t) id
              then TranscriptEntry.mk (TranscriptEntry.id t)
                     (TranscriptEntry.speaker t) text
                     (TranscriptEntry.timestamp t) isFinal
              else t).
  assert (Hfield : forall (A : Type) (proj : TranscriptEntry.t -> A),
             (forall t, proj (f t) = proj t) ->
             map proj (map f (Call.transcript c))
             = map proj (Call.transcript c)).
  { intros A proj Hp; rewrite map_map; apply map_ext; exact Hp. }
  split; [apply Hfield; intros t; unfold f; destruct (uuid_eqb _ _); reflexivity|].
  split; [apply Hfield; intros t; unfold f; destruct (uuid_eqb _ _); reflexivity|].
  split; [apply Hfield; intros t; unfold f; destruct (uuid_eqb _ _); reflexivity|].
  split.
  { intros i old Hold.
    exists (f old); split; [rewrite nth_error_map, Hold; reflexivity|].
    unfold f; split.
    - intros Heq; apply uuid_eqb_eq in Heq; rewrite Heq; split; reflexivity.
    - intros Hne; destruct (uuid_eqb (TranscriptEntry.id old) id) eqn:E;
        [apply uuid_eqb_eq in E; contradiction | reflexivity]. }
  split; [reflexivity|].
  split; [reflexivity|].
  intros Hno.
  assert (Hid : map f (Call.transcript c) = Call.transcript c).
  { rewrite <- (map_id (Call.transcript c)) at 2.
    apply map_ext_in; intros t Hin; unfold f.
    destruct (uuid_eqb (TranscriptEntry.id t) id) eqn:E; [|reflexivity].
    apply uuid_eqb_eq in E; exfalso; exact (Hno t Hin E). }
  rewrite Hid.
  destruct s as [cur hist th]; cbn in *; subst cur.
  destruct c; reflexivity.
Qed.

End StoreRuns.

Lemma X14_history_is_append_only_witness :
  let H := sampleHost in
  exists newer : list CallHistoryItem.t,
    callHistory (fst (dispatchAll [ DoStartCall alice; DoEndCall None;
                                    DoCancelCall; DoStartCall bob ]
                                  initialState sampleWorld))
      = newer ++ callHistory initialState /\
    (List.length newer <= 1)%nat.
Proof.
  intros H.
  apply (X14_history_is_append_only
           [ DoStartCall alice; DoEndCall None; DoCancelCall; DoStartCall bob ]
           initialState sampleWorld).
  intros a [<-|[<-|[<-|[<-|[]]]]]; discriminate.
Defined.

Lemma X15_no_call_no_effect_witness :
  let H := sampleHost in
  dispatch (DoAddTranscriptEntry user "hello" 5 true) initialState sampleWorld
    = (initialState, sampleWorld).
Proof.
  intros H.
  apply (X15_no_call_no_effect (DoAddTranscriptEntry user "hello" 5 true)
           initialState sampleWorld);
    [reflexivity | reflexivity | discriminate | discriminate].
Defined.

Lemma X17_ending_twice_archives_twice_witness :
  let H := sampleHost in
  exists item2 item1 : CallHistoryItem.t,
    callHistory
      (fst (endCall None (fst (endCall None sampleActive sampleWorld))
                         (snd (endCall None sampleActive sampleWorld))))
      = [ item2; item1 ] /\
    CallHistoryItem.id item1 = Uuid 0 /\
    CallHistoryItem.id item2 = Uuid 0.
Proof.
  intros H.
  destruct (X17_ending_twice_archives_twice sampleActive sampleCall None None
              sampleWorld eq_refl)
    as [_ (item2 & item1 & Hhistory & Hid1 & Hid2)].
  exists item2, item1; split; [exact Hhistory|].
  split; [exact Hid1 | exact Hid2].
Defined.

Lemma X19_addTranscriptEntry_appends_witness :
  exists c' : Call.t,
    currentCall (fst (addTranscriptEntry user "hello" 5 true sampleActive
                                         sampleWorld)) = Some c' /\
    Call.transcript c' = [ TranscriptEntry.mk (Uuid 0) user "hello" 5 true ] /\
    transcriptText (Call.transcript c') = "hello".
Proof.
  destruct (X19_addTranscriptEntry_appends user "hello" 5 true sampleActive
              sampleCall sampleWorld eq_refl)
    as (c' & Hcurrent & Hentries & Htext & _).
  exists c'; split; [exact Hcurrent|].
  split; [exact Hentries | exact Htext].
Defined.

Lemma X20_updateTranscriptEntry_touches_only_its_entry_witness :
  exists c' : Call.t,
    currentCall
      (updateTranscriptEntry (Uuid 0) "hello" true
         (fst (addTranscriptEntry user "helo" 5 false sampleActive
                                  sampleWorld))) = Some c' /\
    map TranscriptEntry.id (Call.transcript c') = [ Uuid 0 ] /\
    exists entry : TranscriptEntry.t,
      nth_error (Call.transcript c') 0 = Some entry /\
      TranscriptEntry.text entry = "hello" /\
      TranscriptEntry.isFinal entry = true.
Proof.
  destruct (X20_updateTranscriptEntry_touches_only_its_entry
              (Uuid 0) "hello" true
              (fst (addTranscriptEntry user "helo" 5 false sampleActive
                                       sampleWorld))
              _ eq_refl)
    as (c' & Hcurrent & Hids & _ & _ & Hentries & _).
  exists c'; split; [exact Hcurrent|].
  split; [exact Hids|].
  destruct (Hentries 0%nat _ eq_refl) as (entry & Hentry & Hsame & _).
  exists entry; split; [exact Hentry|].
  apply Hsame; reflexivity.
Defined.


(** ** The handlers that feed the store *)

Lemma sentimentTruthy_analysis (text fullTranscript : string) (w : World) :
  sentimentTruthy (extraction (analysis text fullTranscript w)) = true.
Proof.
  unfold sentimentTruthy.
  destruct (analyzeText_sentiment text fullTranscript w) as [-> _].
  destruct (fst (sentimentOf _ _)); reflexivity.
Qed.

(** The call after one final speech result was handled. *)
Lemma handleSpeechResult_final (s : CallState) (v : AppView) (c : Call.t)
      (chunk : string) (w : World) :
  currentCall s = Some c ->
  Call.status c = active ->
  let full := transcriptText (Call.transcript c) +++ " " +++ chunk in
  let w1 := mkWorld (S (next_uuid w)) (clock w) in
  handleSpeechResult (Some c) chunk true (s, v) w =
  ((set_currentCall
      (Some (Call.mk (Call.id c) (Call.customer c) (Call.startedAt c)
               (Call.endedAt c) (Call.duration c) (Call.status c)
               (Call.transcript c
                ++ [ TranscriptEntry.mk (Uuid (next_uuid w)) user chunk
                                        (clock w) true ])
               (mergeExtraction (Call.extraction c)
                  (extraction (analysis chunk full w1)))
               (Call.summary c) (Call.isMuted c))) s,
    mkAppView "" (textInput v)),
   snd (analyzeText chunk full w1)).
Proof.
  intros Hc Hactive full w1.
  unfold handleSpeechResult, isActiveCall; rewrite Hactive; cbn [negb].
  unfold bind at 1; unfold Date_now at 1.
  unfold bind at 1; unfold addTranscriptEntry; cbn [fst]; rewrite Hc.
  unfold bind at 1; unfold uuidv4 at 1; unfold ret at 1.
  fold w1; unfold bind at 1; fold full.
  pose proof (sentimentTruthy_analysis chunk full w1) as Htruthy.
  unfold analysis in *.
  destruct (analyzeText chunk full w1) as [r w2]; cbn [fst snd] in *.
  rewrite Htruthy, orb_true_r.
  unfold ret, updateExtraction; cbn [currentCall set_currentCall].
  unfold set_extraction; cbn.
  rewrite ?Hactive; reflexivity.
Qed.

Lemma mergeExtraction_promises (e : CallExtraction.t)
      (text fullTranscript : string) (w : World) :
  List.length (CallExtraction.promises
                 (mergeExtraction e (extraction (analysis text fullTranscript w))))
  = (List.length (CallExtraction.promises e)
     + if hasPromise text then 1 else 0)%nat.
Proof.
  unfold mergeExtraction; cbn [CallExtraction.promises].
  rewrite analyzeText_promises.
  destruct (hasPromise text); [rewrite length_app; reflexivity | lia].
Qed.

Lemma mergeExtraction_objections (e : CallExtraction.t)
      (text fullTranscript : string) (w : World) :
  List.length (CallExtraction.objections
                 (mergeExtraction e (extraction (analysis text fullTranscript w))))
  = (List.length (CallExtraction.objections e)
     + if hasObjection text then 1 else 0)%nat.
Proof.
  unfold mergeExtraction; cbn [CallExtraction.objections].
  rewrite analyzeText_objections.
  destruct (hasObjection text); [rewrite length_app; reflexivity | lia].
Qed.

(** X21. No loss, no de-duplication, from the microphone to the store.  When
    final speech results arrive one after the other during an active call,
    each handled by [handleSpeechResult], the call stays the same active
    call, its transcript grows by exactly the chunks in order, the number of
    accumulated promises grows by the number of chunks that contain a promise
    keyword and the number of objections by the number of chunks that contain
    an objection keyword (a chunk said twice counts twice), and the history
    is not touched. *)
Theorem X21_speech_session_accumulates :
  forall (chunks : list string) (s : CallState) (v : AppView) (c : Call.t)
         (w : World),
    currentCall s = Some c ->
    Call.status c = active ->
    let s' := fst (fst (speechSession chunks (s, v) w)) in
    exists c' : Call.t,
      currentCall s' = Some c' /\
      Call.id c' = Call.id c /\
      Call.status c' = active /\
      map TranscriptEntry.text (Call.transcript c')
        = map TranscriptEntry.text (Call.transcript c) ++ chunks /\
      List.length (CallExtraction.promises (Call.extraction c'))
        = (List.length (CallExtraction.promises (Call.extraction c))
           + List.length (filter hasPromise chunks))%nat /\
      List.length (CallExtraction.objections (Call.extraction c'))
        = (List.length (CallExtraction.objections (Call.extraction c))
           + List.length (filter hasObjection chunks))%nat /\
      callHistory s' = callHistory s.
Proof.
  induction chunks as [|chunk chunks IH]; intros s v c w Hc Hactive.
  - exists c; cbn; rewrite app_nil_r, !Nat.add_0_r; auto 8.
  - cbn [speechSession]; unfold bind; cbn [fst]; rewrite Hc.
    rewrite (handleSpeechResult_final s v c chunk w Hc Hactive).
    match goal with
    | |- context [speechSession chunks (set_currentCall (Some ?c1) s, ?v1) ?w1] =>
        destruct (IH (set_currentCall (Some c1) s) v1 c1 w1 eq_refl Hactive)
          as (c' & Hc' & Hid & Hst & Htr & Hpr & Hob & Hh)
    end.
    exists c'; split; [exact Hc'|].
    split; [rewrite Hid; reflexivity|].
    split; [exact Hst|].
    split.
    { rewrite Htr; cbn [Call.transcript]; rewrite map_app, <- app_assoc;
        reflexivity. }
    split.
    { rewrite Hpr; cbn [Call.extraction]; rewrite mergeExtraction_promises.
      cbn [filter]; destruct (hasPromise chunk); simpl; lia. }
    split.
    { rewrite Hob; cbn [Call.extraction]; rewrite mergeExtraction_objections.
      cbn [filter]; destruct (hasObjection chunk); simpl; lia. }
    rewrite Hh; reflexivity.
Qed.

Lemma X21_speech_session_accumulates_witness :
  exists c' : Call.t,
    currentCall
      (fst (fst (speechSession
                   [ "I promise I will pay KES 5,000 by Friday";
                     "but I am unemployed since last month" ]
                   (sampleActive, mkAppView "" "") sampleWorld))) = Some c' /\
    map TranscriptEntry.text (Call.transcript c')
      = [ "I promise I will pay KES 5,000 by Friday";
          "but I am unemployed since last month" ] /\
    List.length (CallExtraction.promises (Call.extraction c')) = 1%nat /\
    List.length (CallExtraction.objections (Call.extraction c')) = 1%nat.
Proof.
  destruct (X21_speech_session_accumulates
              [ "I promise I will pay KES 5,000 by Friday";
                "but I am unemployed since last month" ]
              sampleActive (mkAppView "" "") sampleCall sampleWorld
              eq_refl eq_refl)
    as (c' & Hcurrent & _ & _ & Htexts & Hpromises & Hobjections & _).
  exists c'; split; [exact Hcurrent|].
  split; [exact Htexts|].
  split; [exact Hpromises | exact Hobjections].
Defined.

Lemma toLowerCase_append (a b : string) :
  toLowerCase (a +++ b) = toLowerCase a +++ toLowerCase b.
Proof. induction a as [|x a IH]; simpl; [reflexivity | rewrite IH; reflexivity]. Qed.

Lemma includes_in_longer (a b kw : string) :
  includes b kw = true -> includes (a +++ b) kw = true.
Proof.
  intros Hb; apply includes_substring in Hb as (pre & post & ->).
  apply includes_substring; exists (a +++ pre), post.
  rewrite append_assoc_s; reflexivity.
Qed.

Lemma hits_monotone (kws : list string) (l1 l2 : string) :
  (forall kw, includes l1 kw = true -> includes l2 kw = true) ->
  (hits kws l1 <= hits kws l2)%Z.
Proof.
  intros Hmono; unfold hits.
  apply inj_le.
  induction kws as [|kw kws IH]; simpl; [lia|].
  destruct (includes l1 kw) eqn:E1.
  - rewrite (Hmono kw E1); simpl; lia.
  - destruct (includes l2 kw); simpl; lia.
Qed.

Lemma hits_positive (kws : list string) (l : string) :
  (exists kw, In kw kws /\ includes l kw = true) -> (1 <= hits kws l)%Z.
Proof.
  intros (kw & Hin & Hinc); unfold hits.
  assert (Hf : In kw (filter (includes l) kws))
    by (apply filter_In; split; assumption).
  destruct (filter (includes l) kws); [contradiction | simpl; lia].
Qed.

(** X22. Because [handleSpeechResult] hands the chunk to [analyzeText] both
    as the chunk and as the end of the full transcript, the keywords of the
    chunk count twice: one final chunk with a positive keyword, in a
    transcript without any negative keyword, leaves the call with the label
    positive and a score of at least 80; and symmetrically one chunk with a
    negative keyword, in a transcript without any positive keyword, leaves the
    label negative and a score of at most 20. *)
Theorem X22_one_keyword_decides_the_sentiment :
  forall (s : CallState) (v : AppView) (c : Call.t) (chunk : string)
         (w : World),
    currentCall s = Some c ->
    Call.status c = active ->
    let full := transcriptText (Call.transcript c) +++ " " +++ chunk in
    let s' := fst (fst (handleSpeechResult (Some c) chunk true (s, v) w)) in
    ((exists kw, In kw POSITIVE_KEYWORDS /\
                 includes (toLowerCase chunk) kw = true) ->
     (forall kw, In kw NEGATIVE_KEYWORDS ->
                 includes (toLowerCase full) kw = false) ->
     exists c',
       currentCall s' = Some c' /\
       CallExtraction.sentiment (Call.extraction c') = positive /\
       (80 <= CallExtraction.sentimentScore (Call.extraction c') <= 95)%Z) /\
    ((exists kw, In kw NEGATIVE_KEYWORDS /\
                 includes (toLowerCase chunk) kw = true) ->
     (forall kw, In kw POSITIVE_KEYWORDS ->
                 includes (toLowerCase full) kw = false) ->
     exists c',
       currentCall s' = Some c' /\
       CallExtraction.sentiment (Call.extraction c') = negative /\
       (5 <= CallExtraction.sentimentScore (Call.extraction c') <= 20)%Z).
Proof.
  intros s v c chunk w Hc Hactive full s'.
  unfold s'; rewrite (handleSpeechResult_final s v c chunk w Hc Hactive).
  cbn [fst set_currentCall currentCall]; fold full.
  set (w1 := mkWorld (S (next_uuid w)) (clock w)).
  destruct (analyzeText_sentiment chunk full w1) as [Hl Hs].
  assert (Hsub : forall kw, includes (toLowerCase chunk) kw = true ->
                            includes (toLowerCase full) kw = true).
  { intros kw Hin; unfold full.
    rewrite <- append_assoc_s, toLowerCase_append.
    apply includes_in_longer; assumption. }
  assert (Hnone : forall kws,
             (forall kw, In kw kws -> includes (toLowerCase full) kw = false) ->
             hits kws (toLowerCase chunk) = 0%Z /\
             hits kws (toLowerCase full) = 0%Z).
  { intros kws Hno; split; apply hits_none; [|assumption].
    intros kw Hin; specialize (Hno kw Hin).
    destruct (includes (toLowerCase chunk) kw) eqn:E; [|reflexivity].
    rewrite (Hsub kw E) in Hno; discriminate. }
  assert (Hsome : forall kws,
             (exists kw, In kw kws /\ includes (toLowerCase chunk) kw = true) ->
             (2 <= hits kws (toLowerCase chunk) + hits kws (toLowerCase full))%Z).
  { intros kws Hex.
    pose proof (hits_positive kws (toLowerCase chunk) Hex).
    pose proof (hits_monotone kws (toLowerCase chunk) (toLowerCase full) Hsub).
    lia. }
  split; intros Hex Hno; eexists; (split; [reflexivity|]);
    cbn [Call.extraction]; unfold mergeExtraction;
    cbn [CallExtraction.sentiment CallExtraction.sentimentScore];
    rewrite Hl, Hs; unfold totalPositive, totalNegative.
  - destruct (Hnone _ Hno) as [-> ->].
    pose proof (Hsome _ Hex) as Htwo.
    unfold sentimentOf.
    destruct (Z.gtb_spec (hits POSITIVE_KEYWORDS (toLowerCase chunk)
                          + hits POSITIVE_KEYWORDS (toLowerCase full))
                         (0 + 0 + 1)); [|lia].
    cbn [fst snd]; split; [reflexivity | lia].
  - destruct (Hnone _ Hno) as [-> ->].
    pose proof (Hsome _ Hex) as Htwo.
    unfold sentimentOf.
    destruct (Z.gtb_spec (0 + 0)
                (hits NEGATIVE_KEYWORDS (toLowerCase chunk)
                 + hits NEGATIVE_KEYWORDS (toLowerCase full) + 1)); [lia|].
    destruct (Z.gtb_spec (hits NEGATIVE_KEYWORDS (toLowerCase chunk)
                          + hits NEGATIVE_KEYWORDS (toLowerCase full))
                         (0 + 0 + 1)); [|lia].
    cbn [fst snd]; split; [reflexivity | lia].
Qed.

Lemma X22_one_keyword_decides_the_sentiment_witness :
  exists c' : Call.t,
    currentCall
      (fst (fst (handleSpeechResult (Some sampleCall) "thank you" true
                   (sampleActive, mkAppView "" "") sampleWorld))) = Some c' /\
    CallExtraction.sentiment (Call.extraction c') = positive /\
    (80 <= CallExtraction.sentimentScore (Call.extraction c') <= 95)%Z.
Proof.
  destruct (X22_one_keyword_decides_the_sentiment
              sampleActive (mkAppView "" "") sampleCall "thank you"
              sampleWorld eq_refl eq_refl) as [Hpositive _].
  apply Hpositive.
  - exists "thank"; split; [simpl; tauto | reflexivity].
  - intros kw Hin; simpl in Hin.
    repeat (destruct Hin as [<-|Hin]; [reflexivity|]).
    contradiction.
Defined.

(** ** Trimming and the response cleaner *)

Lemma list_of_append (a b : string) :
  list_ascii_of_string (a +++ b)
  = list_ascii_of_string a ++ list_ascii_of_string b.
Proof. induction a as [|x a IH]; simpl; [reflexivity | rewrite IH; reflexivity]. Qed.

Lemma string_of_app (a b : list ascii) :
  string_of_list_ascii (a ++ b)
  = string_of_list_ascii a +++ string_of_list_ascii b.
Proof. induction a as [|x a IH]; simpl; [reflexivity | rewrite IH; reflexivity]. Qed.

Lemma rev_string_list (s acc : string) :
  rev_string s acc =
  string_of_list_ascii (rev (list_ascii_of_string s))
  +++ acc.
Proof.
  revert acc; induction s as [|c s IH]; intros acc; simpl; [reflexivity|].
  rewrite IH, string_of_app, append_assoc_s; reflexivity.
Qed.

Lemma rev_string_nil (s : string) :
  rev_string s EmptyString
  = string_of_list_ascii (rev (list_ascii_of_string s)).
Proof. rewrite rev_string_list, append_nil_r_s; reflexivity. Qed.

Lemma trim_start_list (s : string) :
  trim_start s = string_of_list_ascii (dropSpaces (list_ascii_of_string s)).
Proof.
  induction s as [|c s IH]; simpl; [reflexivity|].
  destruct (is_space c); [assumption|].
  simpl; rewrite string_of_list_ascii_of_string; reflexivity.
Qed.

Lemma trim_list (s : string) :
  trim s = string_of_list_ascii (trimList (list_ascii_of_string s)).
Proof.
  unfold trim, trimList.
  rewrite !rev_string_nil, !trim_start_list,
    !list_ascii_of_string_of_list_ascii.
  reflexivity.
Qed.

Lemma dropSpaces_headOK (l : list ascii) : headOK (dropSpaces l).
Proof.
  induction l as [|c l IH]; simpl; [exact I|].
  destruct (is_space c) eqn:E; [assumption | simpl; assumption].
Qed.

Lemma dropSpaces_fix (l : list ascii) : headOK l -> dropSpaces l = l.
Proof. destruct l as [|c l]; simpl; [reflexivity | intros ->; reflexivity]. Qed.

Lemma headOK_app (u v : list ascii) : u <> [] -> headOK (u ++ v) -> headOK u.
Proof. destruct u; [contradiction | simpl; auto]. Qed.

Lemma dropSpaces_lastOK (l : list ascii) :
  headOK (rev l) -> headOK (rev (dropSpaces l)).
Proof.
  induction l as [|c l IH]; simpl; [auto|].
  destruct (is_space c) eqn:E; [|auto].
  intros Hlast; apply IH.
  destruct l as [|d l]; [simpl in Hlast; congruence|].
  apply (headOK_app _ [c]); [|assumption].
  simpl; intros Hnil; apply app_eq_nil in Hnil as [_ Hnil]; discriminate.
Qed.

Lemma dropSpaces_spaces (sp x : list ascii) :
  Forall (fun c => is_space c = true) sp ->
  dropSpaces (sp ++ x) = dropSpaces x.
Proof.
  induction 1 as [|c sp Hc _ IH]; simpl; [reflexivity|].
  rewrite Hc; assumption.
Qed.

Lemma dropSpaces_spaces_only (sp : list ascii) :
  Forall (fun c => is_space c = true) sp -> dropSpaces sp = [].
Proof.
  intros H; rewrite <- (app_nil_r sp), dropSpaces_spaces by assumption.
  reflexivity.
Qed.

Lemma dropSpaces_length (l : list ascii) :
  (List.length (dropSpaces l) <= List.length l)%nat.
Proof.
  induction l as [|c l IH]; simpl; [lia|].
  destruct (is_space c); simpl; lia.
Qed.

Lemma trimList_edges (l : list ascii) :
  headOK (trimList l) /\ headOK (rev (trimList l)).
Proof.
  unfold trimList; split; [apply dropSpaces_headOK|].
  apply dropSpaces_lastOK; rewrite rev_involutive; apply dropSpaces_headOK.
Qed.

Lemma trimList_fix (l : list ascii) :
  headOK l -> headOK (rev l) -> trimList l = l.
Proof.
  intros Hh Hl; unfold trimList.
  rewrite (dropSpaces_fix (rev l) Hl), rev_involutive.
  apply dropSpaces_fix; assumption.
Qed.

Lemma trimList_length (l : list ascii) :
  (List.length (trimList l) <= List.length l)%nat.
Proof.
  unfold trimList.
  pose proof (dropSpaces_length (rev (dropSpaces (rev l)))) as H1.
  pose proof (dropSpaces_length (rev l)) as H2.
  rewrite !length_rev in *; lia.
Qed.

Lemma trimList_padded (sp1 body sp2 : list ascii) :
  Forall (fun c => is_space c = true) sp1 ->
  Forall (fun c => is_space c = true) sp2 ->
  headOK body -> headOK (rev body) ->
  trimList (sp1 ++ body ++ sp2) = body.
Proof.
  intros H1 H2 Hh Hl; unfold trimList.
  rewrite !rev_app_distr, <- app_assoc.
  rewrite dropSpaces_spaces by (apply Forall_rev; assumption).
  destruct body as [|b body'] eqn:Eb.
  - cbn [rev app].
    rewrite (dropSpaces_spaces_only (rev sp1)) by (apply Forall_rev; exact H1).
    reflexivity.
  - rewrite <- Eb in *.
    assert (Hne : rev body <> []).
    { rewrite Eb; simpl; intros Hnil; apply app_eq_nil in Hnil as [_ Hnil];
        discriminate. }
    rewrite (dropSpaces_fix (rev body ++ rev sp1)).
    + rewrite rev_app_distr, !rev_involutive.
      rewrite dropSpaces_spaces by assumption.
      apply dropSpaces_fix; assumption.
    + destruct (rev body); [contradiction | exact Hl].
Qed.

Lemma length_list_of_string (s : string) :
  List.length (list_ascii_of_string s) = String.length s.
Proof. induction s as [|c s IH]; simpl; [reflexivity | rewrite IH; reflexivity]. Qed.

Lemma trim_isTrimmed (s : string) : isTrimmed (trim s).
Proof.
  unfold isTrimmed; rewrite trim_list, list_ascii_of_string_of_list_ascii.
  apply trimList_edges.
Qed.

Lemma trim_fix (s : string) : isTrimmed s -> trim s = s.
Proof.
  intros [Hh Hl]; rewrite trim_list, trimList_fix by assumption.
  apply string_of_list_ascii_of_string.
Qed.

Lemma trim_length (s : string) : (String.length (trim s) <= String.length s)%nat.
Proof.
  rewrite trim_list, <- !length_list_of_string,
    list_ascii_of_string_of_list_ascii.
  apply trimList_length.
Qed.

Lemma trim_padded (sp1 body sp2 : string) :
  isBlank sp1 -> isBlank sp2 -> isTrimmed body ->
  trim (sp1 +++ body +++ sp2) = body.
Proof.
  intros H1 H2 [Hh Hl].
  rewrite trim_list, !list_of_append, trimList_padded by assumption.
  apply string_of_list_ascii_of_string.
Qed.


Lemma slice_from_append (p x : string) :
  slice_from (String.length p) (p +++ x) = x.
Proof. induction p as [|c p IH]; simpl; [destruct x; reflexivity | assumption]. Qed.

Lemma slice_from_length (n : nat) (s : string) :
  (String.length (slice_from n s) <= String.length s)%nat.
Proof.
  revert s; induction n as [|n IH]; intros [|c s]; simpl; try lia.
  specialize (IH s); lia.
Qed.

Lemma endsWith_append (x p : string) : endsWith (x +++ p) p = true.
Proof.
  unfold endsWith; rewrite !rev_string_nil, list_of_append, rev_app_distr,
    string_of_app.
  apply prefix_append.
Qed.

(** X23. [cleanJsonResponse] never returns text with white space at either
    end and never returns more than it was given; a response wrapped in a
    json code fence, with any white space around the fence and around the
    body, is unwrapped to the body; and a response without fences is just
    trimmed. *)
Theorem X23_cleanJsonResponse_unwraps :
  (forall text : string,
      isTrimmed (cleanJsonResponse text) /\
      trim (cleanJsonResponse text) = cleanJsonResponse text /\
      (String.length (cleanJsonResponse text) <= String.length text)%nat) /\
  (forall sp0 sp1 body sp2 sp3 : string,
      isBlank sp0 -> isBlank sp1 -> isBlank sp2 -> isBlank sp3 ->
      isTrimmed body ->
      cleanJsonResponse
        (sp0 +++ ("```json" +++ (sp1 +++ body +++ sp2) +++ fence) +++ sp3)
      = body) /\
  (forall text : string,
      String.prefix fence (trim text) = false ->
      endsWith (trim text) fence = false ->
      cleanJsonResponse text = trim text).
Proof.
  split; [|split].
  - intros text; unfold cleanJsonResponse; cbv zeta.
    split; [apply trim_isTrimmed|].
    split; [apply trim_fix, trim_isTrimmed|].
    match goal with
    | |- (String.length (trim ?inner) <= _)%nat =>
        pose proof (trim_length inner) as Hout;
        assert (Hinner : (String.length inner <= String.length (trim text))%nat)
    end.
    { set (t := trim text).
      set (u := if String.prefix "```json" t then slice_from 7 t
                else if String.prefix fence t then slice_from 3 t else t).
      assert (Hu : (String.length u <= String.length t)%nat).
      { unfold u; destruct (String.prefix "```json" t);
          [apply slice_from_length|].
        destruct (String.prefix fence t); [apply slice_from_length | lia]. }
      destruct (endsWith u fence); [rewrite slice0_length|]; lia. }
    pose proof (trim_length text); lia.
  - intros sp0 sp1 body sp2 sp3 H0 H1 H2 H3 Hbody.
    unfold cleanJsonResponse; cbv zeta.
    assert (Hfenced : isTrimmed
                        ("```json" +++ (sp1 +++ body +++ sp2) +++ fence)).
    { split; [reflexivity|].
      rewrite <- append_assoc_s, list_of_append, rev_app_distr.
      reflexivity. }
    rewrite (trim_padded sp0 _ sp3 H0 H3 Hfenced).
    rewrite prefix_append.
    change 7%nat with (String.length "```json").
    rewrite slice_from_append.
    rewrite endsWith_append.
    rewrite length_append_s.
    change (String.length fence) with 3%nat.
    rewrite Nat.add_sub, slice0_append.
    apply trim_padded; assumption.
  - intros text Hno Hend.
    unfold cleanJsonResponse; cbv zeta.
    assert (Hjson : String.prefix "```json" (trim text) = false).
    { destruct (String.prefix "```json" (trim text)) eqn:E; [|reflexivity].
      apply prefix_split in E.
      assert (Hf : String.prefix fence (trim text) = true).
      { rewrite E.
        change "```json" with (fence +++ "json").
        rewrite append_assoc_s; apply prefix_append. }
      congruence. }
    rewrite Hjson, Hno, Hend.
    apply trim_fix, trim_isTrimmed.
Qed.

Lemma X23_cleanJsonResponse_unwraps_witness :
  cleanJsonResponse
    (" " +++ ("```json" +++ (String "010" "" +++ "{ok: [1, 2]}" +++ "  ")
              +++ fence) +++ String "010" "")
  = "{ok: [1, 2]}".
Proof.
  apply (proj1 (proj2 X23_cleanJsonResponse_unwraps));
    try (repeat constructor); split; reflexivity.
Defined.

(** ** Typed text, audio transcripts and the history search *)




(** What one piece of typed or transcribed text does to the current call: the
    entry is appended and the analysis of the piece is merged. *)
Lemma entry_then_merge (entryText analysed fullTranscript : string)
      (s : CallState) (c : Call.t) (w : World) :
  currentCall s = Some c ->
  (now <- Date_now ;;
   s1 <- addTranscriptEntry user entryText now true s ;;
   r <- analyzeText analysed fullTranscript ;;
   ret (updateExtraction (extraction r) s1)) w =
  (set_currentCall
     (Some (callWithEntry c entryText analysed fullTranscript w)) s,
   snd (analyzeText analysed fullTranscript
                    (mkWorld (S (next_uuid w)) (clock w)))).
Proof.
  intros Hc; unfold callWithEntry.
  set (w1 := mkWorld (S (next_uuid w)) (clock w)).
  unfold bind at 1; unfold Date_now at 1.
  unfold bind at 1; unfold addTranscriptEntry; rewrite Hc.
  unfold bind at 1; unfold uuidv4 at 1; unfold ret at 1.
  fold w1; unfold bind at 1.
  unfold analysis.
  destruct (analyzeText analysed fullTranscript w1) as [r w2]; cbn [fst snd].
  unfold ret, updateExtraction; cbn [currentCall set_currentCall].
  unfold set_extraction; cbn.
  reflexivity.
Qed.

Lemma audioLineSteps_cons (text line : string) (lines : list string)
      (s : CallState) (c : Call.t) (w : World) :
  currentCall s = Some c ->
  audioLineSteps text (line :: lines) s w
  = audioLineSteps text lines
      (set_currentCall (Some (callWithEntry c (trim line) line text w)) s)
      (snd (analyzeText line text (mkWorld (S (next_uuid w)) (clock w)))).
Proof.
  intros Hc; cbn [audioLineSteps]; unfold bind at 1; unfold audioLineStep.
  rewrite (entry_then_merge (trim line) line text s c w Hc); reflexivity.
Qed.

Lemma dropSpaces_In (x : ascii) (l : list ascii) :
  In x (dropSpaces l) -> In x l.
Proof.
  induction l as [|c l IH]; simpl; [auto|].
  destruct (is_space c); [auto | simpl; auto].
Qed.

Lemma trim_In (x : ascii) (s : string) :
  In x (list_ascii_of_string (trim s)) -> In x (list_ascii_of_string s).
Proof.
  rewrite trim_list, list_ascii_of_string_of_list_ascii; unfold trimList.
  intros Hin; apply dropSpaces_In, in_rev, dropSpaces_In, in_rev in Hin.
  assumption.
Qed.

Lemma split_on_pieces (sep : ascii -> bool) (s : string) :
  forall cur : string,
    (forall ch, In ch (list_ascii_of_string cur) -> sep ch = false) ->
    Forall (fun piece =>
              forall ch, In ch (list_ascii_of_string piece) -> sep ch = false)
           (split_on sep s cur).
Proof.
  induction s as [|c s IH]; intros cur Hcur; cbn [split_on].
  - constructor; [assumption | constructor].
  - destruct (sep c) eqn:E.
    + constructor; [assumption|].
      apply IH; intros ch [].
    + apply IH; intros ch Hin.
      rewrite list_of_append in Hin; apply in_app_or in Hin as [Hin|Hin];
        [auto|].
      destruct Hin as [<-|[]]; assumption.
Qed.

Lemma audioLines_pieces (text : string) :
  Forall (fun line =>
            trim line <> EmptyString /\
            forall ch, In ch (list_ascii_of_string (trim line)) ->
                       ch <> "."%char /\ ch <> "!"%char /\ ch <> "?"%char)
         (audioLines text).
Proof.
  unfold audioLines; apply Forall_forall; intros line Hin.
  apply filter_In in Hin as [Hin Hkeep]; split.
  - destruct (trim line); [discriminate | discriminate].
  - intros ch Hch; apply trim_In in Hch.
    pose proof (split_on_pieces
                  (fun c => existsb (Ascii.eqb c) [ "."; "!"; "?" ]%char)
                  text EmptyString (fun ch (H : In ch []) => match H with end))
      as Hall.
    rewrite Forall_forall in Hall; specialize (Hall line Hin ch Hch).
    cbn [existsb] in Hall.
    repeat split; intros ->; discriminate.
Qed.

Lemma audioLineSteps_entries (text : string) (lines : list string) :
  forall (s : CallState) (c : Call.t) (w : World),
    currentCall s = Some c ->
    exists c' : Call.t,
      currentCall (fst (audioLineSteps text lines s w)) = Some c' /\
      Call.id c' = Call.id c /\
      Call.status c' = Call.status c /\
      map TranscriptEntry.text (Call.transcript c')
        = map TranscriptEntry.text (Call.transcript c) ++ map trim lines /\
      List.length (CallExtraction.promises (Call.extraction c'))
        = (List.length (CallExtraction.promises (Call.extraction c))
           + List.length (filter hasPromise lines))%nat /\
      callHistory (fst (audioLineSteps text lines s w)) = callHistory s.
Proof.
  induction lines as [|line lines IH]; intros s c w Hc.
  - exists c; cbn; rewrite app_nil_r, Nat.add_0_r; auto 8.
  - rewrite (audioLineSteps_cons text line lines s c w Hc).
    destruct (IH (set_currentCall
                    (Some (callWithEntry c (trim line) line text w)) s)
                 (callWithEntry c (trim line) line text w)
                 (snd (analyzeText line text
                                   (mkWorld (S (next_uuid w)) (clock w))))
                 eq_refl)
      as (c' & Hc' & Hid & Hst & Htr & Hpr & Hh).
    exists c'; split; [exact Hc'|].
    split; [rewrite Hid; reflexivity|].
    split; [rewrite Hst; reflexivity|].
    split.
    { rewrite Htr; unfold callWithEntry; cbn [Call.transcript map].
      rewrite map_app, <- app_assoc; reflexivity. }
    split.
    { rewrite Hpr; unfold callWithEntry; cbn [Call.extraction].
      rewrite mergeExtraction_promises.
      cbn [filter]; destruct (hasPromise line); simpl; lia. }
    exact Hh.
Qed.

(** X24. An audio transcript is cut at every full stop, exclamation mark and
    question mark; the pieces that are not blank become, trimmed and in
    order, the new transcript entries of the current call.  No entry is empty
    and none contains one of the three marks (so an amount written with a
    decimal point never reaches the analysis in one piece); the number of
    accumulated promises grows by the number of pieces that contain a promise
    keyword; the call keeps its identifier and status and the history is not
    touched.  Without a call on screen nothing happens. *)
Theorem X24_audio_transcript_becomes_entries :
  forall (text : string) (s : CallState) (c rendered : Call.t) (w : World),
    currentCall s = Some c ->
    let lines := audioLines text in
    let s' := fst (handleAudioTranscription (Some rendered) text s w) in
    (exists c' : Call.t,
        currentCall s' = Some c' /\
        Call.id c' = Call.id c /\
        Call.status c' = Call.status c /\
        map TranscriptEntry.text (Call.transcript c')
          = map TranscriptEntry.text (Call.transcript c) ++ map trim lines /\
        List.length (CallExtraction.promises (Call.extraction c'))
          = (List.length (CallExtraction.promises (Call.extraction c))
             + List.length (filter hasPromise lines))%nat /\
        callHistory s' = callHistory s) /\
    Forall (fun entryText =>
              entryText <> EmptyString /\
              forall ch, In ch (list_ascii_of_string entryText) ->
                         ch <> "."%char /\ ch <> "!"%char /\ ch <> "?"%char)
           (map trim lines) /\
    handleAudioTranscription None text s w = (s, w).
Proof.
  intros text s c rendered w Hc lines s'.
  split; [|split].
  - unfold s', handleAudioTranscription, lines.
    apply audioLineSteps_entries; assumption.
  - apply Forall_map, audioLines_pieces.
  - reflexivity.
Qed.

Lemma X24_audio_transcript_becomes_entries_witness :
  exists c' : Call.t,
    currentCall
      (fst (handleAudioTranscription (Some sampleCall)
              "I will pay KES 2,500.50 tomorrow. Thank you!"
              sampleActive sampleWorld)) = Some c' /\
    map TranscriptEntry.text (Call.transcript c')
      = [ "I will pay KES 2,500"; "50 tomorrow"; "Thank you" ] /\
    List.length (CallExtraction.promises (Call.extraction c')) = 1%nat.
Proof.
  destruct (X24_audio_transcript_becomes_entries
              "I will pay KES 2,500.50 tomorrow. Thank you!"
              sampleActive sampleCall sampleCall sampleWorld eq_refl)
    as [(c' & Hcurrent & _ & _ & Htexts & Hpromises & _) _].
  exists c'; split; [exact Hcurrent|].
  split; [exact Htexts | exact Hpromises].
Defined.


